(** * Porcupine: the langserver plugin and the no-terminal command runner

    A shallow embedding of [porcupine/plugins/lsp.py] and of
    [Executor] from [porcupine/plugins/run/no_terminal.py], with the
    properties of the session manager stated over it.

    Conventions of the embedding:
    - a Python [str] is a [string]; its characters are code points below 256;
    - a Python [bytes] object is a [list byte];
    - an [Optional[str]] attribute is an [option string];
    - a method that mutates [self] takes the object and returns the new one;
    - a raised exception is a value of [PyExc];
    - objects compared with [is] carry their identity (an address). *)

From Stdlib Require Import ZArith NArith Ascii String Strings.Byte List Bool Lia.
From stdpp Require Import gmap strings pretty list.

Local Open Scope string_scope.
Local Open Scope Z_scope.

(** ** Python values used by the two modules *)

Module Py.

(** Exceptions the modelled code raises. *)
Inductive PyExc :=
  | ValueError
  | KeyError
  | NameError (name : string)
  | AttributeError
  | NotImplementedError
  | AssertionError
  | OSError.

Definition LF : ascii := "010"%char.
Definition newline : string := String LF "".
Definition text_of (cs : list ascii) : string := string_of_list_ascii cs.
Definition chars (s : string) : list ascii := list_ascii_of_string s.

(** Truth value of a [str]: the empty string is falsy. *)
Definition truthy (s : string) : bool :=
  match s with EmptyString => false | String _ _ => true end.

(** [a or b] for an optional string [a] and a string [b]: [None] and the
    empty string both fall through to [b]. *)
Definition or_str (a : option string) (b : string) : string :=
  match a with
  | Some s => if truthy s then s else b
  | None => b
  end.

(** [s[n:]] for [0 <= n]. *)
Fixpoint slice_from (n : nat) (s : string) : string :=
  match n, s with
  | O, _ => s
  | S n', String _ s' => slice_from n' s'
  | S _, EmptyString => EmptyString
  end.

(** [s.startswith(p)]. *)
Definition startswith (s p : string) : bool := String.prefix p s.

(** [s.split(sep)] for a one-character separator. *)
Fixpoint split_go (sep : ascii) (cur : list ascii) (cs : list ascii) : list string :=
  match cs with
  | [] => [text_of (rev cur)]
  | c :: cs' =>
      if Ascii.eqb c sep then text_of (rev cur) :: split_go sep [] cs'
      else split_go sep (c :: cur) cs'
  end.

Definition split (sep : ascii) (s : string) : list string :=
  split_go sep [] (chars s).

(** [s.strip()], given the table of [str.isspace]. *)
Fixpoint lstrip_chars (isspace : ascii -> bool) (cs : list ascii) : list ascii :=
  match cs with
  | [] => []
  | c :: cs' => if isspace c then lstrip_chars isspace cs' else cs
  end.

Definition strip (isspace : ascii -> bool) (s : string) : string :=
  text_of (rev (lstrip_chars isspace (rev (lstrip_chars isspace (chars s))))).

(** [int(s)] on a [str]: surrounding white space is dropped, then an
    optional sign, then decimal digits, single underscores allowed between
    digits.  Anything else is [ValueError]. *)
Fixpoint int_digits (after_digit : bool) (acc : Z) (cs : list ascii) : option Z :=
  match cs with
  | [] => if after_digit then Some acc else None
  | c :: cs' =>
      match Ascii.is_nat c with
      | Some d => int_digits true (10 * acc + Z.of_nat d) cs'
      | None =>
          if Ascii.eqb c "_"%char && after_digit then int_digits false acc cs'
          else None
      end
  end.

Definition int_of_chars (cs : list ascii) : option Z :=
  match cs with
  | "-"%char :: cs' => Z.opp <$> int_digits false 0 cs'
  | "+"%char :: cs' => int_digits false 0 cs'
  | _ => int_digits false 0 cs
  end.

Definition int (isspace : ascii -> bool) (s : string) : PyExc + Z :=
  match int_of_chars (chars (strip isspace s)) with
  | Some z => inr z
  | None => inl ValueError
  end.

(** [str(n)], also what ["%d"] and an f-string field produce for an [int]. *)
Definition str_of_int (z : Z) : string := pretty z.

(** [sorted(xs, key=key)] with string keys: a stable sort, strings compared
    code point by code point. *)
Fixpoint insert_by_key {A} (key : A -> string) (x : A) (l : list A) : list A :=
  match l with
  | [] => [x]
  | y :: l' =>
      if String.leb (key x) (key y) then x :: l
      else y :: insert_by_key key x l'
  end.

Definition sorted {A} (key : A -> string) (xs : list A) : list A :=
  foldr (insert_by_key key) [] xs.

(** [xs.remove(x)]: drops the first occurrence, [ValueError] without one. *)
Fixpoint list_remove (x : nat) (xs : list nat) : PyExc + list nat :=
  match xs with
  | [] => inl ValueError
  | y :: xs' =>
      if Nat.eqb x y then inr xs'
      else match list_remove x xs' with
           | inl e => inl e
           | inr r => inr (y :: r)
           end
  end.

End Py.

Import Py.

(** ** What the plugin takes from its host

    Functions of the standard library and of the platform whose tables are
    not part of the repository. *)
Class Host := {
  (** [os.path.abspath] *)
  abspath : string -> string;
  (** [urllib.request.pathname2url] *)
  pathname2url : string -> string;
  (** [str.isspace] *)
  isspace : ascii -> bool;
  (** the class [\w] of the [re] module *)
  re_word : ascii -> bool;
  (** [signal.Signals(n).name], [None] where that raises [ValueError] *)
  signal_name : Z -> option string;
}.

(** The 7-bit tables, used where a concrete host is needed. *)
Definition ascii_word (c : ascii) : bool :=
  let n := nat_of_ascii c in
  ((48 <=? n) && (n <=? 57) || (65 <=? n) && (n <=? 90)
   || (97 <=? n) && (n <=? 122) || (n =? 95))%nat.

Definition ascii_host : Host := {|
  abspath p := p;
  pathname2url p := p;
  isspace := Ascii.is_space;
  re_word := ascii_word;
  signal_name n := if n =? 9 then Some "SIGKILL" else None;
|}.

(** ** [lsp.py]: data *)

Module Lsp.

(** [lsp.Position] *)
Record Position := { line : Z; character : Z }.

(** [lsp.CompletionItem], the attributes the plugin reads. *)
Record CompletionItem := {
  label : string;
  documentation : option string;
  insertText : option string;
  filterText : option string;
  sortText : option string;
}.

(** [lsp.ClientState] of [sansio_lsp_client]; the plugin only compares it
    with [NORMAL] and [EXITED]. *)
Inductive ClientState :=
  | NOT_INITIALIZED | WAITING_FOR_INITIALIZED | NORMAL
  | WAITING_FOR_SHUTDOWN | SHUTDOWN | EXITED.

#[export] Instance ClientState_eq_dec : EqDecision ClientState.
Proof. solve_decision. Defined.

Inductive MessageType := MT_ERROR | MT_WARNING | MT_INFO | MT_LOG.

Record TextDocumentItem := {
  uri : string;
  languageId : string;
  text : string;
  version : Z;
}.

Record TextDocumentContentChangeEvent := {
  range_start : Position;
  range_end : Position;
  change_text : string;
}.

(** What the plugin asks the client to send, one constructor per method of
    [lsp.Client] it calls. *)
Inductive Outgoing :=
  | did_open (item : TextDocumentItem)
  | did_change (doc_uri : string) (doc_version : Z)
      (content_changes : list TextDocumentContentChangeEvent)
  | completions (request_id : Z) (doc_uri : string) (position : Position)
  | shutdown
  | exit.

(** The events [lsp.Client.recv] yields.  [OtherEvent] stands for every
    event class that [_handle_lsp_event] has no [isinstance] branch for. *)
Inductive Event :=
  | Initialized (capabilities : string)
  | Shutdown
  | Completion (message_id : Z) (items : list CompletionItem)
  | PublishDiagnostics
  | LogMessage (type : MessageType) (message : string)
  | OtherEvent (kind : string).

(** [lsp.Client]: its state, the messages queued since the last [send()]
    and the id its next request gets. *)
Record Client := {
  state : ClientState;
  queued : list Outgoing;
  next_request_id : Z;
}.

(** [subprocess.Popen]: [returncode] is what [poll()] gives; [kill_status]
    is what [wait()] gives once [kill()] has been called on a live process. *)
Record Popen := {
  pid : Z;
  returncode : option Z;
  kill_status : Z;
}.

(** A [tabs.FileTab] as the plugin sees it.  The two widget methods are the
    widget's answers in its present state. *)
Record FileTab := {
  path : option string;
  langserver_language_id : string;
  textwidget_get : string -> string -> string;
  textwidget_index : string -> string;
}.

Inductive LogLevel := DEBUG | INFO | WARNING | ERROR.

#[export] Instance LogLevel_eq_dec : EqDecision LogLevel.
Proof. solve_decision. Defined.

Record LogRecord := { levelno : LogLevel; msg : string }.

(** One entry of the list under ['completions'] in the response. *)
Module Response.
Record t := {
  display_text : string;
  replace_start : string;
  replace_end : string;
  replace_text : string;
  filter_text : string;
  documentation : string;
}.
End Response.

(** The dictionary kept per pending completion request and, once
    ['completions'] is filled in, sent back to the tab.  The tab is kept by
    reference. *)
Record InfoDict := {
  tab : nat;
  cursor_pos : string;
}.

(** Callbacks handed to [get_tab_manager().after]. *)
Inductive Callback := run_stuff_cb | ensure_quits_cb.

(** [LangServerId = namedtuple('LangServerId', ['command', 'port',
    'project_root'])] *)
Abbreviation LangServerId := (string * option Z * string)%type.

Definition command (i : LangServerId) : string := i.1.1.
Definition port (i : LangServerId) : option Z := i.1.2.
Definition project_root (i : LangServerId) : string := i.2.

(** A [LangServer] object.  [self_ref] is its identity, what [is] compares.
    [_version_counter] holds the next value of [itertools.count()].
    [_io] holds what has been passed to [self._io.write], a chunk per
    call. *)
Record LangServer := {
  self_ref : nat;
  _process : Popen;
  _id : LangServerId;
  _lsp_client : Client;
  _completion_infos : gmap Z InfoDict;
  _version_counter : Z;
  _log : list LogRecord;
  tabs_opened : list nat;
  _is_shutting_down_cleanly : bool;
  _io : list (list Outgoing);
}.

(** What lives outside the object: the module-level dictionary
    [langservers] (keys to object identities), the tabs by reference, the
    virtual events generated on tabs and the timers set. *)
Record World := {
  langservers : gmap LangServerId nat;
  tabs_heap : nat -> FileTab;
  generated : list (nat * string * (InfoDict * list Response.t));
  scheduled : list (Z * Callback);
}.

(** *** Field updates *)

Definition set_process (p : Popen) (s : LangServer) : LangServer :=
  {| self_ref := self_ref s; _process := p; _id := _id s;
     _lsp_client := _lsp_client s; _completion_infos := _completion_infos s;
     _version_counter := _version_counter s; _log := _log s;
     tabs_opened := tabs_opened s;
     _is_shutting_down_cleanly := _is_shutting_down_cleanly s; _io := _io s |}.

Definition set_lsp_client (c : Client) (s : LangServer) : LangServer :=
  {| self_ref := self_ref s; _process := _process s; _id := _id s;
     _lsp_client := c; _completion_infos := _completion_infos s;
     _version_counter := _version_counter s; _log := _log s;
     tabs_opened := tabs_opened s;
     _is_shutting_down_cleanly := _is_shutting_down_cleanly s; _io := _io s |}.

Definition set_completion_infos (m : gmap Z InfoDict) (s : LangServer) : LangServer :=
  {| self_ref := self_ref s; _process := _process s; _id := _id s;
     _lsp_client := _lsp_client s; _completion_infos := m;
     _version_counter := _version_counter s; _log := _log s;
     tabs_opened := tabs_opened s;
     _is_shutting_down_cleanly := _is_shutting_down_cleanly s; _io := _io s |}.

Definition set_version_counter (n : Z) (s : LangServer) : LangServer :=
  {| self_ref := self_ref s; _process := _process s; _id := _id s;
     _lsp_client := _lsp_client s; _completion_infos := _completion_infos s;
     _version_counter := n; _log := _log s;
     tabs_opened := tabs_opened s;
     _is_shutting_down_cleanly := _is_shutting_down_cleanly s; _io := _io s |}.

Definition set_log (l : list LogRecord) (s : LangServer) : LangServer :=
  {| self_ref := self_ref s; _process := _process s; _id := _id s;
     _lsp_client := _lsp_client s; _completion_infos := _completion_infos s;
     _version_counter := _version_counter s; _log := l;
     tabs_opened := tabs_opened s;
     _is_shutting_down_cleanly := _is_shutting_down_cleanly s; _io := _io s |}.

Definition set_tabs_opened (l : list nat) (s : LangServer) : LangServer :=
  {| self_ref := self_ref s; _process := _process s; _id := _id s;
     _lsp_client := _lsp_client s; _completion_infos := _completion_infos s;
     _version_counter := _version_counter s; _log := _log s;
     tabs_opened := l;
     _is_shutting_down_cleanly := _is_shutting_down_cleanly s; _io := _io s |}.

Definition set_is_shutting_down_cleanly (b : bool) (s : LangServer) : LangServer :=
  {| self_ref := self_ref s; _process := _process s; _id := _id s;
     _lsp_client := _lsp_client s; _completion_infos := _completion_infos s;
     _version_counter := _version_counter s; _log := _log s;
     tabs_opened := tabs_opened s;
     _is_shutting_down_cleanly := b; _io := _io s |}.

Definition set_io (w : list (list Outgoing)) (s : LangServer) : LangServer :=
  {| self_ref := self_ref s; _process := _process s; _id := _id s;
     _lsp_client := _lsp_client s; _completion_infos := _completion_infos s;
     _version_counter := _version_counter s; _log := _log s;
     tabs_opened := tabs_opened s;
     _is_shutting_down_cleanly := _is_shutting_down_cleanly s; _io := w |}.

Definition set_langservers (r : gmap LangServerId nat) (w : World) : World :=
  {| langservers := r; tabs_heap := tabs_heap w; generated := generated w;
     scheduled := scheduled w |}.

Definition set_tabs_heap (heap : nat -> FileTab) (w : World) : World :=
  {| langservers := langservers w; tabs_heap := heap;
     generated := generated w; scheduled := scheduled w |}.

Definition add_generated (e : nat * string * (InfoDict * list Response.t)) (w : World) : World :=
  {| langservers := langservers w; tabs_heap := tabs_heap w;
     generated := generated w ++ [e]; scheduled := scheduled w |}.

Definition add_scheduled (e : Z * Callback) (w : World) : World :=
  {| langservers := langservers w; tabs_heap := tabs_heap w;
     generated := generated w; scheduled := scheduled w ++ [e] |}.

(** *** The monad of a method body

    A method runs on the object and the world; it returns a value or raises,
    and what it changed before raising stays changed. *)
Definition M (A : Type) : Type :=
  LangServer * World -> (PyExc + A) * (LangServer * World).

Definition ret {A} (a : A) : M A := fun st => (inr a, st).
Definition raise {A} (e : PyExc) : M A := fun st => (inl e, st).
Definition bind {A B} (m : M A) (k : A -> M B) : M B :=
  fun st => match m st with
            | (inr a, st') => k a st'
            | (inl e, st') => (inl e, st')
            end.
Definition get_self : M LangServer := fun st => (inr st.1, st).
Definition get_world : M World := fun st => (inr st.2, st).
Definition update_self (f : LangServer -> LangServer) : M unit :=
  fun st => (inr tt, (f st.1, st.2)).
Definition update_world (f : World -> World) : M unit :=
  fun st => (inr tt, (st.1, f st.2)).
Definition lift {A} (r : PyExc + A) : M A := fun st => (r, st).

(** [try: m / except Exception: handler] *)
Definition try_except {A} (m : M A) (handler : M A) : M A :=
  fun st => match m st with
            | (inr a, st') => (inr a, st')
            | (inl _, st') => handler st'
            end.

(** [for x in xs: body x] *)
Fixpoint for_each {A} (xs : list A) (body : A -> M unit) : M unit :=
  match xs with
  | [] => ret tt
  | x :: xs' => bind (body x) (fun _ => for_each xs' body)
  end.

#[export] Instance M_ret : MRet M := @ret.
#[export] Instance M_bind : MBind M := fun A B k m => bind m k.

Section WithHost.
Context {host : Host}.

(** *** Module-level functions *)

(** [get_uri]; the path of a tab may be [None]. *)
Definition get_uri (path : option string) : PyExc + string :=
  match path with
  | None => inl AssertionError
  | Some p => inr ("file://" +:+ pathname2url (abspath p))
  end.

(** [get_completion_item_doc] *)
Definition get_completion_item_doc (item : CompletionItem) : string :=
  match documentation item with
  | Some doc =>
      if truthy doc then
        if startswith doc (strip isspace (label item)) then doc
        else strip isspace (label item) +:+ newline +:+ newline +:+ doc
      else label item
  | None => label item
  end.

(** [exit_code_string] *)
Definition exit_code_string (exit_code : Z) : string :=
  if 0 <=? exit_code then "exited with code " +:+ str_of_int exit_code
  else
    let signal_number := Z.abs exit_code in
    let result := "was killed by signal " +:+ str_of_int signal_number in
    match signal_name signal_number with
    | Some name => result +:+ " (" +:+ name +:+ ")"
    | None => result
    end.

(** [_position_tk2lsp].  The keyword argument is a [bool]; the statement
    [next_column += 1] rebinds that local name to an [int] and nothing
    reads it afterwards. *)
Definition _position_tk2lsp (tk_position_string : string) (next_column : bool)
  : PyExc + Position :=
  match split "."%char tk_position_string with
  | [a; b] =>
      match int isspace a with
      | inl e => inl e
      | inr line =>
          match int isspace b with
          | inl e => inl e
          | inr column =>
              let next_column : Z :=
                if next_column then Z.b2z next_column + 1 else Z.b2z next_column in
              inr {| line := line - 1; character := column |}
          end
      end
  | _ => inl ValueError
  end.

(** [re.fullmatch] of the pattern: a lazy run of any characters, then a
    group holding a greedy run of word characters.  Returns the text of
    group 1 on a match.  The lazy run is tried with the fewest characters
    first; at each try the greedy run of word characters has to reach the
    end of [s].  The dot does not match a line feed. *)
Fixpoint all_word (s : string) : bool :=
  match s with
  | EmptyString => true
  | String c s' => re_word c && all_word s'
  end.

Fixpoint fullmatch_group1 (s : string) : option string :=
  if all_word s then Some s
  else match s with
       | EmptyString => None
       | String c s' => if Ascii.eqb c LF then None else fullmatch_group1 s'
       end.

(** *** [lsp.Client] and [subprocess.Popen] methods *)

(** Any of [did_open], [did_change], [completions], [shutdown], [exit]:
    the message is queued; [shutdown] and [exit] move the client's state
    and [completions] uses up a request id. *)
Definition client_call (m : Outgoing) (c : Client) : Client :=
  {| state := match m with
              | shutdown => WAITING_FOR_SHUTDOWN
              | exit => EXITED
              | _ => state c
              end;
     queued := queued c ++ [m];
     next_request_id := match m with
                        | completions _ _ _ => next_request_id c + 1
                        | _ => next_request_id c
                        end |}.

(** [send()]: hands over what is queued. *)
Definition client_send (c : Client) : list Outgoing * Client :=
  (queued c,
   {| state := state c; queued := []; next_request_id := next_request_id c |}).

Definition kill (p : Popen) : Popen :=
  match returncode p with
  | Some _ => p
  | None => {| pid := pid p; returncode := Some (kill_status p);
               kill_status := kill_status p |}
  end.

(** *** [LangServer] methods *)

Definition log (lv : LogLevel) (m : string) : M unit :=
  update_self (fun s => set_log (_log s ++ [{| levelno := lv; msg := m |}]) s).

(** [self._log.exception(m)] logs at level [ERROR]. *)
Definition log_exception (m : string) : M unit := log ERROR m.

Definition call_client (m : Outgoing) : M unit :=
  update_self (fun s => set_lsp_client (client_call m (_lsp_client s)) s).

Definition _is_in_langservers (s : LangServer) (w : World) : bool :=
  bool_decide (langservers w !! _id s = Some (self_ref s)).

Definition _get_removed_from_langservers : M unit :=
  s ← get_self;
  w ← get_world;
  if _is_in_langservers s w then
    log DEBUG "getting removed from langservers";;
    update_world (fun w => set_langservers (delete (_id s) (langservers w)) w)
  else mret tt.

Definition _ensure_langserver_process_quits_soon : M unit :=
  s ← get_self;
  exit_code ←
    match returncode (_process s) with
    | Some c => mret (Some c)
    | None =>
        if decide (state (_lsp_client s) = EXITED) then
          log DEBUG "langserver process should stop soon";;
          update_world (add_scheduled (500, ensure_quits_cb));;
          mret None
        else
          let what_closed :=
            match port (_id s) with
            | None => "stdout"
            | Some _ => "socket connection"
            end in
          log WARNING ("killing langserver process "
                       +:+ str_of_int (pid (_process s)) +:+ " because "
                       +:+ what_closed +:+ " has closed for some reason");;
          update_self (fun s => set_process (kill (_process s)) s);;
          mret (Some (kill_status (_process s)))
    end;
  match exit_code with
  | None => mret tt
  | Some exit_code =>
      s ← get_self;
      (if _is_shutting_down_cleanly s then
         log INFO ("langserver process terminated, "
                   +:+ exit_code_string exit_code)
       else
         log ERROR ("langserver process terminated unexpectedly, "
                    +:+ exit_code_string exit_code));;
      _get_removed_from_langservers
  end.

Definition _send_tab_opened_message (t : nat) : M unit :=
  w ← get_world;
  let tab_obj := tabs_heap w t in
  u ← lift (get_uri (path tab_obj));
  call_client (did_open {|
    uri := u;
    languageId := langserver_language_id tab_obj;
    text := textwidget_get tab_obj "1.0" "end - 1 char";
    version := 0;
  |}).

(** One dictionary of the list comprehension in the [Completion] branch. *)
Definition completion_entry (tab_obj : FileTab) (cursor : string)
    (prefix_len : nat) (item : CompletionItem) : Response.t :=
  {| Response.display_text := label item;
     Response.replace_start :=
       textwidget_index tab_obj
         (cursor +:+ " - " +:+ str_of_int (Z.of_nat prefix_len) +:+ " chars");
     Response.replace_end := cursor;
     Response.replace_text := or_str (insertText item) (label item);
     Response.filter_text :=
       slice_from prefix_len
         (or_str (filterText item) (or_str (insertText item) (label item)));
     Response.documentation := get_completion_item_doc item |}.

Definition loglevel_dict (t : MessageType) : LogLevel :=
  match t with
  | MT_LOG => DEBUG
  | MT_INFO => INFO
  | MT_WARNING => WARNING
  | MT_ERROR => ERROR
  end.

Definition _handle_lsp_event (lsp_event : Event) : M unit :=
  match lsp_event with
  | Initialized capabilities =>
      log INFO ("langserver initialized, capabilities:" +:+ newline
                +:+ capabilities);;
      s ← get_self;
      for_each (tabs_opened s) _send_tab_opened_message
  | Shutdown =>
      log DEBUG "langserver sent Shutdown event";;
      call_client exit;;
      _get_removed_from_langservers
  | Completion message_id items =>
      s ← get_self;
      match _completion_infos s !! message_id with
      | None => raise KeyError
      | Some info_dict =>
          update_self (fun s =>
            set_completion_infos (delete message_id (_completion_infos s)) s);;
          w ← get_world;
          let tab_obj := tabs_heap w (tab info_dict) in
          let before_cursor :=
            textwidget_get tab_obj (cursor_pos info_dict +:+ " linestart")
              (cursor_pos info_dict) in
          match fullmatch_group1 before_cursor with
          | None => raise AttributeError
          | Some group1 =>
              let prefix_len := String.length group1 in
              let completions :=
                map (completion_entry tab_obj (cursor_pos info_dict) prefix_len)
                  (sorted (fun item => or_str (sortText item) (label item))
                     items) in
              update_world
                (add_generated (tab info_dict, "<<AutoCompletionResponse>>",
                                (info_dict, completions)))
          end
      end
  | PublishDiagnostics => mret tt
  | LogMessage type message =>
      log (loglevel_dict type) ("message from langserver: " +:+ message)
  | OtherEvent _ => raise NotImplementedError
  end.

(** The [for lsp_event in lsp_events] loop of [_run_stuff_once]. *)
Definition dispatch (lsp_events : list Event) : M unit :=
  for_each lsp_events (fun lsp_event =>
    try_except (_handle_lsp_event lsp_event)
      (log_exception "error while handling langserver event")).

(** [_run_stuff_once] where the two calls on the transport return:
    [self._io.write] returns and [self._io.read()] returns
    [received_bytes]; [Loop._run_stuff_once] below is the method with a
    transport whose calls can raise.  [recv] is what
    [self._lsp_client.recv] gives for the bytes: a raised exception, or the
    client's new state and the events.  The result says whether to run
    again. *)
Definition _run_stuff_once (received_bytes : option (list byte))
    (recv : PyExc + ClientState * list Event) : M bool :=
  update_self (fun s =>
    let (data, c) := client_send (_lsp_client s) in
    set_io (_io s ++ [data]) (set_lsp_client c s));;
  match received_bytes with
  | None => mret true
  | Some [] =>
      _ensure_langserver_process_quits_soon;;
      mret false
  | Some ((_ :: _) as received) =>
      log DEBUG ("got " +:+ str_of_int (Z.of_nat (length received))
                 +:+ " bytes of data");;
      lsp_events ←
        match recv with
        | inl _ =>
            log_exception "error while receiving lsp events";;
            mret []
        | inr (st, evs) =>
            update_self (fun s =>
              set_lsp_client {| state := st; queued := queued (_lsp_client s);
                                next_request_id := next_request_id (_lsp_client s) |}
                s);;
            mret evs
        end;
      dispatch lsp_events;;
      mret true
  end.

Definition run_stuff (received_bytes : option (list byte))
    (recv : PyExc + ClientState * list Event) : M unit :=
  again ← _run_stuff_once received_bytes recv;
  if again : bool then update_world (add_scheduled (50, run_stuff_cb))
  else mret tt.

Definition open_tab (t : nat) : M unit :=
  log DEBUG "tab opened";;
  update_self (fun s => set_tabs_opened (tabs_opened s ++ [t]) s);;
  s ← get_self;
  if decide (state (_lsp_client s) = NORMAL) then _send_tab_opened_message t
  else mret tt.

Definition close_tab (t : nat) : M unit :=
  s ← get_self;
  w ← get_world;
  if negb (_is_in_langservers s w) then
    log DEBUG ("a tab was closed, but langserver process is no longer "
               +:+ "running (maybe it crashed?)")
  else
    log DEBUG "tab closed";;
    remaining ← lift (list_remove t (tabs_opened s));
    update_self (set_tabs_opened remaining);;
    match remaining with
    | _ :: _ => mret tt
    | [] =>
        log INFO "no more open tabs, shutting down";;
        update_self (set_is_shutting_down_cleanly true);;
        _get_removed_from_langservers;;
        s ← get_self;
        if decide (state (_lsp_client s) = NORMAL) then call_client shutdown
        else update_self (fun s => set_process (kill (_process s)) s)
    end.

(** [request_completions]: [widget] is [event.widget] and [cursor] the
    ['cursor_pos'] entry of [event.data_json()]. *)
Definition request_completions (widget : nat) (cursor : string) : M unit :=
  s ← get_self;
  if decide (state (_lsp_client s) ≠ NORMAL) then
    log WARNING "autocompletions requested but langserver state == %r"
  else
    w ← get_world;
    u ← lift (get_uri (path (tabs_heap w widget)));
    position ← lift (_position_tk2lsp cursor true);
    let lsp_id := next_request_id (_lsp_client s) in
    call_client (completions lsp_id u position);;
    match _completion_infos s !! lsp_id with
    | Some _ => raise AssertionError
    | None =>
        update_self (fun s =>
          set_completion_infos
            (<[lsp_id := {| tab := widget; cursor_pos := cursor |}]>
               (_completion_infos s)) s)
    end.

(** One dictionary of [event.data_json()] of a [<<ContentChanged>>] event. *)
Record ChangeInfo := {
  start : string;
  end_ : string;
  new_text : string;
}.

Definition content_change (info : ChangeInfo)
  : PyExc + TextDocumentContentChangeEvent :=
  match _position_tk2lsp (start info) false with
  | inl e => inl e
  | inr s =>
      match _position_tk2lsp (end_ info) false with
      | inl e => inl e
      | inr e => inr {| range_start := s; range_end := e;
                        change_text := new_text info |}
      end
  end.

Fixpoint content_changes_of (infos : list ChangeInfo)
  : PyExc + list TextDocumentContentChangeEvent :=
  match infos with
  | [] => inr []
  | info :: infos' =>
      match content_change info with
      | inl e => inl e
      | inr c =>
          match content_changes_of infos' with
          | inl e => inl e
          | inr cs => inr (c :: cs)
          end
      end
  end.

(** [send_change_events]: [master] is [event.widget.master] and [data] is
    [event.data_json()].  The arguments of [did_change] are evaluated left
    to right: the URI, then [next(self._version_counter)], then the list
    of changes. *)
Definition send_change_events (master : nat) (data : list ChangeInfo) : M unit :=
  s ← get_self;
  if decide (state (_lsp_client s) ≠ NORMAL) then
    log DEBUG "not sending change events because langserver state == %r"
  else
    w ← get_world;
    u ← lift (get_uri (path (tabs_heap w master)));
    let v := _version_counter s in
    update_self (set_version_counter (v + 1));;
    changes ← lift (content_changes_of data);
    call_client (did_change u v changes).

(** [LangServer.__init__], the attributes it sets; [client] is the object
    [lsp.Client(...)] returns. *)
Definition new_LangServer (ref : nat) (process : Popen)
    (langserver_id : LangServerId) (client : Client) : LangServer :=
  {| self_ref := ref; _process := process; _id := langserver_id;
     _lsp_client := client;
     _completion_infos := ∅;
     _version_counter := 0;
     _log := [];
     tabs_opened := [];
     _is_shutting_down_cleanly := false;
     _io := [] |}.

End WithHost.
End Lsp.

(** ** [lsp.py]: the transports *)

Module Transport.

(** Names bound at module level of [lsp.py]: its imports, assignments,
    functions and classes. *)
Definition module_globals : list string :=
  [ "collections"; "errno"; "itertools"; "json"; "logging"; "os"; "platform";
    "pprint"; "queue"; "re"; "select"; "shlex"; "signal"; "socket";
    "subprocess"; "threading"; "time"; "typing"; "pathname2url"; "fcntl";
    "get_tab_manager"; "tabs"; "utils"; "lsp"; "CHUNK_SIZE";
    "SubprocessStdIO"; "error_says_socket_not_connected";
    "LocalhostSocketIO"; "get_uri"; "_PROJECT_ROOT_THINGS";
    "find_project_root"; "get_completion_item_doc"; "exit_code_string";
    "_position_tk2lsp"; "LangServerId"; "LangServer"; "langservers";
    "get_lang_server"; "on_new_tab"; "setup";
    "__name__"; "__doc__"; "__package__"; "__loader__"; "__spec__";
    "__file__"; "__cached__"; "__builtins__" ].

(** The built-in functions, types and constants of Python 3 (the module
    uses f-strings, so it is Python 3 code). *)
Definition python3_builtins : list string :=
  [ "abs"; "aiter"; "all"; "anext"; "any"; "ascii"; "bin"; "bool";
    "breakpoint"; "bytearray"; "bytes"; "callable"; "chr"; "classmethod";
    "compile"; "complex"; "copyright"; "credits"; "delattr"; "dict"; "dir";
    "divmod"; "enumerate"; "eval"; "exec"; "exit"; "filter"; "float";
    "format"; "frozenset"; "getattr"; "globals"; "hasattr"; "hash"; "help";
    "hex"; "id"; "input"; "int"; "isinstance"; "issubclass"; "iter"; "len";
    "license"; "list"; "locals"; "map"; "max"; "memoryview"; "min"; "next";
    "object"; "oct"; "open"; "ord"; "pow"; "print"; "property"; "quit";
    "range"; "repr"; "reversed"; "round"; "set"; "setattr"; "slice";
    "sorted"; "staticmethod"; "str"; "sum"; "super"; "tuple"; "type";
    "vars"; "zip"; "__import__"; "__debug__"; "True"; "False"; "None";
    "Ellipsis"; "NotImplemented";
    "BaseException"; "Exception"; "ArithmeticError"; "AssertionError";
    "AttributeError"; "BlockingIOError"; "BrokenPipeError"; "BufferError";
    "ChildProcessError"; "ConnectionAbortedError"; "ConnectionError";
    "ConnectionRefusedError"; "ConnectionResetError"; "EOFError";
    "EnvironmentError"; "FileExistsError"; "FileNotFoundError";
    "FloatingPointError"; "GeneratorExit"; "IOError"; "ImportError";
    "IndentationError"; "IndexError"; "InterruptedError";
    "IsADirectoryError"; "KeyError"; "KeyboardInterrupt"; "LookupError";
    "MemoryError"; "ModuleNotFoundError"; "NameError";
    "NotADirectoryError"; "NotImplementedError"; "OSError";
    "OverflowError"; "PermissionError"; "ProcessLookupError";
    "RecursionError"; "ReferenceError"; "RuntimeError"; "StopAsyncIteration";
    "StopIteration"; "SyntaxError"; "SystemError"; "SystemExit"; "TabError";
    "TimeoutError"; "TypeError"; "UnboundLocalError"; "UnicodeDecodeError";
    "UnicodeEncodeError"; "UnicodeError"; "UnicodeTranslateError";
    "ValueError"; "ZeroDivisionError"; "Warning"; "BytesWarning";
    "DeprecationWarning"; "FutureWarning"; "ImportWarning";
    "PendingDeprecationWarning"; "ResourceWarning"; "RuntimeWarning";
    "SyntaxWarning"; "UnicodeWarning"; "UserWarning" ].

(** Evaluation of a name that is not local to the function: the module's
    globals, then the builtins, else [NameError]. *)
Inductive Binding := module_global | builtin.

Definition lookup_name (name : string) : PyExc + Binding :=
  if existsb (String.eqb name) module_globals then inr module_global
  else if existsb (String.eqb name) python3_builtins then inr builtin
  else inl (NameError name).

(** *** [SubprocessStdIO] in the branch [fcntl is None]

    [_read_queue] holds the [bytes] objects put and not yet taken;
    [_worker_thread_alive] is [self._worker_thread.is_alive()]. *)
Record SubprocessStdIO := {
  _read_queue : list (list byte);
  _worker_thread_alive : bool;
}.

(** How the worker thread ended, or that it is still looping. *)
Inductive ThreadOutcome :=
  | still_running
  | returned
  | raised (e : PyExc).

(** [file.read(1)] in [_stdout_to_read_queue].  [file] is no parameter and
    is never assigned in the method, so it is looked up as a global.  None
    of the objects that the module's globals and the builtins name has a
    [read] taking the child's output. *)
Definition file_read_1 : PyExc + list byte :=
  match lookup_name "file" with
  | inl e => inl e
  | inr _ => inl AttributeError
  end.

(** [_stdout_to_read_queue], run for at most [fuel] iterations of its
    [while True]. *)
Fixpoint _stdout_to_read_queue (fuel : nat) (self : SubprocessStdIO)
  : ThreadOutcome * SubprocessStdIO :=
  match fuel with
  | O => (still_running, self)
  | S fuel' =>
      match file_read_1 with
      | inl e => (raised e, self)
      | inr one_byte =>
          match one_byte with
          | [] => (returned, self)
          | _ :: _ =>
              _stdout_to_read_queue fuel'
                {| _read_queue := _read_queue self ++ [one_byte];
                   _worker_thread_alive := _worker_thread_alive self |}
          end
      end
  end.

(** The thread object after its target has run: a target that returned or
    raised leaves a thread that is not alive. *)
Definition after_worker (r : ThreadOutcome * SubprocessStdIO) : SubprocessStdIO :=
  match r.1 with
  | still_running => r.2
  | _ => {| _read_queue := _read_queue r.2; _worker_thread_alive := false |}
  end.

(** What the worker thread can do between two steps of the foreground. *)
Inductive WorkerStep :=
  | worker_put (one_byte : list byte)
  | worker_exit.

Definition worker_step (self : SubprocessStdIO) (a : WorkerStep) : SubprocessStdIO :=
  if _worker_thread_alive self then
    match a with
    | worker_put b => {| _read_queue := _read_queue self ++ [b];
                         _worker_thread_alive := true |}
    | worker_exit => {| _read_queue := _read_queue self;
                        _worker_thread_alive := false |}
    end
  else self.

(** [SubprocessStdIO.read] with [fcntl is None].  The queue is emptied
    into [buf]; [between] is what the worker does after the queue was found
    empty and before [is_alive()] is asked. *)
Definition SubprocessStdIO_read (between : list WorkerStep) (self : SubprocessStdIO)
  : option (list byte) * SubprocessStdIO :=
  let buf := concat (_read_queue self) in
  let self1 := {| _read_queue := [];
                  _worker_thread_alive := _worker_thread_alive self |} in
  let self2 := fold_left worker_step between self1 in
  (if _worker_thread_alive self2 && bool_decide (buf = []) then None
   else Some buf, self2).

(** [SubprocessStdIO.read] with [fcntl] present: [stdout_read] is what
    [self._process.stdout.read(CHUNK_SIZE)] gives on the non-blocking
    descriptor. *)
Definition SubprocessStdIO_read_nonblocking (stdout_read : option (list byte))
  : option (list byte) := stdout_read.

(** A run of the queue-backed transport: worker steps and [read()] calls in
    some order.  The results of the reads are collected. *)
Inductive Action :=
  | act_worker (a : WorkerStep)
  | act_read (between : list WorkerStep).

Fixpoint run (acts : list Action) (self : SubprocessStdIO)
  : list (option (list byte)) * SubprocessStdIO :=
  match acts with
  | [] => ([], self)
  | act_worker a :: acts' => run acts' (worker_step self a)
  | act_read between :: acts' =>
      let (r, self') := SubprocessStdIO_read between self in
      let (rs, self'') := run acts' self' in
      (r :: rs, self'')
  end.

(** *** [LocalhostSocketIO] *)

(** An [OSError] as [error_says_socket_not_connected] inspects it. *)
Record OSError_ := { errno : Z; winerror : Z }.

Record Platform := {
  system_is_Windows : bool;   (* platform.system() == 'Windows' *)
  ENOTCONN : Z;               (* errno.ENOTCONN *)
}.

Definition error_says_socket_not_connected (p : Platform) (error : OSError_) : bool :=
  if system_is_Windows p then winerror error =? 10057
  else errno error =? ENOTCONN p.

(** [_send_queue] holds what was put and not yet taken by the worker;
    [None] is the sentinel that stops it. *)
Record LocalhostSocketIO := {
  _send_queue : list (option (list byte));
  _worker_alive : bool;
}.

Definition LocalhostSocketIO_write (bytez : list byte) (self : LocalhostSocketIO)
  : LocalhostSocketIO :=
  {| _send_queue := _send_queue self ++ [Some bytez];
     _worker_alive := _worker_alive self |}.

(** [LocalhostSocketIO.read]: [can_read] says whether [select] listed the
    socket, [recv] is what [self._sock.recv(CHUNK_SIZE)] does.  The result
    is the raised [OSError] or the returned value. *)
Definition LocalhostSocketIO_read (p : Platform) (can_read : bool)
    (recv : OSError_ + list byte) (self : LocalhostSocketIO)
  : (OSError_ + option (list byte)) * LocalhostSocketIO :=
  if negb can_read then (inr None, self)
  else
    match recv with
    | inl e =>
        if error_says_socket_not_connected p e then (inr None, self)
        else (inl e, self)
    | inr result =>
        match result with
        | [] =>
            (inr (Some []),
             if _worker_alive self then
               {| _send_queue := _send_queue self ++ [None];
                  _worker_alive := _worker_alive self |}
             else self)
        | _ :: _ => (inr (Some result), self)
        end
    end.

End Transport.

(** ** [run/no_terminal.py]: [Executor] *)

Module Run.

(** Calls made on [self._textwidget] and on the tab manager, in order. *)
Inductive GuiCall :=
  | insert (index : string) (chars : string) (tags : list string)
  | add_links (start : string) (end_ : string)
  | yview_moveto (fraction : Z)
  | delete (index1 : string) (index2 : string)
  | after_cancel (id : string)
  | event_generate (sequence : string).

Definition MAX_SCROLLBACK : Z := 5000.

Definition OUTPUT_TAGS : list (string * string) :=
  [ ("info", "Token.Keyword"); ("output", "Token.Text");
    ("error", "Token.Name.Exception") ].

Fixpoint dict_get (d : list (string * string)) (k : string) : PyExc + string :=
  match d with
  | [] => inl KeyError
  | (k', v) :: d' => if String.eqb k k' then inr v else dict_get d' k
  end.

(** [text.count("\n")] *)
Fixpoint count_newlines (s : string) : nat :=
  match s with
  | EmptyString => O
  | String c s' => (if Ascii.eqb c LF then 1 else 0) + count_newlines s'
  end.

(** [text.replace("\r\n", "\n")] *)
Fixpoint replace_crlf (s : string) : string :=
  match s with
  | EmptyString => EmptyString
  | String c s' =>
      match s' with
      | String c' s'' =>
          if Ascii.eqb c "013"%char && Ascii.eqb c' LF
          then String LF (replace_crlf s'')
          else String c (replace_crlf s')
      | EmptyString => String c EmptyString
      end
  end.

(** An [Executor]: the attributes [stop] reads, the calls made so far and
    the widget's answer to [yview()[1] == 1.0] after given calls. *)
Record Executor := {
  _shell_process : option Z;          (* the pid, [None] before [Popen] *)
  _timeout_id : option string;
  _thread_alive : option bool;        (* [None]: no thread object *)
  calls : list GuiCall;
  scrolled_to_end : list GuiCall -> bool;
}.

Definition call (c : GuiCall) (self : Executor) : Executor :=
  {| _shell_process := _shell_process self; _timeout_id := _timeout_id self;
     _thread_alive := _thread_alive self; calls := calls self ++ [c];
     scrolled_to_end := scrolled_to_end self |}.

Definition set_timeout_id (t : option string) (self : Executor) : Executor :=
  {| _shell_process := _shell_process self; _timeout_id := t;
     _thread_alive := _thread_alive self; calls := calls self;
     scrolled_to_end := scrolled_to_end self |}.

Definition set_thread_alive (a : option bool) (self : Executor) : Executor :=
  {| _shell_process := _shell_process self; _timeout_id := _timeout_id self;
     _thread_alive := a; calls := calls self;
     scrolled_to_end := scrolled_to_end self |}.

(** [_handle_queued_item] *)
Definition _handle_queued_item (message_type text : string) (self : Executor)
  : PyExc + Executor :=
  let trim := call (delete "1.0" ("end - " +:+ str_of_int MAX_SCROLLBACK
                                  +:+ " lines")) in
  if String.eqb message_type "end" then
    if truthy text then inl AssertionError
    else inr (trim (call (event_generate "<<FileSystemChanged>>") self))
  else
    let at_end := scrolled_to_end self (calls self) in
    match dict_get OUTPUT_TAGS message_type with
    | inl e => inl e
    | inr tag =>
        let self := call (insert "end" text [tag; "uneditable"]) self in
        let linked_line_count := count_newlines text in
        let self :=
          call (add_links
                  ("end - 1 char linestart - "
                   +:+ str_of_int (Z.of_nat linked_line_count) +:+ " lines")
                  "end - 1 char linestart") self in
        let self := if at_end then call (yview_moveto 1) self else self in
        inr (trim self)
    end.

(** What [subprocess.Popen] and the process do for [_thread_target]: the
    constructor raises [OSError] (given as the text of
    [f"{type(e).__name__}: {e}"]), or the process writes chunks (each given
    decoded and passed through [utils.tkinter_safe_string]) and ends with a
    status. *)
Inductive ProcessRun :=
  | popen_failed (error_text : string)
  | ran (chunks : list string) (status : Z).

(** [_thread_target], as the items it puts on [self._queue], in order. *)
Definition _thread_target (command : string) (p : ProcessRun)
  : list (string * string) :=
  ("info", command +:+ newline) ::
  match p with
  | popen_failed error_text => [("error", error_text +:+ newline)]
  | ran chunks status =>
      map (fun text => ("output", replace_crlf text)) chunks
      ++ [ if status =? 0 then ("info", "The process completed successfully.")
           else ("error", "The process failed with status "
                          +:+ str_of_int status +:+ ".") ]
      ++ [("end", "")]
  end.

Definition SIGKILL : Z := 9.

(** How the drain loop of [stop] ends: it leaves the loop, an exception
    leaves it, or [get(block=True)] waits for an item that never comes. *)
Inductive Drained :=
  | drained (self : Executor) (left_in_queue : list (string * string))
  | drain_raised (e : PyExc) (self : Executor)
  | drain_blocked (self : Executor).

(** The [while True] loop of [stop].  [incoming] is what
    [self._queue.get(block=True)] yields from now on, in order: the item
    held by the queue, then those the thread puts. *)
Fixpoint consume_queue (kill_status : Z) (incoming : list (string * string))
    (self : Executor) : Drained :=
  match incoming with
  | [] => drain_blocked self
  | (message_type, text) :: incoming' =>
      let skipped :=
        String.eqb message_type "error"
        && String.eqb text ("The process failed with status "
                            +:+ str_of_int kill_status +:+ ".") in
      match (if skipped then inr self
             else _handle_queued_item message_type text self) with
      | inl e => drain_raised e self
      | inr self' =>
          if String.eqb message_type "end" then drained self' incoming'
          else consume_queue kill_status incoming' self'
      end
  end.

(** What the [try] block of [stop] meets: [psutil.NoSuchProcess] or
    [ProcessLookupError] is raised, or nothing is. *)
Inductive TryResult := process_gone | no_exception.

Inductive Stopped :=
  | stop_returned (self : Executor)
  | stop_raised (e : PyExc) (self : Executor)
  | stop_blocked (self : Executor).

(** [Executor.stop].  [win32] is [sys.platform == "win32"]. *)
Definition stop (win32 : bool) (quitting : bool) (try_result : TryResult)
    (incoming : list (string * string)) (self : Executor) : Stopped :=
  let self :=
    match _timeout_id self with
    | Some id => set_timeout_id None (call (after_cancel id) self)
    | None => self
    end in
  match _shell_process self with
  | None => stop_returned self
  | Some _ =>
      let finish (self : Executor) :=
        if quitting then stop_returned self
        else stop_returned (call (event_generate "<<FileSystemChanged>>") self) in
      match try_result with
      | process_gone => finish self
      | no_exception =>
          if quitting then finish self
          else
            match _thread_alive self with
            | None | Some false => stop_raised AssertionError self
            | Some true =>
                let kill_status := if win32 then 1 else - SIGKILL in
                match consume_queue kill_status incoming self with
                | drain_blocked self' => stop_blocked self'
                | drain_raised e self' => stop_raised e self'
                | drained self' _ =>
                    let self' := set_thread_alive (Some false) self' in
                    match _handle_queued_item "error" "Killed." self' with
                    | inl e => stop_raised e self'
                    | inr self'' => finish self''
                    end
                end
            end
      end
  end.

(** The texts passed to [insert], in order. *)
Definition inserted (cs : list GuiCall) : list string :=
  omap (fun c => match c with insert _ chars _ => Some chars | _ => None end) cs.

(** The status message of a process that was killed, which [stop] leaves
    out. *)
Definition kill_message (win32 : bool) : string * string :=
  ("error", "The process failed with status "
            +:+ str_of_int (if win32 then 1 else - SIGKILL) +:+ ".").

Definition pair_eqb (a b : string * string) : bool :=
  String.eqb a.1 b.1 && String.eqb a.2 b.2.

(** The texts of the queued items that are neither the kill message nor
    the end marker, in queue order. *)
Definition appended_texts (win32 : bool) (items : list (string * string))
  : list string :=
  map snd
    (List.filter (fun item => negb (pair_eqb item (kill_message win32))
                              && negb (String.eqb item.1 "end")) items).

(** The message types the thread puts before the end marker. *)
Definition output_type (item : string * string) : Prop :=
  item.1 = "info" \/ item.1 = "output" \/ item.1 = "error".

(** An executor whose command runs: the process exists, the thread is
    alive, a poll of the queue is pending. *)
Definition running_executor : Executor :=
  {| _shell_process := Some 4711; _timeout_id := Some "after#12";
     _thread_alive := Some true; calls := [];
     scrolled_to_end := fun _ => true |}.

End Run.


(** ** Notions used in the statements *)

Section Notions.
Context {host : Host}.
Import Lsp.

(** Everything the session has asked its client to send so far, in order:
    what was already written to the transport, then what is still queued. *)
Definition sent (s : LangServer) : list Outgoing :=
  concat (_io s) ++ queued (_lsp_client s).

Definition change_version (m : Outgoing) : option Z :=
  match m with did_change _ v _ => Some v | _ => None end.

Definition open_version (m : Outgoing) : option Z :=
  match m with did_open item => Some (version item) | _ => None end.

(** The version numbers of the change notifications among [ms], in order,
    and those of the open notifications. *)
Definition change_versions (ms : list Outgoing) : list Z := omap change_version ms.
Definition open_versions (ms : list Outgoing) : list Z := omap open_version ms.

(** What the editor and the timers do to a session, one callback at a
    time.  [on_edit] stands for anything that happens to the tabs in
    between. *)
Inductive EditorCall :=
  | on_open_tab (t : nat)
  | on_close_tab (t : nat)
  | on_request_completions (widget : nat) (cursor : string)
  | on_send_change_events (master : nat) (data : list ChangeInfo)
  | on_run_stuff (received_bytes : option (list byte))
      (recv : PyExc + ClientState * list Event)
  | on_ensure_quits
  | on_edit (heap : nat -> FileTab).

Definition editor_call (c : EditorCall) : M unit :=
  match c with
  | on_open_tab t => open_tab t
  | on_close_tab t => close_tab t
  | on_request_completions widget cursor => request_completions widget cursor
  | on_send_change_events master data => send_change_events master data
  | on_run_stuff received_bytes recv => run_stuff received_bytes recv
  | on_ensure_quits => _ensure_langserver_process_quits_soon
  | on_edit heap => update_world (set_tabs_heap heap)
  end.

(** A callback that raises is reported by Tk and the main loop goes on
    with the next one. *)
Definition editor_calls (cs : list EditorCall) : M unit :=
  for_each cs (fun c => try_except (editor_call c) (mret tt)).

(** The positions of a change event are Tk indexes that parse. *)
Definition well_formed (c : EditorCall) : Prop :=
  match c with
  | on_send_change_events _ data => exists cs, content_changes_of data = inr cs
  | _ => True
  end.

(** A step that draws no version number and sends no change notification,
    and whose open notifications carry version 0. *)
Definition quiet_step (st st' : LangServer * World) : Prop :=
  _version_counter st'.1 = _version_counter st.1
  /\ exists extra,
       sent st'.1 = (sent st.1 ++ extra)%list
       /\ change_versions extra = []
       /\ Forall (eq 0) (open_versions extra).

Definition quiet {A} (m : M A) : Prop := forall st, quiet_step st (m st).2.

(** Change notifications carry 0, 1, 2, ... and the counter holds the next
    number; open notifications carry 0. *)
Definition versions_in_step (s : LangServer) : Prop :=
  0 <= _version_counter s
  /\ change_versions (sent s) = seqZ 0 (_version_counter s)
  /\ Forall (eq 0) (open_versions (sent s)).

(** The item's stripped label, a blank line, the documentation. *)
Definition label_then_doc (item : CompletionItem) (doc : string) : string :=
  strip isspace (label item) +:+ newline +:+ newline +:+ doc.

(** The Tk index of line [l], column [c], as Tk writes it. *)
Definition tk_index (l c : Z) : string :=
  str_of_int l +:+ "." +:+ str_of_int c.

(** The value of a run of decimal digits read after [acc]. *)
Definition digits_value (acc : Z) (ds : list ascii) : Z :=
  fold_left (fun a c => 10 * a + Z.of_nat (default O (Ascii.is_nat c))) ds acc.

Definition is_digit (c : ascii) : Prop := is_Some (Ascii.is_nat c).

(** The table of [str.isspace] holds no decimal digit. *)
Definition digits_are_not_space : Prop :=
  forall c, is_digit c -> isspace c = false.

(** Tab [t] has a file path, as [on_new_tab] requires before it attaches
    a tab. *)
Definition has_path (heap : nat -> FileTab) (t : nat) : Prop :=
  is_Some (path (heap t)).

(** The open notification for tab [t] as the tabs are in [heap]: its URI,
    its language id, the whole text of its widget, version 0. *)
Definition open_notification (heap : nat -> FileTab) (t : nat) : Outgoing :=
  did_open {|
    uri := match get_uri (path (heap t)) with inr u => u | inl _ => "" end;
    languageId := langserver_language_id (heap t);
    text := textwidget_get (heap t) "1.0" "end - 1 char";
    version := 0;
  |}.

(** An event that breaks the protocol between client and plugin: a kind
    the plugin does not know, or a completion response whose request id is
    not pending. *)
Definition protocol_violation (s : LangServer) (ev : Event) : Prop :=
  match ev with
  | OtherEvent _ => True
  | Completion message_id _ => _completion_infos s !! message_id = None
  | _ => False
  end.

Definition handler_error_record : LogRecord :=
  {| levelno := ERROR; msg := "error while handling langserver event" |}.

(** [g] is the longest trailing run of word characters of [s]. *)
Definition longest_trailing_word_run (s g : string) : Prop :=
  (exists p, s = p +:+ g)
  /\ all_word g = true
  /\ forall p' g', s = p' +:+ g' -> all_word g' = true ->
       (String.length g' <= String.length g)%nat.

Fixpoint no_line_feed (s : string) : bool :=
  match s with
  | EmptyString => true
  | String c s' => negb (Ascii.eqb c LF) && no_line_feed s'
  end.

(** The candidate's filter text, else its insert text, else its label. *)
Definition filter_source (item : CompletionItem) : string :=
  or_str (filterText item) (or_str (insertText item) (label item)).

Definition sort_key (item : CompletionItem) : string :=
  or_str (sortText item) (label item).

(** The text before the cursor that the [Completion] branch reads. *)
Definition before_cursor (w : World) (info : InfoDict) : string :=
  textwidget_get (tabs_heap w (tab info))
    (cursor_pos info +:+ " linestart") (cursor_pos info).

End Notions.

(** *** Objects for the examples *)

(** A tab on [/proj/a.py] holding one line of text, the cursor behind it. *)
Definition demo_tab (line : string) : Lsp.FileTab :=
  {| Lsp.path := Some "/proj/a.py";
     Lsp.langserver_language_id := "python";
     Lsp.textwidget_get := fun _ _ => line;
     Lsp.textwidget_index := fun index => index |}.

Definition demo_id : Lsp.LangServerId := ("pyls", None, "/proj").

Definition demo_client (st : Lsp.ClientState) : Lsp.Client :=
  {| Lsp.state := st; Lsp.queued := []; Lsp.next_request_id := 0 |}.

Definition demo_process : Lsp.Popen :=
  {| Lsp.pid := 4242; Lsp.returncode := None; Lsp.kill_status := -9 |}.

(** A session at address 7, registered under its key. *)
Definition demo_session (st : Lsp.ClientState) : Lsp.LangServer :=
  Lsp.new_LangServer 7 demo_process demo_id (demo_client st).

(** A session object at address 3 with the same key as [demo_session]: an
    old session whose key was taken over. *)
Definition stale_session : Lsp.LangServer :=
  Lsp.new_LangServer 3 demo_process demo_id (demo_client Lsp.EXITED).

(** One edit, replacing the first three characters of line 1. *)
Definition demo_change : Lsp.ChangeInfo :=
  {| Lsp.start := "1.0"; Lsp.end_ := "1.3"; Lsp.new_text := "abc" |}.

(** Two tabs are attached, the server finishes its handshake, then each of
    the two tabs reports a change. *)
Definition demo_calls : list EditorCall :=
  [ on_open_tab 1; on_open_tab 2;
    on_run_stuff (Some [x00]) (inr (Lsp.NORMAL, [Lsp.Initialized "{}"]));
    on_send_change_events 1 [demo_change];
    on_send_change_events 2 [demo_change] ].

(** A pending completion request made with the cursor at [1.7], and a
    candidate with insert text [print]. *)
Definition pri_request : Lsp.InfoDict := {| Lsp.tab := 1; Lsp.cursor_pos := "1.7" |}.

Definition print_item : Lsp.CompletionItem :=
  {| Lsp.label := "print(value)"; Lsp.documentation := None;
     Lsp.insertText := Some "print"; Lsp.filterText := None;
     Lsp.sortText := None |}.

Definition pri_session : Lsp.LangServer :=
  Lsp.set_completion_infos {[ 3 := pri_request ]} (demo_session Lsp.NORMAL).

Definition demo_world (line : string) : Lsp.World :=
  {| Lsp.langservers := {[ demo_id := 7%nat ]};
     Lsp.tabs_heap := fun _ => demo_tab line;
     Lsp.generated := [];
     Lsp.scheduled := [] |}.

(** An item with label [foo(x)] and the given documentation. *)
Definition foo_item (doc : string) : Lsp.CompletionItem :=
  {| Lsp.label := "foo(x)"; Lsp.documentation := Some doc;
     Lsp.insertText := None; Lsp.filterText := None; Lsp.sortText := None |}.


From Stdlib Require Import Sorted.

(** ** Further notions: what the session's methods keep *)

Section SessionSteps.
Context {host : Host}.
Import Lsp.

(** A relation between the state before and after holds for every run of
    a method body. *)
Definition always_steps (R : relation (LangServer * World)) {A} (m : M A) : Prop :=
  forall st, R st (m st).2.

(** The object keeps its key and its identity, and the registry is either
    left as it is or loses the object's own entry. *)
Definition registry_step (st st' : LangServer * World) : Prop :=
  _id st'.1 = _id st.1
  /\ self_ref st'.1 = self_ref st.1
  /\ (langservers st'.2 = langservers st.2
      \/ (langservers st.2 !! _id st.1 = Some (self_ref st.1)
          /\ langservers st'.2 = delete (_id st.1) (langservers st.2))).

(** What was sent before is still there, in place, followed by what was
    sent since. *)
Definition sent_grows (st st' : LangServer * World) : Prop :=
  exists extra, sent st'.1 = (sent st.1 ++ extra)%list.

End SessionSteps.

Section SupervisorNotions.
Context {host : Host}.
Import Lsp.

(** The record that reports the end of the process: at level [INFO] after
    a clean shutdown, at level [ERROR] otherwise. *)
Definition termination_record (clean : bool) (exit_code : Z) : LogRecord :=
  if clean then
    {| levelno := INFO;
       msg := "langserver process terminated, " +:+ exit_code_string exit_code |}
  else
    {| levelno := ERROR;
       msg := "langserver process terminated unexpectedly, "
              +:+ exit_code_string exit_code |}.

(** The timers are as before. *)
Definition same_timers (st st' : LangServer * World) : Prop :=
  scheduled st'.2 = scheduled st.2.

End SupervisorNotions.

Section SortingNotions.
Import Lsp.

(** The candidates of [items] whose sort key is [k], in their order. *)
Definition with_key (k : string) (items : list CompletionItem) : list CompletionItem :=
  List.filter (fun item => String.eqb (sort_key item) k) items.

(** [x] comes no later than [y] by sort key. *)
Definition key_le (x y : CompletionItem) : Prop :=
  String.leb (sort_key x) (sort_key y) = true.

End SortingNotions.

(** ** [lsp.py]: more of the transports *)

Module TransportMore.
Import Transport.

(** The bytes a worker puts on the queue over [steps], in order, and
    whether it is alive afterwards; a worker that has exited puts
    nothing. *)
Fixpoint worker_puts (alive : bool) (steps : list WorkerStep) : list byte * bool :=
  match steps with
  | [] => ([], alive)
  | a :: steps' =>
      if alive then
        match a with
        | worker_put b =>
            let (bs, alive') := worker_puts true steps' in ((b ++ bs)%list, alive')
        | worker_exit => worker_puts false steps'
        end
      else ([], false)
  end.

(** The bytes put over a run of the transport. *)
Fixpoint all_puts (acts : list Action) (alive : bool) : list byte :=
  match acts with
  | [] => []
  | act_worker a :: acts' =>
      let (bs, alive') := worker_puts alive [a] in (bs ++ all_puts acts' alive')%list
  | act_read between :: acts' =>
      let (bs, alive') := worker_puts alive between in (bs ++ all_puts acts' alive')%list
  end.

(** The bytes that reads returned, in order; "no data" counts for none. *)
Definition read_data (results : list (option (list byte))) : list byte :=
  concat (omap id results).

(** What [self._sock.connect] does on one try. *)
Inductive ConnectOutcome :=
  | connect_ok
  | connect_refused        (* raises [ConnectionRefusedError] *)
  | connect_error.         (* raises anything else *)

(** How far the worker thread of a socket transport got. *)
Inductive WorkerEnd :=
  | worker_connecting      (* still in the first loop *)
  | worker_raised          (* an exception ended the thread *)
  | worker_waiting         (* blocked in [self._send_queue.get()] *)
  | worker_returned.       (* took the [None] and left the second loop *)

(** What the worker thread did: the messages logged at level [INFO], the
    number of [time.sleep(0.5)] calls, the arguments of [sendall] in order,
    how it ended and what it left on the queue. *)
Record WorkerTrace := {
  infos : list string;
  sleeps : nat;
  sendall : list (list byte);
  ending : WorkerEnd;
  untaken : list (option (list byte));
}.

(** The second loop of [_send_queue_to_socket]: [queue] is what
    [self._send_queue.get()] yields, in order, and [failing] the number
    of [sendall] calls that return before one raises, [None] when none
    raises.  The result holds the arguments of the [sendall] calls. *)
Fixpoint send_loop (failing : option nat) (queue : list (option (list byte)))
  : list (list byte) * WorkerEnd * list (option (list byte)) :=
  match queue with
  | [] => ([], worker_waiting, [])
  | None :: queue' => ([], worker_returned, queue')
  | Some bytez :: queue' =>
      match failing with
      | Some O => ([bytez], worker_raised, queue')
      | _ =>
          let '(sent, e, rest) := send_loop (Nat.pred <$> failing) queue' in
          (bytez :: sent, e, rest)
      end
  end.

(** [_send_queue_to_socket]: [attempts] is what the tries to connect do, in
    order. *)
Fixpoint _send_queue_to_socket (port : Z) (attempts : list ConnectOutcome)
    (failing : option nat) (queue : list (option (list byte))) : WorkerTrace :=
  match attempts with
  | [] => {| infos := []; sleeps := 0; sendall := []; ending := worker_connecting;
             untaken := queue |}
  | connect_ok :: _ =>
      let '(sent, e, rest) := send_loop failing queue in
      {| infos := ["connected to localhost:" +:+ str_of_int port];
         sleeps := 0; sendall := sent; ending := e; untaken := rest |}
  | connect_refused :: attempts' =>
      let t := _send_queue_to_socket port attempts' failing queue in
      {| infos := ("connecting to localhost:" +:+ str_of_int port
                   +:+ " failed, retrying soon") :: infos t;
         sleeps := S (sleeps t); sendall := sendall t; ending := ending t;
         untaken := untaken t |}
  | connect_error :: _ =>
      {| infos := []; sleeps := 0; sendall := []; ending := worker_raised;
         untaken := queue |}
  end.

(** [write] called with each of [chunks], in order. *)
Definition writes (chunks : list (list byte)) (self : LocalhostSocketIO)
  : LocalhostSocketIO :=
  fold_left (fun self bytez => LocalhostSocketIO_write bytez self) chunks self.

End TransportMore.

(** ** [run/no_terminal.py]: more of [Executor] *)

Module RunMore.
Import Run.

(** How a poll of the queue ends: it returns, having set the timer for the
    next poll [after_ms] milliseconds on, or an exception leaves it and no
    timer is set. *)
Inductive Polled :=
  | polled (self : Executor) (left_in_queue : list (string * string)) (after_ms : Z)
  | poll_raised (e : PyExc) (self : Executor) (left_in_queue : list (string * string)).

(** The [for iteration in range(...)] loop of
    [_poll_queue_and_put_to_textwidget].  [queue] holds the items the
    thread puts from now on, in order, and [ready] is the number of them
    that [self._queue.get(block=False)] finds during this call; after
    them, or when the thread has no more, [queue.Empty] ends the loop.
    What the call has not taken is returned with the result. *)
Fixpoint poll_loop (iterations : nat) (ready : nat) (queue : list (string * string))
    (self : Executor) : (PyExc + unit) * Executor * list (string * string) :=
  match iterations with
  | O => (inr tt, self, queue)
  | S iterations' =>
      match ready, queue with
      | S ready', (message_type, text) :: queue' =>
          match _handle_queued_item message_type text self with
          | inl e => (inl e, self, queue')
          | inr self' => poll_loop iterations' ready' queue' self'
          end
      | _, _ => (inr tt, self, queue)
      end
  end.

(** [_poll_queue_and_put_to_textwidget]; [timer] is the id that
    [self._textwidget.after] returns. *)
Definition _poll_queue_and_put_to_textwidget (timer : string) (ready : nat)
    (queue : list (string * string)) (self : Executor) : Polled :=
  match poll_loop 10 ready queue self with
  | (inl e, self', queue') => poll_raised e self' queue'
  | (inr _, self', queue') => polled (set_timeout_id (Some timer) self') queue' 50
  end.

(** Polls made one after the other, each with the timer id it gets and
    the number of items it finds: the delays with which the polls set
    their timers, in order, the exception that ended the last of them if
    one did, the executor and what is left of the queue. *)
Fixpoint polls (rounds : list (string * nat)) (queue : list (string * string))
    (self : Executor)
  : list Z * option PyExc * Executor * list (string * string) :=
  match rounds with
  | [] => ([], None, self, queue)
  | (timer, ready) :: rounds' =>
      match _poll_queue_and_put_to_textwidget timer ready queue self with
      | polled self' queue' after_ms =>
          let '(delays, e, self'', queue'') := polls rounds' queue' self' in
          (after_ms :: delays, e, self'', queue'')
      | poll_raised e self' queue' => ([], Some e, self', queue')
      end
  end.

(** The number of items that polls finding [readies] items take of
    [waiting] ones: each takes what it finds, but no more than ten. *)
Fixpoint handled (readies : list nat) (waiting : nat) : nat :=
  match readies with
  | [] => O
  | ready :: readies' =>
      let m := Nat.min 10 (Nat.min ready waiting) in
      (m + handled readies' (waiting - m))%nat
  end.

(** An item the thread can put: one of the output types, or the end
    marker. *)
Definition thread_item (item : string * string) : Prop :=
  output_type item \/ item = ("end", "").

(** The texts of the items that are not the end marker, in order. *)
Definition texts_of (items : list (string * string)) : list string :=
  map snd (List.filter (fun item => negb (String.eqb item.1 "end")) items).

(** The number of carriage return, line feed pairs that
    [replace_crlf] finds, scanning from the left. *)
Fixpoint count_crlf (s : string) : nat :=
  match s with
  | EmptyString => O
  | String c s' =>
      match s' with
      | String c' s'' =>
          if Ascii.eqb c "013"%char && Ascii.eqb c' LF
          then S (count_crlf s'')
          else count_crlf s'
      | EmptyString => O
      end
  end.

End RunMore.

(** ** [lsp.py]: the project root *)

(** The functions of [os.path] that [find_project_root] calls, as
    [posixpath] defines them on [str]. *)
Module PosixPath.
Import Py.

Definition sep : ascii := "/"%char.

(** [p[:p.rfind(sep) + 1]] *)
Fixpoint upto_last_sep (p : string) : string :=
  match p with
  | EmptyString => EmptyString
  | String c p' =>
      match upto_last_sep p' with
      | EmptyString => if Ascii.eqb c sep then String c EmptyString else EmptyString
      | head => String c head
      end
  end.

(** [head == sep*len(head)] *)
Fixpoint all_sep (head : string) : bool :=
  match head with
  | EmptyString => true
  | String c head' => Ascii.eqb c sep && all_sep head'
  end.

(** [head.rstrip(sep)] *)
Fixpoint rstrip_sep (head : string) : string :=
  match head with
  | EmptyString => EmptyString
  | String c head' =>
      match rstrip_sep head' with
      | EmptyString => if Ascii.eqb c sep then EmptyString else String c EmptyString
      | r => String c r
      end
  end.

(** [os.path.dirname] *)
Definition dirname (p : string) : string :=
  let head := upto_last_sep p in
  if truthy head && negb (all_sep head) then rstrip_sep head else head.

(** [path.endswith(sep)] *)
Fixpoint endswith_sep (path : string) : bool :=
  match path with
  | EmptyString => false
  | String c EmptyString => Ascii.eqb c sep
  | String _ path' => endswith_sep path'
  end.

(** [os.path.join(a, b)] *)
Definition join (a b : string) : string :=
  if startswith b (String sep EmptyString) then b
  else if negb (truthy a) || endswith_sep a then a +:+ b
  else a +:+ String sep EmptyString +:+ b.

(** [os.path.isabs] *)
Definition isabs (s : string) : bool := startswith s (String sep EmptyString).

End PosixPath.

Section ProjectRoot.
Import Py PosixPath.

(** [os.path.exists], the answers of the file system during the call. *)
Variable path_exists : string -> bool.

Definition _PROJECT_ROOT_THINGS : list string :=
  (["editorconfig"; ".git"]
   ++ flat_map (fun readme => map (fun extension => readme +:+ extension)
                                  [""; ".txt"; ".md"])
               ["README"; "readme"; "Readme"; "ReadMe"])%list.

(** The condition of the [if any(...)] in the loop, for the directory
    [path]. *)
Definition has_root_thing (path : string) : bool :=
  existsb (fun thing => path_exists (join path thing)) _PROJECT_ROOT_THINGS.

(** The [while True] loop of [find_project_root], run for at most [fuel]
    iterations; [None] when they are used up. *)
Fixpoint find_loop (fuel : nat) (project_file_path path : string) : option string :=
  match fuel with
  | O => None
  | S fuel' =>
      let parent := dirname path in
      if String.eqb path parent then Some (dirname project_file_path)
      else
        let path := parent in
        if has_root_thing path then Some path
        else find_loop fuel' project_file_path path
  end.

Definition find_project_root (fuel : nat) (project_file_path : string)
  : option (PyExc + string) :=
  if negb (isabs project_file_path) then Some (inl AssertionError)
  else
    match find_loop fuel project_file_path project_file_path with
    | None => None
    | Some root => Some (inr root)
    end.

(** [dirname] applied [k] times. *)
Definition ancestor (k : nat) (p : string) : string := Nat.iter k dirname p.

End ProjectRoot.

(** ** [lsp.py]: an iteration over a transport that can raise *)

Module Loop.
Import Py Lsp.

(** What the two calls on [self._io] do in one iteration.
    [self._io.write(...)] returns or raises (the [write] and [flush] of
    [SubprocessStdIO.write] on a closed pipe), and [self._io.read()]
    returns bytes, empty bytes or [None], or raises (the [raise e] of
    [LocalhostSocketIO.read]). *)
Record IO := {
  written : PyExc + unit;
  read : PyExc + option (list byte);
}.

(** A transport whose write returns and whose read returns
    [received_bytes]. *)
Definition returns (received_bytes : option (list byte)) : IO :=
  {| written := inr tt; read := inr received_bytes |}.

(** One of the two calls on the transport raises [e]. *)
Definition raises (io : IO) (e : PyExc) : Prop :=
  written io = inl e \/ (written io = inr tt /\ read io = inl e).

(** The object after [self._io.write(self._lsp_client.send())]: what the
    client had queued has been passed to [write]. *)
Definition flushed (s : LangServer) : LangServer :=
  let (data, c) := client_send (_lsp_client s) in
  set_io (_io s ++ [data]) (set_lsp_client c s).

Section WithHost.
Context {host : Host}.

(** [_run_stuff_once].  What [self._lsp_client.send()] hands over has been
    passed to [self._io.write] also when that raises.  [recv] is what
    [self._lsp_client.recv] gives for the bytes read. *)
Definition _run_stuff_once (io : IO)
    (recv : PyExc + ClientState * list Event) : M bool :=
  update_self flushed;;
  lift (written io);;
  received_bytes ← lift (read io);
  match received_bytes with
  | None => mret true
  | Some [] =>
      _ensure_langserver_process_quits_soon;;
      mret false
  | Some ((_ :: _) as received) =>
      log DEBUG ("got " +:+ str_of_int (Z.of_nat (length received))
                 +:+ " bytes of data");;
      lsp_events ←
        match recv with
        | inl _ =>
            log_exception "error while receiving lsp events";;
            mret []
        | inr (st, evs) =>
            update_self (fun s =>
              set_lsp_client {| state := st; queued := queued (_lsp_client s);
                                next_request_id := next_request_id (_lsp_client s) |}
                s);;
            mret evs
        end;
      dispatch lsp_events;;
      mret true
  end.

Definition run_stuff (io : IO) (recv : PyExc + ClientState * list Event)
  : M unit :=
  again ← _run_stuff_once io recv;
  if again : bool then update_world (add_scheduled (50, run_stuff_cb))
  else mret tt.

End WithHost.
End Loop.

(** ** [lsp.py]: [get_lang_server] *)

(** A filetype as [get_lang_server] reads it; an option that is not set
    is [None]. *)
Module FileType.
Record t := {
  name : string;
  langserver_command : option string;
  langserver_language_id : option string;
  langserver_port : option Z;
}.
End FileType.

Module Registry.
Import Py Lsp.

(** What [subprocess.Popen(...)] does. *)
Inductive PopenOutcome :=
  | popen_started (process : Popen)
  | popen_os_error               (* raises [OSError] or [CalledProcessError] *)
  | popen_raises (e : PyExc).    (* raises anything else *)

(** What a call of [get_lang_server] leaves behind: what it returns (an
    object by its identity) or raises, the object it made if it made one,
    the records it logged through [logging.getLogger(__name__)] and,
    when it made no object, through the logger it got for one, and what
    lives outside. *)
Record Outcome := {
  result : PyExc + option nat;
  created : option LangServer;
  logged : list LogRecord;
  world : World;
}.

Section WithHost.
Context {host : Host}.

(** [platform.system() == 'Windows'] *)
Variable windows : bool.
(** [shlex.split] *)
Variable shlex_split : string -> PyExc + list string.
(** [subprocess.Popen(command, shell=shell, ...)] *)
Variable popen : string + list string -> bool -> PopenOutcome.
(** The identity of the object [LangServer(...)] makes and the client
    [lsp.Client(...)] makes for it. *)
Variable ref : nat.
Variable client : Client.
(** What the transport does in the first [run_stuff] of a new object, and
    what the client makes of the bytes read. *)
Variable io : Loop.IO.
Variable recv : PyExc + ClientState * list Event.

Definition truthy_option (o : option string) : bool :=
  match o with
  | Some s => truthy s
  | None => false
  end.

Definition get_lang_server (filetype : FileType.t) (project_root : string)
    (w : World) : Outcome :=
  if negb (truthy_option (FileType.langserver_command filetype)
           && truthy_option (FileType.langserver_language_id filetype)) then
    {| result := inr None; created := None;
       logged := [{| levelno := INFO;
                     msg := "langserver not configured for filetype "
                            +:+ FileType.name filetype |}];
       world := w |}
  else
    (* the command is set here *)
    let langserver_command := default "" (FileType.langserver_command filetype) in
    let langserver_id : LangServerId :=
      (langserver_command, FileType.langserver_port filetype, project_root) in
    match langservers w !! langserver_id with
    | Some langserver =>
        {| result := inr (Some langserver); created := None; logged := [];
           world := w |}
    | None =>
        let command :=
          if windows then inr (inl langserver_command)
          else match shlex_split langserver_command with
               | inl e => inl e
               | inr words => inr (inr words)
               end in
        match command with
        | inl e => {| result := inl e; created := None; logged := []; world := w |}
        | inr command =>
            match popen command windows with
            | popen_os_error =>
                {| result := inr None; created := None;
                   logged :=
                     [{| levelno := ERROR;
                         msg := "cannot start langserver process with command '"
                                +:+ langserver_command +:+ "'" |}];
                   world := w |}
            | popen_raises e =>
                {| result := inl e; created := None; logged := []; world := w |}
            | popen_started process =>
                let log :=
                  [{| levelno := INFO;
                      msg := "Langserver process started with command '"
                             +:+ langserver_command +:+ "', PID "
                             +:+ str_of_int (pid process)
                             +:+ ", for project root '" +:+ project_root
                             +:+ "'" |}] in
                let langserver :=
                  set_log log (new_LangServer ref process langserver_id client) in
                match Loop.run_stuff io recv (langserver, w) with
                | (inl e, (langserver, w)) =>
                    {| result := inl e; created := Some langserver; logged := [];
                       world := w |}
                | (inr _, (langserver, w)) =>
                    {| result := inr (Some ref); created := Some langserver;
                       logged := [];
                       world :=
                         set_langservers (<[langserver_id := ref]> (langservers w)) w |}
                end
            end
        end
    end.

(** The filetype names a command and a language id. *)
Definition configured (filetype : FileType.t) : bool :=
  truthy_option (FileType.langserver_command filetype)
  && truthy_option (FileType.langserver_language_id filetype).

(** The key [get_lang_server] makes for a configured filetype. *)
Definition langserver_id_of (filetype : FileType.t) (project_root : string)
  : LangServerId :=
  (default "" (FileType.langserver_command filetype),
   FileType.langserver_port filetype, project_root).

(** [subprocess.Popen] is reached and starts [process]. *)
Definition starts (filetype : FileType.t) (process : Popen) : Prop :=
  let langserver_command := default "" (FileType.langserver_command filetype) in
  if windows then popen (inl langserver_command) true = popen_started process
  else exists words,
         shlex_split langserver_command = inr words
         /\ popen (inr words) false = popen_started process.

End WithHost.
End Registry.

(** ** [lsp.py]: [on_new_tab] *)

Module Plugin.
Import Py Lsp PosixPath Registry.

(** What [event.data_widget()] gives: a [tabs.FileTab], by reference and
    with its [filetype], or a tab of another kind. *)
Inductive Tab :=
  | file_tab (tab : nat) (filetype : option FileType.t)
  | other_tab.

(** The [LangServer] objects by identity, the tabs on which [on_new_tab]
    has made its three bindings, each with the object whose methods are
    bound, the records logged outside the objects, and what lives outside
    the objects. *)
Record Editor := {
  objects : gmap nat LangServer;
  bindings : list (nat * nat);
  plugin_log : list LogRecord;
  outside : World;
}.

(** What a call meets when it makes a new object: the identity of the
    object, the client made for it, what the transport does in its first
    [run_stuff] and what the client makes of the bytes read. *)
Record Fresh := {
  fresh_ref : nat;
  fresh_client : Client;
  first_io : Loop.IO;
  first_recv : PyExc + ClientState * list Event;
}.

(** A step that keeps the list of opened tabs and the tabs themselves. *)
Definition attachments_step (st st' : LangServer * World) : Prop :=
  tabs_opened st'.1 = tabs_opened st.1 /\ tabs_heap st'.2 = tabs_heap st.2.

Section WithHost.
Context {host : Host}.

Variable path_exists : string -> bool.
Variable shlex_split : string -> PyExc + list string.
Variable popen : string + list string -> bool -> PopenOutcome.

(** [on_new_tab] on a POSIX platform: [os.path] is [posixpath], as in
    [find_project_root] above, and [platform.system()] is not ['Windows'].
    The loop of [find_project_root] is given one iteration more than the
    path has characters.  The result is [None] when that loop is not done
    by then, or when the registry names an object that does not exist. *)
Definition on_new_tab (fresh : Fresh) (event : Tab) (ed : Editor)
  : option ((PyExc + unit) * Editor) :=
  match event with
  | other_tab => Some (inr tt, ed)
  | file_tab tab filetype =>
      match path (tabs_heap (outside ed) tab), filetype with
      | Some p, Some filetype =>
          match find_project_root path_exists (S (String.length p)) p with
          | None => None
          | Some (inl e) => Some (inl e, ed)
          | Some (inr project_root) =>
              let o := get_lang_server false shlex_split popen
                         (fresh_ref fresh) (fresh_client fresh)
                         (first_io fresh) (first_recv fresh)
                         filetype project_root (outside ed) in
              let ed :=
                {| objects := match created o with
                              | Some made => <[self_ref made := made]> (objects ed)
                              | None => objects ed
                              end;
                   bindings := bindings ed;
                   plugin_log := (plugin_log ed ++ logged o)%list;
                   outside := world o |} in
              match result o with
              | inl e => Some (inl e, ed)
              | inr None => Some (inr tt, ed)
              | inr (Some langserver) =>
                  match objects ed !! langserver with
                  | None => None
                  | Some self =>
                      let '(r, (self, w)) := open_tab tab (self, outside ed) in
                      Some (r, {| objects := <[langserver := self]> (objects ed);
                                  bindings := (bindings ed ++ [(tab, langserver)])%list;
                                  plugin_log := plugin_log ed;
                                  outside := w |})
                  end
              end
          end
      | _, _ => Some (inr tt, ed)
      end
  end.

End WithHost.
End Plugin.

(** *** More objects for the examples *)

(** A change event whose start is not a Tk index. *)
Definition bad_change : Lsp.ChangeInfo :=
  {| Lsp.start := "end"; Lsp.end_ := "1.3"; Lsp.new_text := "" |}.

(** [demo_session] with tabs 1 and 2 opened. *)
Definition two_tab_session : Lsp.LangServer :=
  Lsp.set_tabs_opened [1; 2]%nat (demo_session Lsp.NORMAL).

(** [demo_session] with tab 1 opened. *)
Definition one_tab_session : Lsp.LangServer :=
  Lsp.set_tabs_opened [1]%nat (demo_session Lsp.NORMAL).

(** Four candidates as a server sends them: [zebra] and [print(value)]
    have the sort text [b], [mango] the sort text [c], and [apple] is
    sorted by its label. *)
Definition tied_items : list Lsp.CompletionItem :=
  [ {| Lsp.label := "zebra"; Lsp.documentation := None;
       Lsp.insertText := None; Lsp.filterText := None;
       Lsp.sortText := Some "b" |};
    {| Lsp.label := "mango"; Lsp.documentation := None;
       Lsp.insertText := None; Lsp.filterText := None;
       Lsp.sortText := Some "c" |};
    {| Lsp.label := "print(value)"; Lsp.documentation := None;
       Lsp.insertText := Some "print"; Lsp.filterText := None;
       Lsp.sortText := Some "b" |};
    {| Lsp.label := "apple"; Lsp.documentation := None;
       Lsp.insertText := None; Lsp.filterText := None;
       Lsp.sortText := None |} ].

(** A chunk of output with two lines that end in carriage return, line
    feed. *)
Definition crlf_chunk : string :=
  "a" +:+ String "013"%char Py.newline +:+ "b" +:+ String "013"%char Py.newline.

(** What the thread of a command puts that writes ten lines, then a last
    one, and exits with status 0: thirteen items with the end marker. *)
Definition thirteen_items : list (string * string) :=
  (replicate 10 ("output", "line" +:+ Py.newline)
   ++ [("output", "last"); ("info", "The process completed successfully.");
       ("end", "")])%list.

(** A file system in which only [/home/me/proj] is under version
    control. *)
Definition demo_fs (p : string) : bool := String.eqb p "/home/me/proj/.git".

(** The filetype of Python files, served by [pyls] over its standard
    streams. *)
Definition python_filetype : FileType.t :=
  {| FileType.name := "Python";
     FileType.langserver_command := Some "pyls";
     FileType.langserver_language_id := Some "python";
     FileType.langserver_port := None |}.

(** A world in which no session is registered. *)
Definition fresh_world : Lsp.World :=
  {| Lsp.langservers := ∅;
     Lsp.tabs_heap := fun _ => demo_tab "";
     Lsp.generated := [];
     Lsp.scheduled := [] |}.

(** A platform that is not Windows, on which [pyls] starts; the first
    read of the new session finds its output closed. *)
Definition demo_get_lang_server : FileType.t -> string -> Lsp.World -> Registry.Outcome :=
  Registry.get_lang_server (host := ascii_host) false (fun command => inr [command])
    (fun _ _ => Registry.popen_started demo_process) 7
    (demo_client Lsp.NOT_INITIALIZED) (Loop.returns (Some []))
    (inr (Lsp.NOT_INITIALIZED, [])).

(** An editor in which no tab has come up yet. *)
Definition empty_editor : Plugin.Editor :=
  {| Plugin.objects := ∅; Plugin.bindings := []; Plugin.plugin_log := [];
     Plugin.outside := fresh_world |}.

(** What a call that makes the object at address [ref] meets: the first
    read brings no data. *)
Definition demo_fresh (ref : nat) : Plugin.Fresh :=
  {| Plugin.fresh_ref := ref;
     Plugin.fresh_client := demo_client Lsp.NOT_INITIALIZED;
     Plugin.first_io := Loop.returns None;
     Plugin.first_recv := inl Py.ValueError |}.
(** * Properties *)

(** ** Strings *)

Section StringFacts.

Lemma app_cons (c : ascii) (s1 s2 : string) :
  String c s1 +:+ s2 = String c (s1 +:+ s2).
Proof. reflexivity. Qed.

Lemma app_nil_l (s : string) : "" +:+ s = s.
Proof. reflexivity. Qed.

Lemma length_app (s1 s2 : string) :
  String.length (s1 +:+ s2) = (String.length s1 + String.length s2)%nat.
Proof.
  induction s1 as [|c s1 IH]; [done |].
  rewrite app_cons. simpl. by rewrite IH.
Qed.

Lemma app_nil_r (s : string) : s +:+ "" = s.
Proof. induction s as [|c s IH]; [done |]. by rewrite app_cons, IH. Qed.

Lemma app_assoc (s1 s2 s3 : string) : (s1 +:+ s2) +:+ s3 = s1 +:+ (s2 +:+ s3).
Proof. induction s1 as [|c s1 IH]; [done |]. by rewrite !app_cons, IH. Qed.

Lemma slice_from_app (p r : string) : slice_from (String.length p) (p +:+ r) = r.
Proof.
  induction p as [|c p IH]; [by destruct r |].
  rewrite app_cons. simpl. done.
Qed.

Lemma slice_from_0 (s : string) : slice_from 0 s = s.
Proof. by destruct s. Qed.

Lemma truthy_true (s : string) : truthy s = true <-> s <> "".
Proof. destruct s; simpl; split; congruence. Qed.

(** A string is not its own proper extension. *)
Lemma app_neq_self (p s : string) : p <> "" -> p +:+ s <> s.
Proof.
  intros Hp Heq. apply (f_equal String.length) in Heq.
  rewrite length_app in Heq. destruct p; [done | simpl in Heq; lia].
Qed.

End StringFacts.

(** ** Documentation of a completion item *)

Section CompletionDoc.
Context {host : Host}.
Import Lsp.

Lemma label_then_doc_longer item doc : label_then_doc item doc <> doc.
Proof.
  unfold label_then_doc. rewrite <- !app_assoc.
  apply app_neq_self. intros Heq. apply (f_equal String.length) in Heq.
  rewrite !length_app in Heq. simpl in Heq. lia.
Qed.

(** C9.  For an item whose documentation is a non-empty string, the result
    of [get_completion_item_doc] is the documentation itself exactly when
    the documentation starts with the stripped label, and otherwise it is
    the stripped label, a blank line and the documentation. *)
Theorem get_completion_item_doc_nonempty (item : CompletionItem) (doc : string) :
  documentation item = Some doc ->
  doc <> "" ->
  (get_completion_item_doc item = doc
   <-> startswith doc (strip isspace (label item)) = true)
  /\ (startswith doc (strip isspace (label item)) = false ->
      get_completion_item_doc item = label_then_doc item doc).
Proof.
  intros Hdoc Hne. apply truthy_true in Hne.
  unfold get_completion_item_doc. rewrite Hdoc, Hne.
  destruct (startswith doc (strip isspace (label item))) eqn:Hpre.
  - split; [split; done | discriminate].
  - split; [| done]. split; [| discriminate].
    intros Heq. exfalso. by apply (label_then_doc_longer item doc).
Qed.

End CompletionDoc.

(** The two examples of the documentation rule, on the 7-bit host. *)
Example doc_restating_label :
  Lsp.get_completion_item_doc (host := ascii_host) (foo_item "foo(x) does a thing")
  = "foo(x) does a thing".
Proof. reflexivity. Qed.

Example doc_without_label :
  Lsp.get_completion_item_doc (host := ascii_host) (foo_item "does a thing")
  = "foo(x)" +:+ newline +:+ newline +:+ "does a thing".
Proof. reflexivity. Qed.

Lemma get_completion_item_doc_nonempty_witness :
  (Lsp.get_completion_item_doc (host := ascii_host) (foo_item "foo(x) does a thing")
   = "foo(x) does a thing"
   <-> startswith "foo(x) does a thing" "foo(x)" = true)
  /\ (Lsp.get_completion_item_doc (host := ascii_host) (foo_item "does a thing")
      = "foo(x)" +:+ newline +:+ newline +:+ "does a thing").
Proof.
  split.
  - apply (get_completion_item_doc_nonempty (host := ascii_host)
             (foo_item "foo(x) does a thing") "foo(x) does a thing");
      [reflexivity | discriminate].
  - apply (get_completion_item_doc_nonempty (host := ascii_host)
             (foo_item "does a thing") "does a thing");
      [reflexivity | discriminate | reflexivity].
Defined.

(** ** Running method bodies *)

(** Unfolds the monad of method bodies down to pairs. *)
Ltac run_body :=
  unfold mbind, Lsp.M_bind, mret, Lsp.M_ret, Lsp.bind, Lsp.ret, Lsp.raise,
    Lsp.get_self, Lsp.get_world, Lsp.update_self, Lsp.update_world, Lsp.lift,
    Lsp.try_except in *;
  cbn [fst snd] in *.

(** ** Positions *)

Section Positions.
Context {host : Host}.
Import Lsp.

(** The keyword argument has no effect on the result. *)
Lemma position_tk2lsp_flag_unused (s : string) :
  _position_tk2lsp s true = _position_tk2lsp s false.
Proof.
  unfold _position_tk2lsp. reflexivity.
Qed.

End Positions.

(** *** Tk indexes that parse *)

Section Indexes.
Context {host : Host}.
Import Lsp.

Lemma chars_app (s1 s2 : string) : chars (s1 +:+ s2) = (chars s1 ++ chars s2)%list.
Proof.
  induction s1 as [|c s1 IH]; [done |].
  rewrite app_cons. unfold chars in *. cbn. by rewrite IH.
Qed.

Lemma text_of_chars (s : string) : text_of (chars s) = s.
Proof. apply string_of_list_ascii_of_string. Qed.

Lemma chars_text_of (cs : list ascii) : chars (text_of cs) = cs.
Proof. apply list_ascii_of_string_of_list_ascii. Qed.

Lemma pretty_N_char_digit (x : N) :
  (x < 10)%N -> Ascii.is_nat (pretty_N_char x) = Some (N.to_nat x).
Proof.
  intros Hx.
  assert (x = 0 \/ x = 1 \/ x = 2 \/ x = 3 \/ x = 4 \/ x = 5 \/ x = 6 \/ x = 7
          \/ x = 8 \/ x = 9)%N as Hcases by lia.
  repeat (destruct Hcases as [-> | Hcases]; [reflexivity |]).
  by subst x.
Qed.

Lemma digits_value_snoc acc ds c :
  digits_value acc (ds ++ [c])
  = 10 * digits_value acc ds + Z.of_nat (default O (Ascii.is_nat c)).
Proof. unfold digits_value. by rewrite fold_left_app. Qed.

(** The digits [pretty_N_go] writes in front of [s]. *)
Lemma pretty_N_go_digits (x : N) (s : string) :
  exists ds,
    chars (pretty_N_go x s) = (ds ++ chars s)%list
    /\ Forall is_digit ds
    /\ digits_value 0 ds = Z.of_N x
    /\ ((0 < x)%N -> ds <> []).
Proof.
  revert s. induction (N.lt_wf_0 x) as [x _ IH]; intros s.
  destruct (decide (x = 0)%N) as [-> | Hx].
  - exists []. rewrite pretty_N_go_0. repeat split; [constructor | lia].
  - rewrite pretty_N_go_step by lia.
    destruct (IH (x `div` 10)%N) with (s := String (pretty_N_char (x `mod` 10)) s)
      as (ds & Hds & Hdig & Hval & _).
    { apply N.div_lt; lia. }
    assert (x `mod` 10 < 10)%N as Hmod by (apply N.mod_lt; lia).
    exists (ds ++ [pretty_N_char (x `mod` 10)])%list.
    split; [| split; [| split]].
    + rewrite Hds. unfold chars. cbn. by rewrite <- List.app_assoc.
    + apply Forall_app. split; [done |]. constructor; [| done].
      unfold is_digit. by rewrite pretty_N_char_digit.
    + rewrite digits_value_snoc, Hval, pretty_N_char_digit by done. cbn.
      rewrite (N.div_mod x 10) at 3 by lia. lia.
    + intros _. by destruct ds.
Qed.


(** The characters [str_of_int] writes for a number that is not negative:
    decimal digits, at least one, whose value is the number. *)
Lemma str_of_int_digits (z : Z) :
  0 <= z ->
  exists ds,
    chars (str_of_int z) = ds
    /\ Forall is_digit ds
    /\ digits_value 0 ds = z
    /\ ds <> [].
Proof.
  intros Hz. unfold str_of_int, pretty, pretty_Z.
  destruct z as [|p|p]; [| | lia].
  - exists ["0"%char]. repeat split; [| done].
    constructor; [by eexists | done].
  - unfold pretty, pretty_positive, pretty, pretty_N.
    destruct (decide (N.pos p = 0)%N) as [Hp | _]; [lia |].
    destruct (pretty_N_go_digits (N.pos p) "") as (ds & Hds & Hdig & Hval & Hne).
    exists ds. cbn in Hds. rewrite List.app_nil_r in Hds.
    repeat split; [done | done | by rewrite Hval | apply Hne; lia].
Qed.

Lemma int_digits_all (ds : list ascii) (b : bool) (acc : Z) :
  Forall is_digit ds -> ds <> [] ->
  int_digits b acc ds = Some (digits_value acc ds).
Proof.
  intros Hds. revert b acc. induction Hds as [|c ds [d Hc] Hds IH]; intros b acc Hne.
  - done.
  - cbn [int_digits]. rewrite Hc. unfold digits_value. cbn [fold_left].
    rewrite Hc. cbn [default].
    destruct ds as [|c' ds']; [done |]. by apply IH.
Qed.

Lemma int_of_chars_digits (ds : list ascii) :
  Forall is_digit ds -> ds <> [] ->
  int_of_chars ds = Some (digits_value 0 ds).
Proof.
  intros Hds Hne. unfold int_of_chars.
  destruct ds as [|c ds']; [done |].
  assert (is_digit c) as [d Hc] by (by inversion Hds).
  destruct (Ascii.eqb_spec c "-") as [-> | Hminus]; [discriminate Hc |].
  destruct (Ascii.eqb_spec c "+") as [-> | Hplus]; [discriminate Hc |].
  transitivity (int_digits false 0 (c :: ds')); [| by apply int_digits_all].
  destruct c as [[] [] [] [] [] [] [] []]; try reflexivity; congruence.
Qed.

Lemma lstrip_digits (ds : list ascii) :
  digits_are_not_space -> Forall is_digit ds -> lstrip_chars isspace ds = ds.
Proof.
  intros Hsp Hds. destruct Hds as [|c ds Hc Hds]; [done |].
  cbn. by rewrite (Hsp c Hc).
Qed.

Lemma strip_digits (s : string) :
  digits_are_not_space -> Forall is_digit (chars s) -> strip isspace s = s.
Proof.
  intros Hsp Hds. unfold strip.
  rewrite (lstrip_digits _ Hsp Hds).
  rewrite (lstrip_digits _ Hsp) by (by apply Forall_rev).
  by rewrite rev_involutive, text_of_chars.
Qed.

Lemma int_str_of_int (z : Z) :
  digits_are_not_space -> 0 <= z -> int isspace (str_of_int z) = inr z.
Proof.
  intros Hsp Hz. destruct (str_of_int_digits z Hz) as (ds & Hds & Hdig & Hval & Hne).
  unfold int. rewrite strip_digits by (done || by rewrite Hds).
  rewrite Hds, int_of_chars_digits by done. by rewrite Hval.
Qed.

Lemma digit_not_dot (c : ascii) : is_digit c -> Ascii.eqb c "." = false.
Proof.
  intros [d Hc]. destruct (Ascii.eqb_spec c ".") as [-> |]; [discriminate Hc | done].
Qed.

Lemma split_go_digits (ds cur rest : list ascii) :
  Forall is_digit ds ->
  split_go "." cur (ds ++ rest) = split_go "." (rev ds ++ cur) rest.
Proof.
  intros Hds. revert cur. induction Hds as [|c ds Hc Hds IH]; intros cur; [done |].
  cbn. rewrite (digit_not_dot c Hc), IH, <- List.app_assoc. done.
Qed.

Lemma split_tk_index (l c : Z) :
  0 <= l -> 0 <= c ->
  split "." (tk_index l c) = [str_of_int l; str_of_int c].
Proof.
  intros Hl Hc.
  destruct (str_of_int_digits l Hl) as (dl & Hdl & Hdigl & _ & _).
  destruct (str_of_int_digits c Hc) as (dc & Hdc & Hdigc & _ & _).
  unfold split, tk_index. rewrite !chars_app, Hdl, Hdc.
  rewrite split_go_digits by done. cbn.
  rewrite List.app_nil_r, rev_involutive.
  rewrite <- (List.app_nil_r dc) at 1. rewrite split_go_digits by done.
  cbn. rewrite List.app_nil_r, rev_involutive.
  by rewrite <- Hdl, <- Hdc, !text_of_chars.
Qed.

(** For every line [l] and column [c] the index [l.c] is translated to
    line [l - 1] and character [c], with and without [next_column]. *)
Lemma position_tk2lsp_index (l c : Z) (next_column : bool) :
  digits_are_not_space -> 0 <= l -> 0 <= c ->
  _position_tk2lsp (tk_index l c) next_column
  = inr {| line := l - 1; character := c |}.
Proof.
  intros Hsp Hl Hc. unfold _position_tk2lsp.
  rewrite split_tk_index by done.
  by rewrite !int_str_of_int by done.
Qed.

End Indexes.

(** The 7-bit table of white space holds no digit, so every index [l.c]
    parses on that host. *)
Lemma ascii_digits_are_not_space : digits_are_not_space (host := ascii_host).
Proof.
  intros c [d Hc].
  destruct c as [[] [] [] [] [] [] [] []]; try discriminate Hc; reflexivity.
Qed.

Example position_of_index_12_40 :
  Lsp._position_tk2lsp (host := ascii_host) (tk_index 12 40) false
  = inr {| Lsp.line := 11; Lsp.character := 40 |}.
Proof.
  apply (position_tk2lsp_index (host := ascii_host));
    [apply ascii_digits_are_not_space | lia | lia].
Qed.

(** C2.  At the Tk index [3.5] asked for a completion request
    ([next_column=True]) the result is line 2 and character 5, the same as
    without the flag: the character offset is the column and not the
    column plus one. *)
Theorem position_tk2lsp_next_column_at_3_5 :
  Lsp._position_tk2lsp (host := ascii_host) "3.5" true
  = inr {| Lsp.line := 2; Lsp.character := 5 |}
  /\ Lsp._position_tk2lsp (host := ascii_host) "3.5" false
     = inr {| Lsp.line := 2; Lsp.character := 5 |}.
Proof. split; reflexivity. Qed.

(** ** The registry *)

Section Registry.
Context {host : Host}.
Import Lsp.

(** The registry after [_get_removed_from_langservers]. *)
Lemma get_removed_langservers (s : LangServer) (w : World) :
  langservers (_get_removed_from_langservers (s, w)).2.2
  = if _is_in_langservers s w then delete (_id s) (langservers w)
    else langservers w.
Proof.
  unfold _get_removed_from_langservers, log. run_body.
  by destruct (_is_in_langservers s w).
Qed.

(** C5.  Removing session [s] deletes the entry under its key when that
    entry is [s] itself; when another session object is registered under
    the key, or none, the registry is left as it is. *)
Theorem get_removed_only_own_entry (s : LangServer) (w : World) :
  let after := langservers (_get_removed_from_langservers (s, w)).2.2 in
  (langservers w !! _id s = Some (self_ref s) ->
     after = delete (_id s) (langservers w) /\ after !! _id s = None)
  /\ (forall other, other <> self_ref s ->
        langservers w !! _id s = Some other ->
        after = langservers w /\ after !! _id s = Some other)
  /\ (langservers w !! _id s = None -> after = langservers w).
Proof.
  cbv zeta. rewrite get_removed_langservers. unfold _is_in_langservers.
  split; [| split].
  - intros Hown. rewrite bool_decide_eq_true_2 by done.
    split; [done | apply lookup_delete_eq].
  - intros other Hother Hreg.
    rewrite bool_decide_eq_false_2 by congruence. done.
  - intros Hnone. rewrite bool_decide_eq_false_2 by congruence. done.
Qed.

End Registry.

(** ** Steps that draw no version number *)

Section Quiet.
Context {host : Host}.
Import Lsp.

(** A step is quiet once it keeps the counter and what was sent. *)
Lemma quiet_step_same st st' :
  _version_counter st'.1 = _version_counter st.1 ->
  sent st'.1 = sent st.1 ->
  quiet_step st st'.
Proof.
  intros Hc Hs. split; [done |]. exists [].
  rewrite List.app_nil_r. by repeat split.
Qed.

Lemma quiet_step_refl st : quiet_step st st.
Proof. by apply quiet_step_same. Qed.

Lemma quiet_step_trans st1 st2 st3 :
  quiet_step st1 st2 -> quiet_step st2 st3 -> quiet_step st1 st3.
Proof.
  intros [Hc1 (e1 & Hs1 & Hv1 & Ho1)] [Hc2 (e2 & Hs2 & Hv2 & Ho2)].
  split; [congruence |]. exists (e1 ++ e2)%list.
  rewrite Hs2, Hs1, <- List.app_assoc. split; [done |].
  unfold change_versions, open_versions in *. rewrite !omap_app.
  split; [by rewrite Hv1, Hv2 | by apply Forall_app].
Qed.

Lemma quiet_ret {A} (a : A) : quiet (mret a).
Proof. intros st. apply quiet_step_refl. Qed.

Lemma quiet_raise {A} (e : PyExc) : quiet (raise (A := A) e).
Proof. intros st. apply quiet_step_refl. Qed.

Lemma quiet_lift {A} (r : PyExc + A) : quiet (lift r).
Proof. intros st. apply quiet_step_refl. Qed.

Lemma quiet_get_self : quiet get_self.
Proof. intros st. apply quiet_step_refl. Qed.

Lemma quiet_get_world : quiet get_world.
Proof. intros st. apply quiet_step_refl. Qed.

Lemma quiet_bind {A B} (m : M A) (k : A -> M B) :
  quiet m -> (forall a, quiet (k a)) -> quiet (m ≫= k).
Proof.
  intros Hm Hk st. run_body. specialize (Hm st).
  destruct (m st) as [[e|a] st']; [done |].
  eapply quiet_step_trans; [exact Hm | apply Hk].
Qed.

Lemma quiet_try_except {A} (m handler : M A) :
  quiet m -> quiet handler -> quiet (try_except m handler).
Proof.
  intros Hm Hh st. run_body. specialize (Hm st).
  destruct (m st) as [[e|a] st']; [| done].
  eapply quiet_step_trans; [exact Hm | apply Hh].
Qed.

Lemma quiet_for_each {A} (xs : list A) (body : A -> M unit) :
  (forall x, quiet (body x)) -> quiet (for_each xs body).
Proof.
  intros Hbody. induction xs as [|x xs IH]; [apply (quiet_ret tt) |].
  apply (quiet_bind (body x)); [apply Hbody | intros _; exact IH].
Qed.

Lemma quiet_update_world (f : World -> World) : quiet (update_world f).
Proof. intros st. by apply quiet_step_same. Qed.

(** An update of the object that keeps the counter and what was sent. *)
Lemma quiet_update_self (f : LangServer -> LangServer) :
  (forall s, _version_counter (f s) = _version_counter s) ->
  (forall s, sent (f s) = sent s) ->
  quiet (update_self f).
Proof.
  intros Hc Hs [s w]. apply quiet_step_same; [apply Hc | apply Hs].
Qed.

Lemma quiet_log lv m : quiet (log lv m).
Proof. apply quiet_update_self; done. Qed.

Lemma quiet_call_client (m : Outgoing) :
  change_version m = None ->
  (forall v, open_version m = Some v -> v = 0) ->
  quiet (call_client m).
Proof.
  intros Hv Ho [s w]. unfold call_client. run_body. split; [done |].
  exists [m]. unfold sent. cbn. rewrite List.app_assoc. split; [done |].
  unfold change_versions, open_versions. cbn. rewrite Hv. split; [done |].
  destruct (open_version m) as [v|] eqn:Hov; [| done].
  rewrite (Ho v eq_refl). by constructor.
Qed.

Create HintDb quiet.
#[local] Hint Resolve quiet_get_self quiet_get_world quiet_update_world
  quiet_log quiet_lift : quiet.

(** Walks through a method body, one statement at a time; methods already
    shown quiet are taken from the hints. *)
Ltac quiet_body :=
  repeat first
    [ solve [eauto with quiet]
    | apply quiet_bind; [| intros ?]
    | apply (quiet_ret (A := unit))
    | apply quiet_ret
    | apply quiet_raise
    | apply quiet_for_each; intros ?
    | apply quiet_try_except
    | apply quiet_call_client; [done | cbn; intros ? [= <-]; done || done]
    | apply quiet_update_self; [done | done]
    | match goal with
      | |- quiet (match ?x with _ => _ end) => destruct x
      end ].

Lemma quiet_get_removed : quiet _get_removed_from_langservers.
Proof. unfold _get_removed_from_langservers. quiet_body. Qed.
#[local] Hint Resolve quiet_get_removed : quiet.

Lemma quiet_ensure_quits : quiet _ensure_langserver_process_quits_soon.
Proof. unfold _ensure_langserver_process_quits_soon. quiet_body. Qed.
#[local] Hint Resolve quiet_ensure_quits : quiet.

Lemma quiet_send_tab_opened t : quiet (_send_tab_opened_message t).
Proof. unfold _send_tab_opened_message. quiet_body. Qed.
#[local] Hint Resolve quiet_send_tab_opened : quiet.

Lemma quiet_handle_lsp_event ev : quiet (_handle_lsp_event ev).
Proof. unfold _handle_lsp_event. destruct ev; quiet_body. Qed.
#[local] Hint Resolve quiet_handle_lsp_event : quiet.

Lemma quiet_dispatch evs : quiet (dispatch evs).
Proof. unfold dispatch, log_exception. quiet_body. Qed.
#[local] Hint Resolve quiet_dispatch : quiet.

Lemma sent_flush (s : LangServer) :
  sent (let (data, c) := client_send (_lsp_client s) in
        set_io (_io s ++ [data]) (set_lsp_client c s)) = sent s.
Proof.
  unfold sent, client_send. cbn.
  by rewrite concat_app, List.app_nil_r; cbn; rewrite List.app_nil_r.
Qed.

Lemma quiet_run_stuff_once received recv : quiet (_run_stuff_once received recv).
Proof.
  unfold _run_stuff_once, log_exception.
  apply quiet_bind; [apply quiet_update_self; [done | apply sent_flush] |].
  intros _. quiet_body.
Qed.
#[local] Hint Resolve quiet_run_stuff_once : quiet.

Lemma quiet_run_stuff received recv : quiet (run_stuff received recv).
Proof. unfold run_stuff. quiet_body. Qed.

Lemma quiet_open_tab t : quiet (open_tab t).
Proof. unfold open_tab. quiet_body. Qed.

Lemma quiet_close_tab t : quiet (close_tab t).
Proof. unfold close_tab. quiet_body. Qed.

Lemma quiet_request_completions widget cursor :
  quiet (request_completions widget cursor).
Proof. unfold request_completions. quiet_body. Qed.

End Quiet.

(** ** The version counter *)

Section Versions.
Context {host : Host}.
Import Lsp.

Lemma seqZ_snoc (n : Z) : 0 <= n -> seqZ 0 (n + 1) = (seqZ 0 n ++ [n])%list.
Proof.
  intros Hn. rewrite seqZ_app by lia. f_equal.
Qed.

Lemma quiet_step_versions st st' :
  quiet_step st st' -> versions_in_step st.1 -> versions_in_step st'.1.
Proof.
  intros [Hc (extra & Hs & Hv & Ho)] (Hpos & Hch & Hop).
  unfold versions_in_step, change_versions, open_versions in *.
  rewrite Hc, Hs, !omap_app, Hv, List.app_nil_r.
  split; [done |]. split; [done |]. by apply Forall_app.
Qed.

(** A change event sent in state [NORMAL] for a tab with a path and
    positions that parse: one change notification is queued, it carries the
    number the counter held, and the counter moves on by one. *)
Lemma send_change_events_emits (s : LangServer) (w : World) master data p cs :
  state (_lsp_client s) = NORMAL ->
  path (tabs_heap w master) = Some p ->
  content_changes_of data = inr cs ->
  exists s',
    send_change_events master data (s, w) = (inr tt, (s', w))
    /\ sent s' = (sent s ++ [did_change ("file://" +:+ pathname2url (abspath p))
                              (_version_counter s) cs])%list
    /\ _version_counter s' = _version_counter s + 1.
Proof.
  intros Hst Hp Hcs. unfold send_change_events, call_client. run_body.
  destruct (decide (state (_lsp_client s) ≠ NORMAL)); [done |].
  cbn. rewrite Hp. cbn. rewrite Hcs.
  eexists. split; [reflexivity |]. split; [| done].
  unfold sent. cbn. by rewrite List.app_assoc.
Qed.

Lemma send_change_events_versions (s : LangServer) (w : World) master data :
  well_formed (on_send_change_events master data) ->
  versions_in_step s ->
  versions_in_step (send_change_events master data (s, w)).2.1.
Proof.
  intros [cs Hcs] Hinv.
  destruct (decide (state (_lsp_client s) = NORMAL)) as [Hst|Hst].
  - destruct (path (tabs_heap w master)) as [p|] eqn:Hp.
    + destruct (send_change_events_emits s w master data p cs Hst Hp Hcs)
        as (s' & -> & Hsent & Hc).
      destruct Hinv as (Hpos & Hch & Hop). cbn.
      unfold versions_in_step, change_versions, open_versions in *.
      rewrite Hsent, Hc, !omap_app, Hch. cbn.
      split; [lia |]. split; [by rewrite seqZ_snoc | by rewrite List.app_nil_r].
    + unfold send_change_events. run_body.
      destruct (decide (state (_lsp_client s) ≠ NORMAL)); [done |].
      cbn. rewrite Hp. done.
  - unfold send_change_events. run_body.
    destruct (decide (state (_lsp_client s) ≠ NORMAL)); [| done].
    apply (quiet_step_versions (s, w)); [| done]. apply quiet_log.
Qed.

Lemma editor_call_versions (c : EditorCall) (st : LangServer * World) :
  well_formed c ->
  versions_in_step st.1 ->
  versions_in_step (editor_call c st).2.1.
Proof.
  intros Hwf Hinv.
  destruct c as [t|t|widget cursor|master data|received recv| |heap];
    cbn [editor_call].
  - apply (quiet_step_versions st); [apply quiet_open_tab | done].
  - apply (quiet_step_versions st); [apply quiet_close_tab | done].
  - apply (quiet_step_versions st); [apply quiet_request_completions | done].
  - destruct st as [s w]. by apply send_change_events_versions.
  - apply (quiet_step_versions st); [apply quiet_run_stuff | done].
  - apply (quiet_step_versions st); [apply quiet_ensure_quits | done].
  - apply (quiet_step_versions st); [apply quiet_update_world | done].
Qed.

Lemma editor_calls_versions (cs : list EditorCall) (st : LangServer * World) :
  Forall well_formed cs ->
  versions_in_step st.1 ->
  versions_in_step (editor_calls cs st).2.1.
Proof.
  intros Hwf. revert st. induction Hwf as [|c cs Hc Hcs IH]; intros st Hinv.
  - done.
  - unfold editor_calls in *. cbn [for_each]. unfold bind at 1.
    pose proof (editor_call_versions c st Hc Hinv) as Hstep.
    unfold try_except at 1. unfold mret, M_ret, ret.
    destruct (editor_call c st) as [[e|[]] st']; by apply IH.
Qed.

Lemma new_LangServer_versions ref process id client :
  queued client = [] ->
  versions_in_step (new_LangServer ref process id client).
Proof.
  intros Hq. unfold versions_in_step, sent. cbn. rewrite Hq. by repeat split.
Qed.

(** The numbers sent so far: after callbacks whose change events all have
    positions that parse, the change notifications sent carry 0, 1, 2, ...
    in the order sent, the counter holds their number, and every open
    notification carries 0. *)
Lemma change_versions_so_far
    ref process id client (w : World) (calls : list EditorCall) :
  queued client = [] ->
  Forall well_formed calls ->
  let s0 := new_LangServer ref process id client in
  let s := (editor_calls calls (s0, w)).2.1 in
  _version_counter s0 = 0
  /\ change_versions (sent s)
     = seqZ 0 (Z.of_nat (length (change_versions (sent s))))
  /\ _version_counter s = Z.of_nat (length (change_versions (sent s)))
  /\ Forall (eq 0) (open_versions (sent s)).
Proof.
  intros Hq Hwf s0 s. split; [done |].
  destruct (editor_calls_versions calls (s0, w) Hwf
              (new_LangServer_versions ref process id client Hq))
    as (Hpos & Hch & Hop).
  fold s in Hpos, Hch, Hop.
  assert (Z.of_nat (length (change_versions (sent s))) = _version_counter s)
    as Hlen by (rewrite Hch, length_seqZ; lia).
  rewrite Hlen. by repeat split.
Qed.

(** C10, as the code has it.  A session starts with its counter at zero, and the
    counter is shared by all its documents.  After any callbacks of the
    editor and the timers whose change events all had positions that
    parse, a call of [send_change_events] in state [NORMAL], for whichever
    tab that has a path and with positions that parse, sends one change
    notification, and the version it carries is the number of change
    notifications sent before: 0 for the first, which is what every open
    notification carries, then 1, 2, ... *)
Theorem change_notification_carries_the_next_version
    ref process id client (w : World) (calls : list EditorCall)
    (master : nat) (data : list ChangeInfo) (p : string)
    (cs : list TextDocumentContentChangeEvent) :
  queued client = [] ->
  Forall well_formed calls ->
  let s0 := new_LangServer ref process id client in
  let st := (editor_calls calls (s0, w)).2 in
  state (_lsp_client st.1) = NORMAL ->
  path (tabs_heap st.2 master) = Some p ->
  content_changes_of data = inr cs ->
  let n := Z.of_nat (length (change_versions (sent st.1))) in
  _version_counter s0 = 0
  /\ change_versions (sent st.1) = seqZ 0 n
  /\ Forall (eq 0) (open_versions (sent st.1))
  /\ exists s',
       send_change_events master data st = (inr tt, (s', st.2))
       /\ sent s'
          = (sent st.1
             ++ [did_change ("file://" +:+ pathname2url (abspath p)) n cs])%list
       /\ change_versions (sent s') = seqZ 0 (n + 1).
Proof.
  intros Hq Hwf s0 st Hst Hp Hcs n.
  destruct (change_versions_so_far ref process id client w calls Hq Hwf)
    as (Hzero & Hch & Hcount & Hop).
  fold s0 in Hzero, Hch, Hcount, Hop. fold st in Hch, Hcount, Hop.
  fold n in Hch, Hcount.
  split; [exact Hzero |]. split; [exact Hch |]. split; [exact Hop |].
  destruct st as [s w'] eqn:Est. cbn [fst snd] in *.
  destruct (send_change_events_emits s w' master data p cs Hst Hp Hcs)
    as (s' & Hrun & Hsent & _).
  exists s'. split; [exact Hrun |]. rewrite Hsent, Hcount.
  split; [reflexivity |].
  unfold change_versions in *. rewrite omap_app, Hch. cbn.
  by rewrite seqZ_snoc by lia.
Qed.

End Versions.

(** ** Replay of the open notifications *)

Section Replay.
Context {host : Host}.
Import Lsp.



Lemma send_tab_opened_message_queues (s : LangServer) (w : World) (t : nat) :
  has_path (tabs_heap w) t ->
  _send_tab_opened_message t (s, w)
  = (inr tt, (set_lsp_client (client_call (open_notification (tabs_heap w) t)
                                (_lsp_client s)) s, w)).
Proof.
  intros [p Hp]. unfold _send_tab_opened_message, call_client, open_notification.
  run_body. rewrite Hp. reflexivity.
Qed.



End Replay.

(** ** Faults of the event handler *)

Section HandlerFaults.
Context {host : Host}.
Import Lsp.

(** The handler raises on a violation and changes nothing. *)
Lemma handle_violation_raises (s : LangServer) (w : World) (ev : Event) :
  protocol_violation s ev ->
  exists e, _handle_lsp_event ev (s, w) = (inl e, (s, w)).
Proof.
  destruct ev; cbn [protocol_violation]; intros Hv; try done.
  - exists KeyError. unfold _handle_lsp_event. run_body. by rewrite Hv.
  - by exists NotImplementedError.
Qed.

(** The loop over the events never raises: each fault is caught. *)
Lemma dispatch_returns (evs : list Event) (st : LangServer * World) :
  (dispatch evs st).1 = inr tt.
Proof.
  revert st. induction evs as [|ev evs IH]; intros st; [done |].
  unfold dispatch in *. cbn [for_each]. unfold bind at 1, try_except at 1.
  destruct (_handle_lsp_event ev st) as [[e|[]] st'].
  - unfold log_exception, log. run_body. apply IH.
  - apply IH.
Qed.

Lemma run_stuff_once_with_bytes_runs_again
    (b : byte) (bs : list byte) recv (st : LangServer * World) :
  (_run_stuff_once (Some (b :: bs)) recv st).1 = inr true.
Proof.
  unfold _run_stuff_once, log_exception, log. run_body.
  destruct recv as [e|[cs evs]]; cbn.
  - done.
  - match goal with
    | |- context [dispatch evs ?st'] =>
        pose proof (dispatch_returns evs st') as Hr;
        destruct (dispatch evs st') as [[?|?] ?]
    end; [discriminate | done].
Qed.

(** C1, as the code has it.  On an event of an unknown kind, and on a
    completion response whose request id is not pending, the handler raises
    and changes nothing; the dispatch loop records the fault at level
    [ERROR] and goes on with the events that follow; and the iteration asks
    to be run again, so the session is not torn down. *)
Theorem protocol_violation_logged_and_skipped
    (s : LangServer) (w : World) (ev : Event) (rest : list Event) :
  protocol_violation s ev ->
  (exists e, _handle_lsp_event ev (s, w) = (inl e, (s, w)))
  /\ dispatch (ev :: rest) (s, w)
     = dispatch rest (set_log (_log s ++ [handler_error_record]) s, w)
  /\ (forall b bs cs before st,
        (_run_stuff_once (Some (b :: bs)) (inr (cs, (before ++ ev :: rest)%list)) st).1
        = inr true).
Proof.
  intros Hv. pose proof (handle_violation_raises s w ev Hv) as [e He].
  split; [by exists e |]. split.
  - unfold dispatch. cbn [for_each]. unfold bind at 1, try_except at 1.
    rewrite He. reflexivity.
  - intros. apply run_stuff_once_with_bytes_runs_again.
Qed.

End HandlerFaults.

(** C1, counterexample to a fatal violation.  A registered session receives an event
    of an unknown kind, a completion response with no pending request and
    a log message, in one read.  The iteration asks to be run again and a
    timer is set for it, the session is still the registry's entry, its
    process was not killed, and the log message behind the two faults was
    handled. *)
Lemma violation_does_not_tear_down :
  let events := [ Lsp.OtherEvent "WorkDoneProgressCreate";
                  Lsp.Completion 5 [];
                  Lsp.LogMessage Lsp.MT_INFO "hello" ] in
  let r := Lsp.run_stuff (host := ascii_host) (Some [x00])
             (inr (Lsp.NORMAL, events))
             (demo_session Lsp.NORMAL, demo_world "") in
  protocol_violation (demo_session Lsp.NORMAL) (Lsp.OtherEvent "WorkDoneProgressCreate")
  /\ protocol_violation (demo_session Lsp.NORMAL) (Lsp.Completion 5 [])
  /\ r.1 = inr tt
  /\ Lsp.scheduled r.2.2 = [(50, Lsp.run_stuff_cb)]
  /\ Lsp._is_in_langservers r.2.1 r.2.2 = true
  /\ Lsp.returncode (Lsp._process r.2.1) = None
  /\ Lsp._log r.2.1
     = [ {| Lsp.levelno := Lsp.DEBUG; Lsp.msg := "got 1 bytes of data" |};
         handler_error_record; handler_error_record;
         {| Lsp.levelno := Lsp.INFO; Lsp.msg := "message from langserver: hello" |} ].
Proof. vm_compute. by repeat split. Qed.

(** ** Completion responses *)

Section Completions.
Context {host : Host}.
Import Lsp.

Lemma fullmatch_group1_unfold (s : string) :
  fullmatch_group1 s
  = if all_word s then Some s
    else match s with
         | EmptyString => None
         | String c s' => if Ascii.eqb c LF then None else fullmatch_group1 s'
         end.
Proof. by destruct s. Qed.

Lemma suffix_length (s p g : string) :
  s = p +:+ g -> (String.length g <= String.length s)%nat.
Proof. intros ->. rewrite length_app. lia. Qed.

(** On a text without line feed the pattern matches, and group 1 is the
    longest trailing run of word characters. *)
Lemma fullmatch_group1_longest (s : string) :
  no_line_feed s = true ->
  exists g, fullmatch_group1 s = Some g /\ longest_trailing_word_run s g.
Proof.
  induction s as [|c s IH]; intros Hlf.
  - exists "". split; [done |]. split; [by exists "" |]. split; [done |].
    intros p' g' Heq _. apply (suffix_length _ _ _ Heq).
  - rewrite fullmatch_group1_unfold.
    destruct (all_word (String c s)) eqn:Hall.
    + exists (String c s). split; [done |]. split; [by exists "" |].
      split; [done |]. intros p' g' Heq _. apply (suffix_length _ _ _ Heq).
    + cbn [no_line_feed] in Hlf. apply andb_prop in Hlf as [Hc Hs].
      apply negb_true_iff in Hc. rewrite Hc.
      destruct (IH Hs) as (g & Hg & (p & Hp) & Hw & Hmax).
      exists g. split; [done |]. split; [| split; [done |]].
      * exists (String c p). by rewrite app_cons, <- Hp.
      * intros p' g' Heq Hg'. destruct p' as [|c' p'].
        -- rewrite app_nil_l in Heq. subst g'. congruence.
        -- rewrite app_cons in Heq. injection Heq as _ Heq.
           by apply (Hmax p' g').
Qed.

Lemma insert_by_key_perm {A} (key : A -> string) (x : A) (l : list A) :
  insert_by_key key x l ≡ₚ x :: l.
Proof.
  induction l as [|y l IH]; [done |]. cbn.
  destruct (String.leb (key x) (key y)); [done |].
  rewrite IH. apply Permutation_swap.
Qed.

Lemma sorted_perm {A} (key : A -> string) (xs : list A) : sorted key xs ≡ₚ xs.
Proof.
  induction xs as [|x xs IH]; [done |]. unfold sorted in *. cbn.
  by rewrite insert_by_key_perm, IH.
Qed.

(** C8.  A completion response arrives for a pending request and the text
    before the cursor has no line feed.  With [typed] the longest trailing
    run of word characters of that text, the response is delivered, and
    the filter texts of its candidates, in the order produced, are the
    candidates' filter text, else insert text, else label, without their
    first [length typed] characters.  A candidate whose text starts with
    [typed] gets the remainder as its filter text. *)
Theorem completion_filter_text
    (s : LangServer) (w : World) (message_id : Z)
    (items : list CompletionItem) (info : InfoDict) :
  _completion_infos s !! message_id = Some info ->
  no_line_feed (before_cursor w info) = true ->
  exists typed s' entries,
    longest_trailing_word_run (before_cursor w info) typed
    /\ _handle_lsp_event (Completion message_id items) (s, w)
       = (inr tt,
          (s', add_generated (tab info, "<<AutoCompletionResponse>>",
                              (info, entries)) w))
    /\ map Response.filter_text entries
       = map (fun item => slice_from (String.length typed) (filter_source item))
           (sorted sort_key items)
    /\ (forall item rest,
          item ∈ items ->
          filter_source item = typed +:+ rest ->
          exists entry,
            entry ∈ entries
            /\ Response.display_text entry = label item
            /\ Response.filter_text entry = rest).
Proof.
  intros Hinfo Hlf.
  destruct (fullmatch_group1_longest _ Hlf) as (typed & Hmatch & Hrun).
  unfold before_cursor in Hmatch.
  exists typed. eexists. eexists. split; [exact Hrun |]. split; [| split].
  - unfold _handle_lsp_event. run_body. rewrite Hinfo. cbn.
    rewrite Hmatch. reflexivity.
  - rewrite map_map. reflexivity.
  - intros item rest Hin Hsrc.
    eexists. split; [| split].
    + apply list_elem_of_fmap. exists item. split; [reflexivity |].
      by rewrite sorted_perm.
    + reflexivity.
    + cbn. fold (filter_source item). rewrite Hsrc. apply slice_from_app.
Qed.

End Completions.

(** The example of the filter text: [pri] is typed and a candidate has
    insert text [print]. *)
Example filter_text_of_print :
  Lsp.generated
    (Lsp._handle_lsp_event (host := ascii_host) (Lsp.Completion 3 [print_item])
       (pri_session, demo_world "x = pri")).2.2
  = [ (1%nat, "<<AutoCompletionResponse>>",
       (pri_request,
        [ {| Lsp.Response.display_text := "print(value)";
             Lsp.Response.replace_start := "1.7 - 3 chars";
             Lsp.Response.replace_end := "1.7";
             Lsp.Response.replace_text := "print";
             Lsp.Response.filter_text := "nt";
             Lsp.Response.documentation := "print(value)" |} ])) ].
Proof. vm_compute. reflexivity. Qed.

(** ** The transports *)

Section Transports.
Import Transport.

(** The name [file] is bound neither in the module nor among the
    builtins. *)
Lemma file_is_unbound : lookup_name "file" = inl (NameError "file").
Proof. reflexivity. Qed.

(** C3.  The reader loop fails in its first iteration, whatever the child
    writes: evaluating the name [file] raises [NameError], no byte is read
    from the child's standard output and nothing is put on the queue.  The
    thread is then dead with an empty queue, which [read()] reports as the
    peer having closed. *)
Theorem stdout_to_read_queue_raises (fuel : nat) (self : SubprocessStdIO) :
  _stdout_to_read_queue (S fuel) self = (raised (NameError "file"), self)
  /\ (forall between,
        (SubprocessStdIO_read between
           (after_worker
              (_stdout_to_read_queue (S fuel)
                 {| _read_queue := []; _worker_thread_alive := true |}))).1
        = Some []).
Proof.
  split; [reflexivity |]. intros between. cbn.
  unfold SubprocessStdIO_read. cbn.
  assert (forall acts, _worker_thread_alive
            (fold_left worker_step acts
               {| _read_queue := []; _worker_thread_alive := false |}) = false)
    as Hdead by (induction acts; [done | apply IHacts]).
  by rewrite Hdead.
Qed.

(** A thread that is not alive does nothing. *)
Lemma worker_step_dead (self : SubprocessStdIO) (a : WorkerStep) :
  _worker_thread_alive self = false -> worker_step self a = self.
Proof. intros Hd. unfold worker_step. by rewrite Hd. Qed.

Lemma worker_steps_dead (self : SubprocessStdIO) (acts : list WorkerStep) :
  _worker_thread_alive self = false -> fold_left worker_step acts self = self.
Proof.
  intros Hd. induction acts as [|a acts IH]; [done |].
  cbn. by rewrite worker_step_dead.
Qed.

Lemma read_dead (q : list (list byte)) (between : list WorkerStep) :
  SubprocessStdIO_read between
    {| _read_queue := q; _worker_thread_alive := false |}
  = (Some (concat q), {| _read_queue := []; _worker_thread_alive := false |}).
Proof.
  unfold SubprocessStdIO_read. cbn. by rewrite worker_steps_dead.
Qed.

(** A [read()] that returns empty bytes leaves a dead worker behind. *)
Lemma read_closed_dead (between : list WorkerStep) (t t' : SubprocessStdIO) :
  SubprocessStdIO_read between t = (Some [], t') ->
  _worker_thread_alive t' = false.
Proof.
  unfold SubprocessStdIO_read. intros [= Hres <-].
  destruct (_worker_thread_alive (fold_left _ _ _)); [| done].
  cbn in Hres. destruct (bool_decide _) eqn:Hb; [done |].
  injection Hres as Hbuf. apply bool_decide_eq_false in Hb. done.
Qed.

(** With a dead worker no read gives "no data", and from the second read
    on every read gives empty bytes. *)
Lemma run_dead (acts : list Action) (q : list (list byte)) :
  let results := (run acts {| _read_queue := q; _worker_thread_alive := false |}).1 in
  Forall (fun r => r <> None) results
  /\ Forall (eq (Some [])) (tail results)
  /\ (q = [] -> Forall (eq (Some [])) results).
Proof.
  revert q. induction acts as [|[a|between] acts IH]; intros q; cbn zeta.
  - by repeat split.
  - cbn [run]. rewrite worker_step_dead by done. apply IH.
  - cbn [run]. rewrite read_dead.
    destruct (IH []) as (Hsome & _ & Hall). specialize (Hall eq_refl).
    destruct (run acts _) as [rs t'] eqn:Hrun. cbn in *.
    split; [by constructor |]. split; [done |].
    intros ->. by constructor.
Qed.

(** C4, as the code has it.  For the queue-backed subprocess transport:
    once [read()] has returned empty bytes, however the worker's steps and
    later reads fall, no later read gives "no data", and from the second
    later read on each gives empty bytes again.  For the other two:
    [read()] gives what the operating system's read gives, so empty bytes
    each time that gives empty bytes.  No transport remembers that it has
    reported the closure. *)
Theorem closure_is_reported_again :
  (forall between t t' acts,
      SubprocessStdIO_read between t = (Some [], t') ->
      let results := (run acts t').1 in
      Forall (fun r => r <> None) results
      /\ Forall (eq (Some [])) (tail results))
  /\ (forall stdout_read,
        stdout_read = Some [] ->
        SubprocessStdIO_read_nonblocking stdout_read = Some [])
  /\ (forall p self,
        (LocalhostSocketIO_read p true (inr []) self).1 = inr (Some [])).
Proof.
  split; [| split].
  - intros between t t' acts Hread.
    pose proof (read_closed_dead between t t' Hread) as Hdead.
    destruct t' as [q alive]. cbn in Hdead. subst alive.
    destruct (run_dead acts q) as (H1 & H2 & _). by split.
  - by intros ? ->.
  - intros p self. reflexivity.
Qed.

End Transports.

(** C4, counterexample to closure being reported once.  The worker thread has exited and the
    queue is empty: [read()] returns empty bytes, and the next [read()]
    returns empty bytes again.  The same holds for the socket when [recv]
    gives empty bytes on both calls. *)
Lemma closure_reported_twice :
  let t0 := {| Transport._read_queue := [];
               Transport._worker_thread_alive := false |} in
  let r1 := Transport.SubprocessStdIO_read [] t0 in
  let r2 := Transport.SubprocessStdIO_read [] r1.2 in
  let p := {| Transport.system_is_Windows := false; Transport.ENOTCONN := 107 |} in
  let k0 := {| Transport._send_queue := []; Transport._worker_alive := true |} in
  let k1 := Transport.LocalhostSocketIO_read p true (inr []) k0 in
  let k2 := Transport.LocalhostSocketIO_read p true (inr []) k1.2 in
  r1.1 = Some [] /\ r2.1 = Some []
  /\ k1.1 = inr (Some []) /\ k2.1 = inr (Some []).
Proof. by repeat split. Qed.

(** ** Stopping a running command *)

Section Stop.
Import Run.

Lemma inserted_app (xs ys : list GuiCall) :
  inserted (xs ++ ys) = (inserted xs ++ inserted ys)%list.
Proof. unfold inserted. apply omap_app. Qed.

(** An item of one of the three output types is inserted at the end; the
    calls that follow the insertion add no text. *)
Lemma handle_output_item (item : string * string) (self : Executor) :
  output_type item ->
  exists self',
    _handle_queued_item item.1 item.2 self = inr self'
    /\ inserted (calls self') = (inserted (calls self) ++ [item.2])%list.
Proof.
  destruct item as [mt text]. unfold output_type. cbn [fst snd].
  intros [-> | [-> | ->]]; unfold _handle_queued_item; cbn;
    destruct (scrolled_to_end self (calls self));
    eexists; (split; [reflexivity |]); cbn;
    rewrite ?inserted_app; cbn; by rewrite ?List.app_nil_r.
Qed.

Lemma handle_end_item (self : Executor) :
  exists self',
    _handle_queued_item "end" "" self = inr self'
    /\ inserted (calls self') = inserted (calls self).
Proof.
  unfold _handle_queued_item. cbn. eexists. split; [reflexivity |].
  cbn. rewrite !inserted_app. cbn. by rewrite !List.app_nil_r.
Qed.

Lemma output_type_not_end (item : string * string) :
  output_type item -> String.eqb item.1 "end" = false.
Proof. by intros [-> | [-> | ->]]. Qed.

(** The drain loop on items of the output types followed by the end
    marker: it leaves the loop at the marker, and the texts inserted are
    those of the items other than the kill message, in queue order. *)
Lemma consume_queue_drains (win32 : bool) (pre post : list (string * string))
    (self : Executor) :
  Forall output_type pre ->
  exists self',
    consume_queue (if win32 then 1 else - SIGKILL)
      (pre ++ ("end", "") :: post) self = drained self' post
    /\ inserted (calls self')
       = (inserted (calls self) ++ appended_texts win32 pre)%list.
Proof.
  intros Hpre. revert self. induction Hpre as [|item pre Hitem Hpre IH]; intros self.
  - cbn [app consume_queue]. cbn.
    destruct (handle_end_item self) as (self' & Hrun & Hins).
    unfold _handle_queued_item in Hrun. cbn in Hrun.
    unfold _handle_queued_item. cbn. injection Hrun as <-.
    eexists. split; [reflexivity |].
    rewrite Hins. unfold appended_texts. cbn. by rewrite List.app_nil_r.
  - destruct item as [mt text]. cbn [app consume_queue].
    pose proof (output_type_not_end _ Hitem) as Hne. cbn [fst] in Hne.
    unfold appended_texts. cbn [List.filter]. unfold pair_eqb at 1.
    unfold kill_message at 1. cbn [fst snd]. rewrite Hne. cbn [negb].
    rewrite andb_true_r.
    destruct (String.eqb mt "error" && String.eqb text _) eqn:Hskip.
    + destruct (IH self) as (self' & Hrun & Hins).
      exists self'. rewrite Hrun. split; [done |].
      rewrite Hins. done.
    + destruct (handle_output_item (mt, text) self Hitem) as (self1 & Hrun1 & Hins1).
      cbn [fst snd] in Hrun1. rewrite Hrun1.
      destruct (IH self1) as (self' & Hrun & Hins).
      exists self'. rewrite Hrun. split; [done |].
      rewrite Hins, Hins1. cbn [negb map snd].
      by rewrite <- List.app_assoc.
Qed.

(** What the thread puts for a process that started: items of the output
    types, then the end marker. *)
Lemma thread_target_items (command : string) (chunks : list string) (status : Z) :
  exists items,
    _thread_target command (ran chunks status) = (items ++ [("end", "")])%list
    /\ Forall output_type items.
Proof.
  exists (("info", command +:+ newline)
          :: map (fun text => ("output", replace_crlf text)) chunks
          ++ [ if status =? 0 then ("info", "The process completed successfully.")
               else ("error", "The process failed with status "
                              +:+ str_of_int status +:+ ".") ])%list.
  split.
  - unfold _thread_target. cbn. by rewrite <- List.app_assoc.
  - constructor; [by left |]. apply Forall_app. split.
    + apply List.Forall_forall. intros item Hin.
      apply in_map_iff in Hin as (text & <- & _). right. by left.
    + constructor; [| done]. destruct (status =? 0); [by left | by right; right].
Qed.

(** What is still to come from a live thread ends with the end marker and
    holds items of the output types before it. *)
Lemma incoming_shape (command : string) (chunks : list string) (status : Z)
    (consumed incoming : list (string * string)) :
  _thread_target command (ran chunks status) = (consumed ++ incoming)%list ->
  incoming <> [] ->
  exists pre, incoming = (pre ++ [("end", "")])%list /\ Forall output_type pre.
Proof.
  intros Hsplit Hne.
  destruct (thread_target_items command chunks status) as (items & Hitems & Htypes).
  destruct (exists_last Hne) as (pre & last & ->).
  rewrite Hitems, List.app_assoc in Hsplit.
  apply app_inj_tail in Hsplit as [Hpre <-].
  exists pre. split; [done |].
  rewrite Hpre in Htypes. by apply Forall_app in Htypes as [_ ?].
Qed.

Lemma appended_texts_end (win32 : bool) (pre : list (string * string)) :
  appended_texts win32 (pre ++ [("end", "")]) = appended_texts win32 pre.
Proof.
  unfold appended_texts. rewrite List.filter_app.
  cbn [List.filter fst]. change (String.eqb "end" "end") with true.
  rewrite andb_false_r. by rewrite List.app_nil_r.
Qed.

(** C7, as the code has it.  A command runs, [stop] is called with
    [quitting=False] and the kill goes through.  Whatever part of the
    thread's items is still to come, [stop] returns, and what it appends is
    the text of every such item in queue order, the kill message and the
    end marker left out, and then [Killed.], which is the last text
    appended. *)
Theorem stop_drains_then_killed
    (win32 : bool) (self : Executor) (pid : Z)
    (command : string) (chunks : list string) (status : Z)
    (consumed incoming : list (string * string)) :
  _shell_process self = Some pid ->
  _thread_alive self = Some true ->
  _thread_target command (ran chunks status) = (consumed ++ incoming)%list ->
  incoming <> [] ->
  exists self',
    stop win32 false no_exception incoming self = stop_returned self'
    /\ inserted (calls self')
       = (inserted (calls self) ++ appended_texts win32 incoming ++ ["Killed."])%list
    /\ last (inserted (calls self')) = Some "Killed.".
Proof.
  intros Hproc Halive Hsplit Hne.
  destruct (incoming_shape _ _ _ _ _ Hsplit Hne) as (pre & -> & Hpre).
  rewrite appended_texts_end.
  set (self0 := match _timeout_id self with
                | Some id => set_timeout_id None (call (after_cancel id) self)
                | None => self
                end).
  assert (_shell_process self0 = Some pid /\ _thread_alive self0 = Some true
          /\ inserted (calls self0) = inserted (calls self)) as (Hp0 & Ha0 & Hi0).
  { subst self0. destruct (_timeout_id self); cbn; [| done].
    rewrite inserted_app. cbn. by rewrite List.app_nil_r. }
  destruct (consume_queue_drains win32 pre [] self0 Hpre) as (self1 & Hdrain & Hins1).
  destruct (handle_output_item ("error", "Killed.") (set_thread_alive (Some false) self1))
    as (self2 & Hkilled & Hins2); [by right; right |].
  cbn [fst snd] in Hkilled.
  exists (call (event_generate "<<FileSystemChanged>>") self2).
  assert (inserted (calls (call (event_generate "<<FileSystemChanged>>") self2))
          = (inserted (calls self) ++ appended_texts win32 pre ++ ["Killed."])%list)
    as Hfinal.
  { cbn [calls call set_thread_alive snd] in *.
    rewrite inserted_app, Hins2, Hins1, Hi0. cbn.
    by rewrite List.app_nil_r, <- List.app_assoc. }
  split; [| split; [exact Hfinal |]].
  - unfold stop. fold self0. rewrite Hp0, Ha0.
    change (pre ++ [("end", "")])%list with (pre ++ ("end", "") :: [])%list.
    rewrite Hdrain, Hkilled. reflexivity.
  - rewrite Hfinal, !List.app_assoc. apply last_snoc.
Qed.

End Stop.

(** C7, counterexample to every queued item being appended.  The process printed one line and was
    killed on a POSIX system: the thread queues the line, the message of
    the failed status and the end marker.  [stop] appends the line and
    [Killed.]; the queued status message is not appended. *)
Lemma kill_message_is_not_appended :
  let incoming := [ ("output", "hello" +:+ newline);
                    ("error", "The process failed with status -9.");
                    ("end", "") ] in
  Run._thread_target "prog" (Run.ran ["hello" +:+ newline] (-9))
  = (("info", "prog" +:+ newline) :: incoming)
  /\ exists self',
       Run.stop false false Run.no_exception incoming Run.running_executor
       = Run.stop_returned self'
       /\ Run.inserted (Run.calls self') = ["hello" +:+ newline; "Killed."]
       /\ ~ In "The process failed with status -9." (Run.inserted (Run.calls self')).
Proof.
  split; [reflexivity |]. eexists. split; [reflexivity |].
  split; [reflexivity |]. cbn.
  intros [H | [H | H]]; [discriminate H | discriminate H | exact H].
Qed.

(** ** The statements at concrete inputs *)

Lemma get_removed_only_own_entry_witness :
  Lsp.langservers
    (Lsp._get_removed_from_langservers
       (demo_session Lsp.NORMAL, demo_world "")).2.2 !! demo_id = None
  /\ Lsp.langservers
       (Lsp._get_removed_from_langservers
          (stale_session, demo_world "")).2.2 !! demo_id = Some 7%nat.
Proof.
  split.
  - destruct (get_removed_only_own_entry
                (demo_session Lsp.NORMAL) (demo_world "")) as (Hown & _ & _).
    apply Hown. vm_compute. reflexivity.
  - destruct (get_removed_only_own_entry
                stale_session (demo_world "")) as (_ & Hother & _).
    apply (Hother 7%nat); [discriminate | vm_compute; reflexivity].
Defined.

Example demo_calls_versions :
  let s := (editor_calls (host := ascii_host) demo_calls
              (demo_session Lsp.NOT_INITIALIZED, demo_world "abc")).2.1 in
  change_versions (sent s) = [0; 1]
  /\ open_versions (sent s) = [0; 0]
  /\ Lsp._version_counter s = 2.
Proof. vm_compute. by repeat split. Qed.

(** C10, counterexample to the first change notification carrying 0 and
    to every call carrying the next integer.  A new session in state
    [NORMAL] gets a change event whose start is not a Tk index and then one
    that parses: the number 0 is used up by the first, and the first
    change notification sent carries 1.  And a call made before the
    handshake is done sends no notification at all. *)
Lemma first_change_notification_carries_1 :
  let unparsable :=
    {| Lsp.start := "end"; Lsp.end_ := "1.3"; Lsp.new_text := "" |} in
  let s := (editor_calls (host := ascii_host)
              [ on_send_change_events 1 [unparsable];
                on_send_change_events 1 [demo_change] ]
              (demo_session Lsp.NORMAL, demo_world "abc")).2.1 in
  let early := (Lsp.send_change_events (host := ascii_host) 1 [demo_change]
                  (demo_session Lsp.NOT_INITIALIZED, demo_world "abc")).2.1 in
  change_versions (sent s) = [1]
  /\ ~ (exists rest, change_versions (sent s) = 0 :: rest)
  /\ sent early = [].
Proof.
  vm_compute. split; [reflexivity |]. split; [| reflexivity].
  intros [rest Hrest]. discriminate Hrest.
Qed.

Lemma change_notification_carries_the_next_version_witness :
  let st := (editor_calls (host := ascii_host) demo_calls
               (demo_session Lsp.NOT_INITIALIZED, demo_world "abc")).2 in
  let n := Z.of_nat (length (change_versions (sent st.1))) in
  Lsp._version_counter (demo_session Lsp.NOT_INITIALIZED) = 0
  /\ change_versions (sent st.1) = seqZ 0 n
  /\ Forall (eq 0) (open_versions (sent st.1))
  /\ exists s',
       Lsp.send_change_events (host := ascii_host) 2 [demo_change] st
       = (inr tt, (s', st.2))
       /\ sent s'
          = (sent st.1
             ++ [Lsp.did_change "file:///proj/a.py" n
                   [{| Lsp.range_start := {| Lsp.line := 0; Lsp.character := 0 |};
                       Lsp.range_end := {| Lsp.line := 0; Lsp.character := 3 |};
                       Lsp.change_text := "abc" |}]])%list
       /\ change_versions (sent s') = seqZ 0 (n + 1).
Proof.
  apply (change_notification_carries_the_next_version (host := ascii_host)
           7%nat demo_process demo_id (demo_client Lsp.NOT_INITIALIZED)
           (demo_world "abc") demo_calls 2%nat [demo_change] "/proj/a.py").
  - reflexivity.
  - repeat constructor; eexists; vm_compute; reflexivity.
  - vm_compute. reflexivity.
  - vm_compute. reflexivity.
  - vm_compute. reflexivity.
Defined.


Example demo_open_notification :
  open_notification (host := ascii_host) (fun _ => demo_tab "print(1)") 1
  = Lsp.did_open {| Lsp.uri := "file:///proj/a.py"; Lsp.languageId := "python";
                    Lsp.text := "print(1)"; Lsp.version := 0 |}.
Proof. reflexivity. Qed.

Lemma protocol_violation_logged_and_skipped_witness :
  let s := demo_session Lsp.NORMAL in
  let w := demo_world "" in
  let ev := Lsp.OtherEvent "WorkDoneProgressCreate" in
  let rest := [Lsp.LogMessage Lsp.MT_INFO "hello"] in
  (exists e, Lsp._handle_lsp_event (host := ascii_host) ev (s, w) = (inl e, (s, w)))
  /\ Lsp.dispatch (host := ascii_host) (ev :: rest) (s, w)
     = Lsp.dispatch (host := ascii_host) rest
         (Lsp.set_log (Lsp._log s ++ [handler_error_record]) s, w)
  /\ (forall b bs cs before st,
        (Lsp._run_stuff_once (host := ascii_host) (Some (b :: bs))
           (inr (cs, (before ++ ev :: rest)%list)) st).1 = inr true).
Proof.
  apply (protocol_violation_logged_and_skipped (host := ascii_host)
           (demo_session Lsp.NORMAL) (demo_world "")
           (Lsp.OtherEvent "WorkDoneProgressCreate")
           [Lsp.LogMessage Lsp.MT_INFO "hello"]).
  exact I.
Defined.

Lemma completion_filter_text_witness :
  exists typed s' entries,
    longest_trailing_word_run (host := ascii_host)
      (before_cursor (demo_world "x = pri") pri_request) typed
    /\ Lsp._handle_lsp_event (host := ascii_host) (Lsp.Completion 3 [print_item])
         (pri_session, demo_world "x = pri")
       = (inr tt,
          (s', Lsp.add_generated (1%nat, "<<AutoCompletionResponse>>",
                                  (pri_request, entries)) (demo_world "x = pri")))
    /\ map Lsp.Response.filter_text entries
       = map (fun item => slice_from (String.length typed) (filter_source item))
           (sorted sort_key [print_item])
    /\ (forall item rest,
          item ∈ [print_item] ->
          filter_source item = typed +:+ rest ->
          exists entry,
            entry ∈ entries
            /\ Lsp.Response.display_text entry = Lsp.label item
            /\ Lsp.Response.filter_text entry = rest).
Proof.
  apply (completion_filter_text (host := ascii_host) pri_session
           (demo_world "x = pri") 3 [print_item] pri_request).
  - vm_compute. reflexivity.
  - reflexivity.
Defined.

Lemma closure_is_reported_again_witness :
  let t0 := {| Transport._read_queue := [];
               Transport._worker_thread_alive := false |} in
  let acts := [ Transport.act_read []; Transport.act_worker Transport.worker_exit;
                Transport.act_read [] ] in
  Forall (fun r => r <> None) (Transport.run acts t0).1
  /\ Forall (eq (Some [])) (tail (Transport.run acts t0).1).
Proof.
  destruct closure_is_reported_again as (Hqueue & _ & _).
  apply (Hqueue [] {| Transport._read_queue := [];
                      Transport._worker_thread_alive := false |}).
  reflexivity.
Defined.

Lemma stop_drains_then_killed_witness :
  let incoming := [ ("output", "hello" +:+ newline);
                    ("error", "The process failed with status -9.");
                    ("end", "") ] in
  exists self',
    Run.stop false false Run.no_exception incoming Run.running_executor
    = Run.stop_returned self'
    /\ Run.inserted (Run.calls self')
       = (Run.inserted (Run.calls Run.running_executor)
          ++ Run.appended_texts false incoming ++ ["Killed."])%list
    /\ last (Run.inserted (Run.calls self')) = Some "Killed.".
Proof.
  apply (stop_drains_then_killed false Run.running_executor 4711 "prog"
           ["hello" +:+ newline] (-9) [("info", "prog" +:+ newline)]).
  - reflexivity.
  - reflexivity.
  - reflexivity.
  - discriminate.
Defined.

(** * Further properties of the session *)

(** ** A small logic of steps *)

Section StepLogic.
Context {host : Host}.
Import Lsp.
Variable R : relation (LangServer * World).
Hypothesis R_refl : forall st, R st st.
Hypothesis R_trans : forall st1 st2 st3, R st1 st2 -> R st2 st3 -> R st1 st3.

Lemma steps_ret {A} (a : A) : always_steps R (mret a).
Proof. intros st. apply R_refl. Qed.

Lemma steps_raise {A} (e : PyExc) : always_steps R (raise (A := A) e).
Proof. intros st. apply R_refl. Qed.

Lemma steps_lift {A} (r : PyExc + A) : always_steps R (lift r).
Proof. intros st. apply R_refl. Qed.

Lemma steps_get_self : always_steps R get_self.
Proof. intros st. apply R_refl. Qed.

Lemma steps_get_world : always_steps R get_world.
Proof. intros st. apply R_refl. Qed.

Lemma steps_bind {A B} (m : M A) (k : A -> M B) :
  always_steps R m -> (forall a, always_steps R (k a)) -> always_steps R (m ≫= k).
Proof.
  intros Hm Hk st. run_body. specialize (Hm st).
  destruct (m st) as [[e|a] st']; [done |].
  eapply R_trans; [exact Hm | apply Hk].
Qed.

Lemma steps_try_except {A} (m handler : M A) :
  always_steps R m -> always_steps R handler -> always_steps R (try_except m handler).
Proof.
  intros Hm Hh st. run_body. specialize (Hm st).
  destruct (m st) as [[e|a] st']; [| done].
  eapply R_trans; [exact Hm | apply Hh].
Qed.

Lemma steps_for_each {A} (xs : list A) (body : A -> M unit) :
  (forall x, always_steps R (body x)) -> always_steps R (for_each xs body).
Proof.
  intros Hbody. induction xs as [|x xs IH]; [apply (steps_ret tt) |].
  apply (steps_bind (body x)); [apply Hbody | intros _; exact IH].
Qed.

Lemma steps_update_self (f : LangServer -> LangServer) :
  (forall s w, R (s, w) (f s, w)) -> always_steps R (update_self f).
Proof. intros Hf [s w]. apply Hf. Qed.

Lemma steps_update_world (f : World -> World) :
  (forall s w, R (s, w) (s, f w)) -> always_steps R (update_world f).
Proof. intros Hf [s w]. apply Hf. Qed.

End StepLogic.

(** Walks through a method body; [refl] and [trans] are the proofs that the
    relation is a preorder, [atom] settles an update of the object or of
    the world. *)
Ltac steps_body refl trans atom :=
  repeat first
    [ solve [eauto with steps]
    | apply (steps_bind _ trans); [| intros ?]
    | apply (steps_ret _ refl)
    | apply (steps_raise _ refl)
    | apply (steps_lift _ refl)
    | apply (steps_get_self _ refl)
    | apply (steps_get_world _ refl)
    | apply (steps_for_each _ refl trans); intros ?
    | apply (steps_try_except _ trans)
    | apply steps_update_self; solve [atom]
    | apply steps_update_world; solve [atom]
    | match goal with
      | |- always_steps _ (match ?x with _ => _ end) => destruct x
      end ].

Create HintDb steps.

(** ** The registry under the session's methods *)

Section RegistrySteps.
Context {host : Host}.
Import Lsp.

Lemma registry_step_refl st : registry_step st st.
Proof. split; [done |]. split; [done |]. by left. Qed.

Lemma registry_step_trans st1 st2 st3 :
  registry_step st1 st2 -> registry_step st2 st3 -> registry_step st1 st3.
Proof.
  intros (Hid1 & Href1 & H1) (Hid2 & Href2 & H2).
  split; [congruence |]. split; [congruence |].
  destruct H1 as [H1 | [Hown1 H1]], H2 as [H2 | [Hown2 H2]].
  - left. congruence.
  - right. rewrite H1, Hid1, Href1 in Hown2. rewrite H1, Hid1 in H2. by split.
  - right. split; [done |]. congruence.
  - exfalso. rewrite H1, Hid1, lookup_delete_eq in Hown2. discriminate.
Qed.

Ltac registry_atom :=
  intros; split; [reflexivity |]; split; [reflexivity |]; left; reflexivity.

Ltac registry_body :=
  steps_body registry_step_refl registry_step_trans registry_atom.

Lemma registry_log lv m : always_steps registry_step (log lv m).
Proof. unfold log. registry_body. Qed.
#[local] Hint Resolve registry_log : steps.

Lemma registry_get_removed : always_steps registry_step _get_removed_from_langservers.
Proof.
  intros [s w]. unfold _get_removed_from_langservers, log. run_body.
  destruct (_is_in_langservers s w) eqn:Hin; [| apply registry_step_refl].
  cbn. split; [done |]. split; [done |]. right.
  unfold _is_in_langservers in Hin. by apply bool_decide_eq_true in Hin.
Qed.
#[local] Hint Resolve registry_get_removed : steps.

Lemma registry_ensure_quits :
  always_steps registry_step _ensure_langserver_process_quits_soon.
Proof. unfold _ensure_langserver_process_quits_soon. registry_body. Qed.
#[local] Hint Resolve registry_ensure_quits : steps.

Lemma registry_send_tab_opened t : always_steps registry_step (_send_tab_opened_message t).
Proof. unfold _send_tab_opened_message, call_client. registry_body. Qed.
#[local] Hint Resolve registry_send_tab_opened : steps.

Lemma registry_handle_lsp_event ev : always_steps registry_step (_handle_lsp_event ev).
Proof. unfold _handle_lsp_event, call_client. destruct ev; registry_body. Qed.
#[local] Hint Resolve registry_handle_lsp_event : steps.

Lemma registry_dispatch evs : always_steps registry_step (dispatch evs).
Proof. unfold dispatch, log_exception. registry_body. Qed.
#[local] Hint Resolve registry_dispatch : steps.

Lemma registry_run_stuff_once received recv :
  always_steps registry_step (_run_stuff_once received recv).
Proof. unfold _run_stuff_once, log_exception. registry_body. Qed.
#[local] Hint Resolve registry_run_stuff_once : steps.

Lemma registry_editor_call c : always_steps registry_step (editor_call c).
Proof.
  destruct c; cbn [editor_call];
    unfold open_tab, close_tab, request_completions, send_change_events,
      run_stuff, call_client;
    registry_body.
Qed.
#[local] Hint Resolve registry_editor_call : steps.

Lemma registry_editor_calls cs : always_steps registry_step (editor_calls cs).
Proof. unfold editor_calls. registry_body. Qed.

End RegistrySteps.

Section RegistryUntouched.
Context {host : Host}.
Import Lsp.

(** X1.  Whatever callbacks run on a session, in any order, the registry
    keeps every entry under another key, keeps the entry under the
    session's key when that is another session object, and is never given
    an entry by the session: the only change a session makes is to delete
    its own entry. *)
Theorem session_only_deletes_own_entry
    (calls : list EditorCall) (s : LangServer) (w : World) :
  let after := langservers (editor_calls calls (s, w)).2.2 in
  (forall k, k <> _id s -> after !! k = langservers w !! k)
  /\ (forall other, other <> self_ref s ->
        langservers w !! _id s = Some other -> after !! _id s = Some other)
  /\ (langservers w !! _id s = None -> after !! _id s = None)
  /\ (after = langservers w \/ after = delete (_id s) (langservers w)).
Proof.
  cbv zeta. destruct (registry_editor_calls calls (s, w)) as (_ & _ & Hreg).
  cbn [fst snd] in Hreg.
  destruct Hreg as [-> | [Hown ->]].
  - repeat split; try done. by left.
  - split; [| split; [| split]].
    + intros k Hk. by rewrite lookup_delete_ne.
    + intros other Hother Hreg. congruence.
    + intros Hnone. congruence.
    + by right.
Qed.

End RegistryUntouched.

(** ** What was sent stays sent *)

Section SentGrows.
Context {host : Host}.
Import Lsp.

Lemma sent_grows_refl st : sent_grows st st.
Proof. exists []. by rewrite List.app_nil_r. Qed.

Lemma sent_grows_trans st1 st2 st3 :
  sent_grows st1 st2 -> sent_grows st2 st3 -> sent_grows st1 st3.
Proof.
  intros [e1 H1] [e2 H2]. exists (e1 ++ e2)%list.
  by rewrite H2, H1, List.app_assoc.
Qed.

Lemma sent_grows_same (s s' : LangServer) (w w' : World) :
  sent s' = sent s -> sent_grows (s, w) (s', w').
Proof. intros Hs. exists []. cbn. by rewrite Hs, List.app_nil_r. Qed.

Ltac grows_atom :=
  intros; first
    [ apply sent_grows_same; first [reflexivity | apply sent_flush]
    | eexists; unfold sent; cbn; rewrite List.app_assoc; reflexivity ].

Ltac grows_body := steps_body sent_grows_refl sent_grows_trans grows_atom.

Lemma grows_log lv m : always_steps sent_grows (log lv m).
Proof. unfold log. grows_body. Qed.
#[local] Hint Resolve grows_log : steps.

Lemma grows_call_client m : always_steps sent_grows (call_client m).
Proof. unfold call_client. grows_body. Qed.
#[local] Hint Resolve grows_call_client : steps.

Lemma grows_get_removed : always_steps sent_grows _get_removed_from_langservers.
Proof. unfold _get_removed_from_langservers. grows_body. Qed.
#[local] Hint Resolve grows_get_removed : steps.

Lemma grows_ensure_quits :
  always_steps sent_grows _ensure_langserver_process_quits_soon.
Proof. unfold _ensure_langserver_process_quits_soon. grows_body. Qed.
#[local] Hint Resolve grows_ensure_quits : steps.

Lemma grows_send_tab_opened t : always_steps sent_grows (_send_tab_opened_message t).
Proof. unfold _send_tab_opened_message. grows_body. Qed.
#[local] Hint Resolve grows_send_tab_opened : steps.

Lemma grows_handle_lsp_event ev : always_steps sent_grows (_handle_lsp_event ev).
Proof. unfold _handle_lsp_event. destruct ev; grows_body. Qed.
#[local] Hint Resolve grows_handle_lsp_event : steps.

Lemma grows_dispatch evs : always_steps sent_grows (dispatch evs).
Proof. unfold dispatch, log_exception. grows_body. Qed.
#[local] Hint Resolve grows_dispatch : steps.

Lemma grows_run_stuff_once received recv :
  always_steps sent_grows (_run_stuff_once received recv).
Proof. unfold _run_stuff_once, log_exception. grows_body. Qed.
#[local] Hint Resolve grows_run_stuff_once : steps.

Lemma grows_editor_call c : always_steps sent_grows (editor_call c).
Proof.
  destruct c; cbn [editor_call];
    unfold open_tab, close_tab, request_completions, send_change_events,
      run_stuff;
    grows_body.
Qed.
#[local] Hint Resolve grows_editor_call : steps.

(** X2.  Whatever callbacks run on a session, the messages it has handed
    to its client so far stay as they are and in their order, whether they
    are still queued or already written to the transport; later messages
    come behind them.  Nothing that was to be sent is dropped or
    reordered. *)
Theorem sent_messages_are_kept
    (calls : list EditorCall) (s : LangServer) (w : World) :
  exists later,
    sent (editor_calls calls (s, w)).2.1 = (sent s ++ later)%list.
Proof.
  assert (always_steps sent_grows (editor_calls calls)) as Hsteps
    by (unfold editor_calls; grows_body).
  exact (Hsteps (s, w)).
Qed.

End SentGrows.

(** ** Completion requests *)

Section CompletionRequests.
Context {host : Host}.
Import Lsp.

(** X3.  A completion request made while the client is not in state
    [NORMAL] is refused: a warning is logged, no request is handed to the
    client, the table of pending requests and everything outside the
    object stay as they are. *)
Theorem request_completions_refused
    (s : LangServer) (w : World) (widget : nat) (cursor : string) :
  state (_lsp_client s) <> NORMAL ->
  exists s',
    request_completions widget cursor (s, w) = (inr tt, (s', w))
    /\ _lsp_client s' = _lsp_client s
    /\ sent s' = sent s
    /\ _completion_infos s' = _completion_infos s
    /\ exists record, _log s' = (_log s ++ [record])%list
                      /\ levelno record = WARNING.
Proof.
  intros Hst. unfold request_completions, log. run_body.
  destruct (decide (state (_lsp_client s) ≠ NORMAL)); [| done].
  eexists. split; [reflexivity |]. repeat split. by eexists.
Qed.

Lemma request_completions_accepted
    (s : LangServer) (w : World) (widget : nat) (cursor p : string)
    (pos : Position) :
  state (_lsp_client s) = NORMAL ->
  path (tabs_heap w widget) = Some p ->
  _position_tk2lsp cursor true = inr pos ->
  _completion_infos s !! next_request_id (_lsp_client s) = None ->
  request_completions widget cursor (s, w)
  = (inr tt,
     (set_completion_infos
        (<[next_request_id (_lsp_client s)
           := {| tab := widget; cursor_pos := cursor |}]> (_completion_infos s))
        (set_lsp_client
           (client_call (completions (next_request_id (_lsp_client s))
                           ("file://" +:+ pathname2url (abspath p)) pos)
              (_lsp_client s)) s), w)).
Proof.
  intros Hst Hp Hpos Hfresh. unfold request_completions, call_client. run_body.
  destruct (decide (state (_lsp_client s) ≠ NORMAL)); [done |].
  cbn. rewrite Hp. cbn. rewrite Hpos. cbn. rewrite Hfresh. reflexivity.
Qed.

(** X4.  A completion request accepted in state [NORMAL] and the response
    that answers it: the request goes out with the client's next id, the
    tab's URI and the translated cursor position, and the tab and cursor
    are kept under that id; the response with that id takes the entry out
    again, so the table of pending requests is as before, and generates
    one [<<AutoCompletionResponse>>] on the requesting tab with the cursor
    it asked at and one entry per candidate.  The entry is used up: a
    second response with the same id is a fault. *)
Theorem completion_request_then_response
    (s : LangServer) (w : World) (widget : nat) (cursor p : string)
    (pos : Position) (items : list CompletionItem) :
  state (_lsp_client s) = NORMAL ->
  path (tabs_heap w widget) = Some p ->
  _position_tk2lsp cursor true = inr pos ->
  _completion_infos s !! next_request_id (_lsp_client s) = None ->
  no_line_feed (textwidget_get (tabs_heap w widget)
                  (cursor +:+ " linestart") cursor) = true ->
  let id := next_request_id (_lsp_client s) in
  let info := {| tab := widget; cursor_pos := cursor |} in
  exists s1 s2 entries,
    request_completions widget cursor (s, w) = (inr tt, (s1, w))
    /\ queued (_lsp_client s1)
       = (queued (_lsp_client s)
          ++ [completions id ("file://" +:+ pathname2url (abspath p)) pos])%list
    /\ _completion_infos s1 = <[id := info]> (_completion_infos s)
    /\ _handle_lsp_event (Completion id items) (s1, w)
       = (inr tt,
          (s2, add_generated (widget, "<<AutoCompletionResponse>>",
                              (info, entries)) w))
    /\ _completion_infos s2 = _completion_infos s
    /\ map Response.display_text entries ≡ₚ map label items
    /\ Forall (fun entry => Response.replace_end entry = cursor) entries
    /\ protocol_violation s2 (Completion id items).
Proof.
  intros Hst Hp Hpos Hfresh Hlf id info.
  pose proof (request_completions_accepted s w widget cursor p pos
                Hst Hp Hpos Hfresh) as Hreq.
  fold id info in Hreq.
  set (s1 := set_completion_infos _ _) in Hreq.
  destruct (fullmatch_group1_longest _ Hlf) as (typed & Hmatch & _).
  exists s1. eexists. eexists.
  split; [exact Hreq |]. split; [reflexivity |]. split; [reflexivity |].
  split; [| split; [| split; [| split]]].
  - unfold _handle_lsp_event. run_body.
    change (_completion_infos s1) with (<[id := info]> (_completion_infos s)).
    rewrite lookup_insert_eq. cbn. rewrite Hmatch. reflexivity.
  - cbn. by rewrite delete_insert_id.
  - rewrite map_map. cbn. by rewrite sorted_perm.
  - apply Forall_forall. intros entry Hin.
    apply list_elem_of_fmap in Hin as (item & -> & _). reflexivity.
  - cbn. rewrite delete_insert_id by done. exact Hfresh.
Qed.

End CompletionRequests.

(** ** Change events whose positions do not parse *)

Section ChangeFaults.
Context {host : Host}.
Import Lsp.

(** X5.  A change event in state [NORMAL] with a position that does not
    parse raises after [next(self._version_counter)] has been evaluated:
    nothing is sent, but the number is used up, and the next change event
    that parses carries the number after it. *)
Theorem unparsable_change_uses_up_a_version
    (s : LangServer) (w : World) (master : nat) (p : string)
    (bad good : list ChangeInfo) (e : PyExc)
    (cs : list TextDocumentContentChangeEvent) :
  state (_lsp_client s) = NORMAL ->
  path (tabs_heap w master) = Some p ->
  content_changes_of bad = inl e ->
  content_changes_of good = inr cs ->
  let first := send_change_events master bad (s, w) in
  let second := send_change_events master good first.2 in
  first.1 = inl e
  /\ sent first.2.1 = sent s
  /\ second.1 = inr tt
  /\ sent second.2.1
     = (sent s ++ [did_change ("file://" +:+ pathname2url (abspath p))
                     (_version_counter s + 1) cs])%list.
Proof.
  intros Hst Hp Hbad Hgood first second.
  assert (first = (inl e, (set_version_counter (_version_counter s + 1) s, w)))
    as Hfirst.
  { subst first. unfold send_change_events. run_body.
    destruct (decide (state (_lsp_client s) ≠ NORMAL)); [done |].
    cbn. rewrite Hp. cbn. by rewrite Hbad. }
  subst second. rewrite Hfirst. cbn [fst snd].
  destruct (send_change_events_emits
              (set_version_counter (_version_counter s + 1) s) w master good p cs)
    as (s' & Hrun & Hsent & _); [done | done | done |].
  rewrite Hrun. by repeat split.
Qed.

End ChangeFaults.

(** ** Attaching and detaching tabs *)

Section Tabs.
Context {host : Host}.
Import Lsp.




(** X7.  Closing a tab on a session that is no longer the registry's
    entry for its key does nothing but log: the tab stays in the list of
    opened tabs, no message is sent and the process is not touched. *)
Theorem close_tab_when_unregistered
    (s : LangServer) (w : World) (t : nat) :
  _is_in_langservers s w = false ->
  exists s',
    close_tab t (s, w) = (inr tt, (s', w))
    /\ tabs_opened s' = tabs_opened s
    /\ sent s' = sent s
    /\ _process s' = _process s
    /\ _is_shutting_down_cleanly s' = _is_shutting_down_cleanly s.
Proof.
  intros Hin. unfold close_tab, log. run_body. rewrite Hin. cbn.
  eexists. by repeat split.
Qed.

(** X8.  Closing the last opened tab of a registered session: the session
    takes itself out of the registry and marks the shutdown as clean; in
    state [NORMAL] it asks the client for a shutdown and leaves the process
    alone, in any other state it sends nothing and kills the process. *)
Theorem close_last_tab
    (s : LangServer) (w : World) (t : nat) :
  _is_in_langservers s w = true ->
  tabs_opened s = [t] ->
  exists s',
    close_tab t (s, w)
    = (inr tt, (s', set_langservers (delete (_id s) (langservers w)) w))
    /\ tabs_opened s' = []
    /\ _is_shutting_down_cleanly s' = true
    /\ (state (_lsp_client s) = NORMAL ->
        queued (_lsp_client s') = (queued (_lsp_client s) ++ [shutdown])%list
        /\ _process s' = _process s)
    /\ (state (_lsp_client s) <> NORMAL ->
        _lsp_client s' = _lsp_client s
        /\ _process s' = kill (_process s)).
Proof.
  intros Hin Htabs.
  unfold close_tab, _get_removed_from_langservers, call_client, log. run_body.
  rewrite Hin, Htabs. cbn. rewrite Nat.eqb_refl. cbn.
  unfold _is_in_langservers in *. cbn. rewrite Hin. cbn.
  destruct (decide (state (_lsp_client s) = NORMAL)) as [Hst | Hst]; cbn.
  - eexists. split; [reflexivity |]. repeat split; cbn; done.
  - eexists. split; [reflexivity |]. repeat split; cbn; done.
Qed.

(** X9.  Closing a tab while another stays open keeps the session going:
    it stays registered, sends nothing, and its list of opened tabs loses
    the first occurrence of the tab.  Closing a tab that was never opened
    raises [ValueError] and changes nothing but the log. *)
Theorem close_tab_with_others_open
    (s : LangServer) (w : World) (t : nat) :
  _is_in_langservers s w = true ->
  (forall t' rest, list_remove t (tabs_opened s) = inr (t' :: rest) ->
     exists s',
       close_tab t (s, w) = (inr tt, (s', w))
       /\ tabs_opened s' = t' :: rest
       /\ sent s' = sent s
       /\ _process s' = _process s
       /\ _is_shutting_down_cleanly s' = _is_shutting_down_cleanly s)
  /\ (t ∉ tabs_opened s ->
      exists s',
        close_tab t (s, w) = (inl ValueError, (s', w))
        /\ tabs_opened s' = tabs_opened s
        /\ sent s' = sent s
        /\ _process s' = _process s).
Proof.
  intros Hin. split.
  - intros t' rest Hrem. unfold close_tab, log. run_body.
    rewrite Hin. cbn. rewrite Hrem. cbn.
    eexists. by repeat split.
  - intros Hnot.
    assert (list_remove t (tabs_opened s) = inl ValueError) as Hrem.
    { induction (tabs_opened s) as [|y ys IH]; [done |].
      apply not_elem_of_cons in Hnot as [Hne Hnot]. cbn.
      destruct (Nat.eqb_spec t y); [done |]. by rewrite IH. }
    unfold close_tab, log. run_body. rewrite Hin. cbn. rewrite Hrem. cbn.
    eexists. by repeat split.
Qed.

End Tabs.

(** ** The end of the process *)

Section Supervisor.
Context {host : Host}.
Import Lsp.

Lemma not_registered_after_removal (s : LangServer) (w : World) :
  exists s' w',
    _get_removed_from_langservers (s, w) = (inr tt, (s', w'))
    /\ _is_in_langservers s' w' = false
    /\ _process s' = _process s
    /\ scheduled w' = scheduled w
    /\ sent s' = sent s
    /\ _log s' = (_log s ++ if _is_in_langservers s w
                            then [{| levelno := DEBUG;
                                     msg := "getting removed from langservers" |}]
                            else [])%list.
Proof.
  unfold _get_removed_from_langservers, log. run_body.
  destruct (_is_in_langservers s w) eqn:Hin; cbn.
  - eexists. eexists. split; [reflexivity |]. split; [| by repeat split].
    unfold _is_in_langservers. cbn. rewrite lookup_delete_eq.
    by apply bool_decide_eq_false_2.
  - exists s, w. rewrite List.app_nil_r. by repeat split.
Qed.

(** X10.  What [_ensure_langserver_process_quits_soon] does when the
    transport has closed.  A process that has exited is reported, at level
    [INFO] after a clean shutdown and at level [ERROR] otherwise, and the
    session leaves the registry.  A process that still runs is given time
    when the client is in state [EXITED]: nothing is killed or reported,
    the registry stays, and the check is set to run again in 500 ms.  In
    any other state the process is killed, a warning and the report are
    logged, and the session leaves the registry. *)
Theorem process_end_is_supervised (s : LangServer) (w : World) :
  let r := _ensure_langserver_process_quits_soon (s, w) in
  let clean := _is_shutting_down_cleanly s in
  r.1 = inr tt
  /\ (forall c, returncode (_process s) = Some c ->
        _process r.2.1 = _process s
        /\ termination_record clean c ∈ _log r.2.1
        /\ _is_in_langservers r.2.1 r.2.2 = false
        /\ scheduled r.2.2 = scheduled w)
  /\ (returncode (_process s) = None -> state (_lsp_client s) = EXITED ->
        _process r.2.1 = _process s
        /\ r.2.2 = add_scheduled (500, ensure_quits_cb) w
        /\ Forall (fun record => levelno record = DEBUG)
             (drop (length (_log s)) (_log r.2.1)))
  /\ (returncode (_process s) = None -> state (_lsp_client s) <> EXITED ->
        returncode (_process r.2.1) = Some (kill_status (_process s))
        /\ termination_record clean (kill_status (_process s)) ∈ _log r.2.1
        /\ (exists record, record ∈ _log r.2.1 /\ levelno record = WARNING)
        /\ _is_in_langservers r.2.1 r.2.2 = false
        /\ scheduled r.2.2 = scheduled w).
Proof.
  cbv zeta. unfold _ensure_langserver_process_quits_soon, log. run_body.
  unfold termination_record.
  destruct (returncode (_process s)) as [c|] eqn:Hrc; cbn.
  - destruct (_is_shutting_down_cleanly s) eqn:Hclean; cbn;
      match goal with
      | |- context [_get_removed_from_langservers (?s1, w)] =>
          destruct (not_registered_after_removal s1 w)
            as (s' & w' & Hrun & Hnot & Hproc & Hsched & _ & Hlog);
          rewrite Hrun; cbn
      end;
      (split; [done |]); (split; [| split; [done | done]]);
      intros c' [= <-]; rewrite Hproc, Hlog, Hsched; cbn;
      (repeat split; try done);
      apply elem_of_app; left; apply elem_of_app; right;
      apply list_elem_of_here.
  - destruct (decide (state (_lsp_client s) = EXITED)) as [Hst | Hst]; cbn.
    + split; [done |]. split; [done |]. split; [| done].
      intros _ _. repeat split.
      rewrite drop_app_length. by repeat constructor.
    + assert (returncode (kill (_process s)) = Some (kill_status (_process s)))
        as Hkilled by (unfold kill; by rewrite Hrc).
      destruct (_is_shutting_down_cleanly s) eqn:Hclean; cbn;
        match goal with
        | |- context [_get_removed_from_langservers (?s1, w)] =>
            destruct (not_registered_after_removal s1 w)
              as (s' & w' & Hrun & Hnot & Hproc & Hsched & _ & Hlog);
            rewrite Hrun; cbn
        end;
        (split; [done |]); (split; [done |]); (split; [done |]);
        intros _ _; rewrite Hproc, Hlog, Hsched; cbn;
        (split; [exact Hkilled |]); (split; [| split; [| done]]).
      all: try (apply elem_of_app; left; apply elem_of_app; right;
                apply list_elem_of_here).
      all: eexists;
        (split; [apply elem_of_app; left; apply elem_of_app; left;
                 apply elem_of_app; right; apply list_elem_of_here
                | reflexivity]).
Qed.

End Supervisor.

Section SupervisorTimers.
Context {host : Host}.
Import Lsp.

(** The check of the process returns, and sets no timer or its own. *)
Lemma ensure_quits_timers (st : LangServer * World) :
  (_ensure_langserver_process_quits_soon st).1 = inr tt
  /\ (scheduled (_ensure_langserver_process_quits_soon st).2.2 = scheduled st.2
      \/ scheduled (_ensure_langserver_process_quits_soon st).2.2
         = (scheduled st.2 ++ [(500, ensure_quits_cb)])%list).
Proof.
  destruct st as [s0 w0].
  unfold _ensure_langserver_process_quits_soon, log. run_body.
  destruct (returncode (_process s0)) as [c|]; cbn.
  - destruct (_is_shutting_down_cleanly s0); cbn;
      match goal with
      | |- context [_get_removed_from_langservers (?s1, w0)] =>
          destruct (not_registered_after_removal s1 w0)
            as (s' & w' & Hrun & _ & _ & Hsched & _ & _);
          rewrite Hrun; cbn
      end; (split; [done | by left]).
  - destruct (decide (state (_lsp_client s0) = EXITED)); cbn.
    + split; [done | by right].
    + destruct (_is_shutting_down_cleanly s0); cbn;
        match goal with
        | |- context [_get_removed_from_langservers (?s1, w0)] =>
            destruct (not_registered_after_removal s1 w0)
              as (s' & w' & Hrun & _ & _ & Hsched & _ & _);
            rewrite Hrun; cbn
        end; (split; [done | by left]).
Qed.

End SupervisorTimers.

(** ** One iteration of the loop *)

Section Iteration.
Context {host : Host}.
Import Lsp.

Lemma same_timers_refl st : same_timers st st.
Proof. done. Qed.

Lemma same_timers_trans st1 st2 st3 :
  same_timers st1 st2 -> same_timers st2 st3 -> same_timers st1 st3.
Proof. unfold same_timers. congruence. Qed.

Ltac timers_atom := intros; reflexivity.
Ltac timers_body := steps_body same_timers_refl same_timers_trans timers_atom.

Lemma timers_handle_lsp_event ev : always_steps same_timers (_handle_lsp_event ev).
Proof.
  unfold _handle_lsp_event, _send_tab_opened_message,
    _get_removed_from_langservers, call_client, log.
  destruct ev; timers_body.
Qed.

Lemma timers_dispatch evs : always_steps same_timers (dispatch evs).
Proof.
  unfold dispatch, log_exception, log.
  apply (steps_for_each _ same_timers_refl same_timers_trans). intros ev.
  apply (steps_try_except _ same_timers_trans);
    [apply timers_handle_lsp_event | timers_body].
Qed.

(** [run_stuff] returns; the timers it sets. *)
Lemma run_stuff_timers
    (received : option (list byte)) (recv : PyExc + ClientState * list Event)
    (s : LangServer) (w : World) :
  let r := run_stuff received recv (s, w) in
  r.1 = inr tt
  /\ (received <> Some [] ->
      scheduled r.2.2 = (scheduled w ++ [(50, run_stuff_cb)])%list)
  /\ (received = Some [] ->
      scheduled r.2.2 = scheduled w
      \/ scheduled r.2.2 = (scheduled w ++ [(500, ensure_quits_cb)])%list).
Proof.
  cbv zeta. destruct received as [[|b bs]|].
  - (* the peer closed *)
    unfold run_stuff, _run_stuff_once. run_body. cbn.
    match goal with
    | |- context [_ensure_langserver_process_quits_soon ?st] =>
        destruct (ensure_quits_timers st) as (Hres & Hsched)
    end.
    destruct (_ensure_langserver_process_quits_soon _) as [[e|[]] st'];
      [discriminate Hres |]. cbn in *.
    split; [done |]. split; [done |]. intros _. exact Hsched.
  - (* data *)
    unfold run_stuff, _run_stuff_once, log_exception, log. run_body.
    destruct recv as [e|[cs evs]]; cbn.
    + split; [done |]. split; [done | intros [=]].
    + match goal with
      | |- context [dispatch evs ?st] =>
          pose proof (dispatch_returns evs st) as Hres;
          pose proof (timers_dispatch evs st) as Hsched;
          destruct (dispatch evs st) as [[e|[]] st']
      end; [discriminate Hres |].
      unfold same_timers in Hsched. cbn in *.
      split; [done |]. split; [by rewrite Hsched | intros [=]].
  - (* no data *)
    unfold run_stuff, _run_stuff_once. run_body. cbn.
    split; [done |]. split; [done | intros [=]].
Qed.

(** An iteration over a transport: either both calls return and it is
    the iteration on the bytes read, or one of them raises, and then the
    iteration raises the same, having only handed the queued messages to
    the transport. *)
Lemma loop_run_stuff_cases (io : Loop.IO)
    (recv : PyExc + ClientState * list Event) (s : LangServer) (w : World) :
  (exists received,
     io = Loop.returns received
     /\ Loop.run_stuff io recv (s, w) = run_stuff received recv (s, w))
  \/ (exists e,
        Loop.raises io e
        /\ Loop.run_stuff io recv (s, w) = (inl e, (Loop.flushed s, w))).
Proof.
  destruct io as [[e|[]] [e'|received]].
  - right. exists e. split; [by left | reflexivity].
  - right. exists e. split; [by left | reflexivity].
  - right. exists e'. split; [by right | reflexivity].
  - left. exists received. split; reflexivity.
Qed.

(** X11.  [run_stuff] sets its timer again exactly when it has read
    something other than closure.  When both calls on the transport
    return, it returns, whatever the client makes of the bytes and
    whatever the handlers do; with no data or with data the last timer set
    is [run_stuff] in 50 ms, and on empty bytes no timer for [run_stuff]
    is set.  When the write or the read raises, [run_stuff] raises the
    same exception and sets no timer at all.  Either way the loop of the
    session ends. *)
Theorem run_stuff_sets_timer_unless_closed
    (io : Loop.IO) (recv : PyExc + ClientState * list Event)
    (s : LangServer) (w : World) :
  let r := Loop.run_stuff io recv (s, w) in
  (forall received, io = Loop.returns received ->
     r.1 = inr tt
     /\ (received <> Some [] ->
         scheduled r.2.2 = (scheduled w ++ [(50, run_stuff_cb)])%list)
     /\ (received = Some [] ->
         scheduled r.2.2 = scheduled w
         \/ scheduled r.2.2 = (scheduled w ++ [(500, ensure_quits_cb)])%list))
  /\ (forall e, Loop.raises io e ->
        r.1 = inl e /\ r.2.2 = w /\ sent r.2.1 = sent s).
Proof.
  cbv zeta. split.
  - intros received ->.
    destruct (loop_run_stuff_cases (Loop.returns received) recv s w)
      as [(received' & Hio & ->) | (e & [Hw | [_ Hr]] & _)];
      [| discriminate Hw | discriminate Hr].
    injection Hio as <-. exact (run_stuff_timers received recv s w).
  - intros e He.
    destruct (loop_run_stuff_cases io recv s w)
      as [(received & -> & _) | (e' & He' & ->)].
    + destruct He as [Hw | [_ Hr]]; [discriminate Hw | discriminate Hr].
    + assert (e' = e) as ->.
      { destruct He as [Hw | [Hw Hr]], He' as [Hw' | [Hw' Hr']]; congruence. }
      cbn. split; [done |]. split; [done |].
      unfold sent, Loop.flushed. cbn.
      by rewrite concat_app, <- List.app_assoc; cbn; rewrite !List.app_nil_r.
Qed.

(** X12.  When the client raises on the bytes read, the fault is logged at
    level [ERROR], no event is handled, and the session goes on: the
    iteration asks to be run again, and the client's state, the pending
    requests, the opened tabs, the process and everything outside the
    object are as before. *)
Theorem decode_fault_is_logged_and_survived
    (b : byte) (bs : list byte) (e : PyExc) (s : LangServer) (w : World) :
  exists s',
    _run_stuff_once (Some (b :: bs)) (inl e) (s, w) = (inr true, (s', w))
    /\ _log s'
       = (_log s
          ++ [ {| levelno := DEBUG;
                  msg := "got " +:+ str_of_int (Z.of_nat (S (length bs)))
                         +:+ " bytes of data" |};
               {| levelno := ERROR; msg := "error while receiving lsp events" |} ])%list
    /\ state (_lsp_client s') = state (_lsp_client s)
    /\ sent s' = sent s
    /\ _completion_infos s' = _completion_infos s
    /\ tabs_opened s' = tabs_opened s
    /\ _process s' = _process s.
Proof.
  eexists. split; [reflexivity |]. cbn.
  split; [by rewrite <- List.app_assoc |]. split; [done |].
  split; [| done]. unfold sent. cbn.
  by rewrite concat_app, List.app_nil_r; cbn; rewrite List.app_nil_r.
Qed.

End Iteration.

(** ** The order of the candidates *)

Section CandidateOrder.
Context {host : Host}.
Import Lsp.

Lemma leb_trans (a b c : string) :
  String.leb a b = true -> String.leb b c = true -> String.leb a c = true.
Proof.
  intros Hab Hbc. apply Is_true_true.
  apply Is_true_true in Hab, Hbc.
  change (String.le a c). by transitivity b.
Qed.

Lemma leb_false_le (a b : string) :
  String.leb a b = false -> String.leb b a = true.
Proof. intros Hab. destruct (String.leb_total a b); congruence. Qed.

Lemma leb_false_neq (a b : string) : String.leb a b = false -> a <> b.
Proof.
  intros Hab ->. destruct (String.leb_total b b); congruence.
Qed.

Lemma insert_by_key_sorted (x : CompletionItem) (l : list CompletionItem) :
  StronglySorted key_le l -> StronglySorted key_le (insert_by_key sort_key x l).
Proof.
  intros Hl. induction Hl as [|y l Hl IH Hy]; cbn.
  - by repeat constructor.
  - destruct (String.leb (sort_key x) (sort_key y)) eqn:Hxy.
    + constructor; [by constructor |]. constructor; [exact Hxy |].
      eapply Forall_impl; [exact Hy |]. intros z Hz. by eapply leb_trans.
    + constructor; [exact IH |].
      rewrite (insert_by_key_perm sort_key x l).
      constructor; [by apply leb_false_le | exact Hy].
Qed.

Lemma sorted_is_sorted (items : list CompletionItem) :
  StronglySorted key_le (sorted sort_key items).
Proof.
  induction items as [|x items IH]; [constructor |].
  by apply insert_by_key_sorted.
Qed.

Lemma insert_by_key_with_key (k : string) (x : CompletionItem)
    (l : list CompletionItem) :
  with_key k (insert_by_key sort_key x l) = with_key k (x :: l).
Proof.
  induction l as [|y l IH]; [done |]. cbn [insert_by_key].
  destruct (String.leb (sort_key x) (sort_key y)) eqn:Hxy; [done |].
  unfold with_key in *. cbn [List.filter] in *. rewrite IH.
  destruct (String.eqb_spec (sort_key x) k) as [Hx | Hx]; [| done].
  destruct (String.eqb_spec (sort_key y) k) as [Hy | Hy]; [| done].
  apply leb_false_neq in Hxy. congruence.
Qed.

Lemma sorted_with_key (k : string) (items : list CompletionItem) :
  with_key k (sorted sort_key items) = with_key k items.
Proof.
  induction items as [|x items IH]; [done |].
  change (sorted sort_key (x :: items))
    with (insert_by_key sort_key x (sorted sort_key items)).
  rewrite insert_by_key_with_key. unfold with_key in *. cbn. by rewrite IH.
Qed.

(** X13.  The entries of a completion response follow the candidates
    sorted by their sort text, or their label where they have none: there
    is one entry per candidate, the candidates are in ascending order of
    that key, and candidates with the same key keep the order in which the
    server sent them. *)
Theorem completion_entries_are_sorted
    (s : LangServer) (w : World) (message_id : Z)
    (items : list CompletionItem) (info : InfoDict) :
  _completion_infos s !! message_id = Some info ->
  no_line_feed (before_cursor w info) = true ->
  exists s' entries ordered,
    _handle_lsp_event (Completion message_id items) (s, w)
    = (inr tt,
       (s', add_generated (tab info, "<<AutoCompletionResponse>>",
                           (info, entries)) w))
    /\ map Response.display_text entries = map label ordered
    /\ map Response.documentation entries = map get_completion_item_doc ordered
    /\ ordered ≡ₚ items
    /\ StronglySorted key_le ordered
    /\ (forall k, with_key k ordered = with_key k items).
Proof.
  intros Hinfo Hlf.
  destruct (fullmatch_group1_longest _ Hlf) as (typed & Hmatch & _).
  unfold before_cursor in Hmatch.
  eexists. eexists. exists (sorted sort_key items).
  split; [| split; [| split; [| split; [| split]]]].
  - unfold _handle_lsp_event. run_body. rewrite Hinfo. cbn.
    rewrite Hmatch. reflexivity.
  - by rewrite map_map.
  - by rewrite map_map.
  - apply sorted_perm.
  - apply sorted_is_sorted.
  - intros k. apply sorted_with_key.
Qed.

End CandidateOrder.

(** * Further properties of the transports *)

Section QueueTransport.
Import Transport TransportMore.

Lemma worker_steps_puts (steps : list WorkerStep) (t : SubprocessStdIO) :
  let t' := fold_left worker_step steps t in
  concat (_read_queue t')
  = (concat (_read_queue t) ++ (worker_puts (_worker_thread_alive t) steps).1)%list
  /\ _worker_thread_alive t' = (worker_puts (_worker_thread_alive t) steps).2.
Proof.
  revert t. induction steps as [|a steps IH]; intros [q alive]; cbn zeta.
  - cbn. by rewrite List.app_nil_r.
  - cbn [fold_left worker_puts]. unfold worker_step at 2. cbn.
    destruct alive.
    + destruct a as [b|].
      * destruct (IH {| _read_queue := q ++ [b]; _worker_thread_alive := true |})
          as [Hq Ha]. cbn in Hq, Ha.
        destruct (worker_puts true steps) as [bs alive']. cbn in *.
        rewrite Hq, Ha, concat_app. cbn.
        by rewrite List.app_nil_r, <- List.app_assoc.
      * apply (IH {| _read_queue := q; _worker_thread_alive := false |}).
    + rewrite (worker_step_dead _ a) by done.
      rewrite !worker_steps_dead by done. cbn. by rewrite List.app_nil_r.
Qed.

(** X14.  The queue-backed transport neither loses nor repeats nor
    reorders a byte: over any run of worker steps and [read()] calls, the
    data the reads returned, followed by what is still queued, is exactly
    what was queued at the start followed by what the worker put. *)
Theorem queue_transport_keeps_bytes (acts : list Action) (t : SubprocessStdIO) :
  (read_data (run acts t).1 ++ concat (_read_queue (run acts t).2))%list
  = (concat (_read_queue t) ++ all_puts acts (_worker_thread_alive t))%list.
Proof.
  revert t. induction acts as [|[a|between] acts IH]; intros t.
  - cbn. by rewrite List.app_nil_r.
  - cbn [run all_puts]. rewrite IH.
    destruct (worker_steps_puts [a] t) as [Hq Ha]. cbn [fold_left] in Hq, Ha.
    rewrite Hq, Ha.
    destruct (worker_puts (_worker_thread_alive t) [a]) as [bs alive']. cbn.
    by rewrite List.app_assoc.
  - cbn [run all_puts]. unfold SubprocessStdIO_read.
    set (t1 := {| _read_queue := []; _worker_thread_alive := _worker_thread_alive t |}).
    destruct (worker_steps_puts between t1) as [Hq Ha]. cbn in Hq, Ha.
    specialize (IH (fold_left worker_step between t1)).
    destruct (run acts (fold_left worker_step between t1)) as [rs t'] eqn:Hrun.
    cbn [fst snd] in *. rewrite Hq, Ha in IH.
    destruct (worker_puts (_worker_thread_alive t) between) as [bs alive'].
    cbn [fst snd] in *.
    assert (read_data
              ((if _worker_thread_alive (fold_left worker_step between t1)
                   && bool_decide (concat (_read_queue t) = [])
                then None else Some (concat (_read_queue t))) :: rs)
            = (concat (_read_queue t) ++ read_data rs)%list) as Hdata.
    { rewrite Ha. unfold read_data. destruct alive'; cbn; [| done].
      case_bool_decide as Hbuf; cbn; [by rewrite Hbuf | done]. }
    rewrite Hdata, <- !List.app_assoc. by rewrite IH.
Qed.

End QueueTransport.

Section SocketTransport.
Import Transport TransportMore.

Lemma writes_queue (chunks : list (list byte)) (self : LocalhostSocketIO) :
  _send_queue (writes chunks self) = (_send_queue self ++ map Some chunks)%list
  /\ _worker_alive (writes chunks self) = _worker_alive self.
Proof.
  revert self. induction chunks as [|c chunks IH]; intros self.
  - cbn. by rewrite List.app_nil_r.
  - unfold writes in *. cbn [fold_left]. destruct (IH (LocalhostSocketIO_write c self))
      as [Hq Ha]. rewrite Hq, Ha. cbn. by rewrite <- List.app_assoc.
Qed.

Lemma send_loop_until_sentinel (failing : option nat) (pre : list (list byte))
    (post : list (option (list byte))) :
  send_loop failing (map Some pre ++ None :: post)
  = match failing with
    | Some k =>
        if (k <? length pre)%nat
        then (take (S k) pre, worker_raised,
              (map Some (drop (S k) pre) ++ None :: post)%list)
        else (pre, worker_returned, post)
    | None => (pre, worker_returned, post)
    end.
Proof.
  revert failing. induction pre as [|b pre IH]; intros failing.
  - by destruct failing.
  - cbn [map app send_loop]. destruct failing as [[|k]|].
    + reflexivity.
    + cbn [fmap option_fmap option_map Nat.pred]. rewrite IH.
      cbn [length]. change (S k <? S (length pre))%nat with (k <? length pre)%nat.
      by destruct (k <? length pre)%nat.
    + cbn [fmap option_fmap option_map]. by rewrite IH.
Qed.

Lemma connect_after_refusals (port : Z) (n : nat) (failing : option nat)
    (queue : list (option (list byte))) :
  let t := _send_queue_to_socket port (replicate n connect_refused ++ [connect_ok])
             failing queue in
  infos t
  = (replicate n ("connecting to localhost:" +:+ str_of_int port
                  +:+ " failed, retrying soon")
     ++ ["connected to localhost:" +:+ str_of_int port])%list
  /\ sleeps t = n
  /\ (sendall t, ending t, untaken t) = send_loop failing queue.
Proof.
  induction n as [|n IH]; cbn zeta.
  - cbn. by destruct (send_loop failing queue) as [[? ?] ?].
  - cbn. destruct IH as (Hi & Hs & Hl). by rewrite Hi, Hs, Hl.
Qed.

(** X15.  The socket transport from first write to closure.  Chunks are
    written before the socket is connected, the connection is refused [n]
    times and then made, the peer closes, and more chunks are written.
    The worker logs each refusal and sleeps after it, then logs the
    connection.  It hands to [sendall] the chunks written before the
    closure, each once and in the order written, up to the first call that
    raises, which ends the thread; when no call raises it takes the
    sentinel that the [read()] seeing the closure has put, and returns.
    That [read()] returns empty bytes.  What is written after the closure
    is never sent. *)
Theorem socket_sends_what_was_written_before_closure
    (p : Platform) (port : Z) (n : nat) (failing : option nat)
    (before after : list (list byte)) :
  let self0 := {| _send_queue := []; _worker_alive := true |} in
  let self1 := writes before self0 in
  let r := LocalhostSocketIO_read p true (inr []) self1 in
  let self2 := writes after r.2 in
  let t := _send_queue_to_socket port (replicate n connect_refused ++ [connect_ok])
             failing (_send_queue self2) in
  r.1 = inr (Some [])
  /\ sleeps t = n
  /\ length (infos t) = S n
  /\ last (infos t) = Some ("connected to localhost:" +:+ str_of_int port)
  /\ sendall t = match failing with
                 | Some k => take (S k) before
                 | None => before
                 end
  /\ (forall k, failing = Some k -> (k < length before)%nat ->
        ending t = worker_raised)
  /\ (match failing with
      | Some k => (length before <= k)%nat
      | None => True
      end ->
      ending t = worker_returned /\ untaken t = map Some after).
Proof.
  cbv zeta.
  set (self1 := writes before _).
  destruct (writes_queue before {| _send_queue := []; _worker_alive := true |})
    as [Hq1 Ha1]. fold self1 in Hq1, Ha1. cbn in Hq1, Ha1.
  assert (LocalhostSocketIO_read p true (inr []) self1
          = (inr (Some []),
             {| _send_queue := map Some before ++ [None]; _worker_alive := true |}))
    as Hr.
  { unfold LocalhostSocketIO_read. cbn. by rewrite Ha1, Hq1. }
  rewrite Hr. cbn [fst snd].
  set (self2 := {| _send_queue := _; _worker_alive := true |}).
  destruct (writes_queue after self2) as [Hq2 _]. cbn in Hq2.
  rewrite Hq2, <- List.app_assoc. cbn [app].
  destruct (connect_after_refusals port n failing
              (map Some before ++ None :: map Some after)) as (Hi & Hs & Hl).
  rewrite send_loop_until_sentinel in Hl.
  split; [done |]. split; [exact Hs |].
  split; [by rewrite Hi, List.length_app, length_replicate; cbn; lia |].
  split; [by rewrite Hi, last_snoc |].
  destruct failing as [k|].
  - destruct (Nat.ltb_spec k (length before)) as [Hlt | Hge];
      injection Hl as Hsend Hend Hrest.
    + split; [exact Hsend |]. split; [done | lia].
    + split; [by rewrite take_ge by lia |].
      split; [intros k' [= <-]; lia | done].
  - injection Hl as Hsend Hend Hrest.
    split; [exact Hsend |]. split; [intros k [=] | done].
Qed.

End SocketTransport.

(** * Further properties of the command runner *)

Section Polling.
Import Run RunMore.

Lemma handle_thread_item (item : string * string) (self : Executor) :
  thread_item item ->
  exists self',
    _handle_queued_item item.1 item.2 self = inr self'
    /\ inserted (calls self') = (inserted (calls self) ++ texts_of [item])%list
    /\ _shell_process self' = _shell_process self
    /\ _thread_alive self' = _thread_alive self.
Proof.
  intros [Hout | ->].
  - destruct item as [mt text]. unfold output_type in Hout. cbn [fst snd] in *.
    unfold texts_of.
    destruct Hout as [-> | [-> | ->]]; unfold _handle_queued_item; cbn;
      destruct (scrolled_to_end self (calls self));
      eexists; (split; [reflexivity |]); cbn;
      rewrite ?inserted_app; cbn; by rewrite ?List.app_nil_r.
  - unfold _handle_queued_item, texts_of. cbn. eexists. split; [reflexivity |].
    cbn. rewrite !inserted_app. cbn. by rewrite !List.app_nil_r.
Qed.

Lemma texts_of_app (xs ys : list (string * string)) :
  texts_of (xs ++ ys) = (texts_of xs ++ texts_of ys)%list.
Proof. unfold texts_of. by rewrite List.filter_app, map_app. Qed.

Lemma poll_loop_handles (n ready : nat) (queue : list (string * string))
    (self : Executor) :
  Forall thread_item queue ->
  let m := Nat.min n (Nat.min ready (length queue)) in
  exists self',
    poll_loop n ready queue self = (inr tt, self', drop m queue)
    /\ inserted (calls self')
       = (inserted (calls self) ++ texts_of (take m queue))%list
    /\ _shell_process self' = _shell_process self
    /\ _thread_alive self' = _thread_alive self.
Proof.
  intros Hq. cbv zeta. revert n ready self.
  induction Hq as [|item queue Hitem Hq IH]; intros n ready self.
  - exists self. cbn [length]. rewrite Nat.min_0_r, Nat.min_0_r.
    destruct n, ready; cbn; by rewrite List.app_nil_r.
  - destruct n as [|n]; [exists self; cbn; by rewrite List.app_nil_r |].
    destruct ready as [|ready]; [exists self; cbn; by rewrite List.app_nil_r |].
    destruct item as [mt text].
    destruct (handle_thread_item (mt, text) self Hitem)
      as (self1 & Hrun & Hins & Hp & Ha).
    cbn [fst snd] in Hrun. cbn [poll_loop]. rewrite Hrun.
    destruct (IH n ready self1) as (self' & Hloop & Hins' & Hp' & Ha').
    exists self'. rewrite Hloop. cbn [length].
    rewrite <- !Nat.succ_min_distr. cbn [drop take].
    split; [done |].
    change ((mt, text) :: take (Nat.min n (Nat.min ready (length queue))) queue)
      with ([(mt, text)] ++ take (Nat.min n (Nat.min ready (length queue))) queue)%list.
    rewrite texts_of_app, Hins', Hins, <- List.app_assoc.
    split; [done |]. split; congruence.
Qed.

Lemma handled_bounds (readies : list nat) (waiting : nat) :
  (handled readies waiting <= 10 * length readies)%nat
  /\ (handled readies waiting <= waiting)%nat.
Proof.
  revert waiting. induction readies as [|ready readies IH]; intros waiting.
  - cbn. lia.
  - cbn [handled length].
    destruct (IH (waiting - Nat.min 10 (Nat.min ready waiting))%nat). lia.
Qed.

(** X16.  A poll of the queue handles the items it finds, but at most
    ten, in the order the thread puts them, and sets the timer for the
    next poll 50 ms on.  So polls, whatever each of them finds, each set
    their timer 50 ms on and append the texts of the first items of the
    thread, none left out or out of order, never more than ten per poll,
    and leave the others for later polls; polls that each find ten items
    or more take ten each. *)
Theorem polls_take_ten_at_a_time
    (rounds : list (string * nat)) (queue : list (string * string))
    (self : Executor) :
  Forall thread_item queue ->
  let m := handled (map snd rounds) (length queue) in
  exists self',
    polls rounds queue self
    = (replicate (length rounds) 50, None, self', drop m queue)
    /\ inserted (calls self')
       = (inserted (calls self) ++ texts_of (take m queue))%list
    /\ (m <= 10 * length rounds)%nat
    /\ (Forall (fun round => 10 <= round.2)%nat rounds ->
        m = Nat.min (10 * length rounds) (length queue))
    /\ (rounds <> [] -> _timeout_id self' = last (map fst rounds)).
Proof.
  cbv zeta. revert queue self.
  induction rounds as [|[timer ready] rounds IH]; intros queue self Hq.
  - exists self. cbn. rewrite drop_0. cbn. rewrite List.app_nil_r.
    split; [done |]. split; [done |]. split; [lia |]. done.
  - cbn [polls]. unfold _poll_queue_and_put_to_textwidget.
    destruct (poll_loop_handles 10 ready queue self Hq)
      as (self1 & Hloop & Hins & _ & _).
    rewrite Hloop. cbn [map snd handled length].
    set (m1 := Nat.min 10 (Nat.min ready (length queue))) in *.
    destruct (IH (drop m1 queue) (set_timeout_id (Some timer) self1))
      as (self' & Hpolls & Hins' & Hmax & Hfull & Hid).
    { by apply Forall_drop. }
    rewrite length_drop in Hpolls, Hins', Hfull.
    exists self'. rewrite Hpolls, drop_drop. cbn [replicate].
    split; [done |]. split; [| split; [| split]].
    + rewrite Hins'. cbn [calls set_timeout_id]. rewrite Hins.
      rewrite <- List.app_assoc, <- texts_of_app. do 2 f_equal.
      by rewrite take_take_drop.
    + rewrite length_drop in Hmax. lia.
    + intros Hten. apply Forall_cons in Hten as [Hready Hten].
      cbn [snd] in Hready. rewrite (Hfull Hten). subst m1. lia.
    + intros _. destruct rounds as [|[timer' ready'] rounds'].
      * cbn in Hpolls. by injection Hpolls as <-.
      * rewrite Hid by done. done.
Qed.

End Polling.

Section OutputText.
Import Run RunMore.

Lemma replace_crlf_unfold (c : ascii) (s' : string) :
  replace_crlf (String c s')
  = match s' with
    | String c' s'' =>
        if Ascii.eqb c "013"%char && Ascii.eqb c' LF
        then String LF (replace_crlf s'')
        else String c (replace_crlf s')
    | EmptyString => String c EmptyString
    end.
Proof. by destruct s'. Qed.

Lemma count_crlf_unfold (c c' : ascii) (s'' : string) :
  count_crlf (String c (String c' s''))
  = if Ascii.eqb c "013"%char && Ascii.eqb c' LF
    then S (count_crlf s'')
    else count_crlf (String c' s'').
Proof. reflexivity. Qed.

(** Both facts at once, for a string and for its tail. *)
Lemma replace_crlf_counts (n : nat) (s : string) :
  (String.length s <= n)%nat ->
  count_newlines (replace_crlf s) = count_newlines s
  /\ (String.length (replace_crlf s) + count_crlf s)%nat = String.length s.
Proof.
  revert s. induction n as [|n IH]; intros s Hlen.
  - destruct s; [done | cbn in Hlen; lia].
  - destruct s as [|c [|c' s'']]; [done | done |].
    rewrite replace_crlf_unfold, count_crlf_unfold.
    destruct (Ascii.eqb c "013" && Ascii.eqb c' LF) eqn:Hcrlf.
    + apply andb_prop in Hcrlf as [Hc Hc'].
      apply Ascii.eqb_eq in Hc, Hc'. subst c c'.
      destruct (IH s'') as [Hnl Hlen'']; [cbn in Hlen; lia |].
      cbn. rewrite Hnl. split; [done | lia].
    + destruct (IH (String c' s'')) as [Hnl Hlen'']; [cbn in Hlen; cbn; lia |].
      change (count_newlines (String c (replace_crlf (String c' s''))))
        with ((if Ascii.eqb c LF then 1 else 0)
              + count_newlines (replace_crlf (String c' s'')))%nat.
      change (count_newlines (String c (String c' s'')))
        with ((if Ascii.eqb c LF then 1 else 0)
              + count_newlines (String c' s''))%nat.
      change (String.length (String c (replace_crlf (String c' s''))))
        with (S (String.length (replace_crlf (String c' s'')))).
      change (String.length (String c (String c' s'')))
        with (S (String.length (String c' s''))).
      rewrite Hnl. split; [done | lia].
Qed.

Lemma replace_crlf_unchanged (s : string) :
  count_crlf s = O -> replace_crlf s = s.
Proof.
  remember (String.length s) as n eqn:Hn.
  assert (String.length s <= n)%nat as Hle by lia. clear Hn.
  revert s Hle. induction n as [|n IH]; intros s Hle Hzero.
  - destruct s; [done | cbn in Hle; lia].
  - destruct s as [|c [|c' s'']]; [done | done |].
    rewrite replace_crlf_unfold. rewrite count_crlf_unfold in Hzero.
    destruct (Ascii.eqb c "013" && Ascii.eqb c' LF); [discriminate |].
    rewrite IH; [done | cbn in Hle; cbn; lia | done].
Qed.

(** X17.  A chunk of the process's output reaches the text widget with
    its carriage return, line feed pairs turned into line feeds and
    nothing else changed.  The thread puts it so, and the foreground
    inserts what the thread put; the text inserted has as many line feeds
    as the chunk, so the links are added over as many lines as the
    process wrote, and it is shorter than the chunk by one character per
    pair; a chunk without such a pair is inserted as it is. *)
Theorem output_chunk_keeps_its_lines
    (command : string) (chunks : list string) (status : Z) (chunk : string)
    (self : Executor) :
  In chunk chunks ->
  let text := replace_crlf chunk in
  In ("output", text) (_thread_target command (ran chunks status))
  /\ (exists self',
        _handle_queued_item "output" text self = inr self'
        /\ inserted (calls self') = (inserted (calls self) ++ [text])%list
        /\ In (add_links
                 ("end - 1 char linestart - "
                  +:+ str_of_int (Z.of_nat (count_newlines chunk)) +:+ " lines")
                 "end - 1 char linestart")
              (calls self'))
  /\ count_newlines text = count_newlines chunk
  /\ (String.length text + count_crlf chunk)%nat = String.length chunk
  /\ (count_crlf chunk = O -> text = chunk).
Proof.
  intros Hin. cbv zeta.
  destruct (replace_crlf_counts (String.length chunk) chunk) as [Hnl Hlen]; [lia |].
  split.
  { unfold _thread_target. right. apply in_or_app. left.
    apply in_map_iff. by exists chunk. }
  split.
  { unfold _handle_queued_item. cbn. rewrite Hnl.
    destruct (scrolled_to_end self (calls self));
      eexists; (split; [reflexivity |]); cbn;
      rewrite ?inserted_app; cbn; rewrite ?List.app_nil_r;
      (split; [done |]); rewrite !in_app_iff; cbn; auto 10. }
  split; [exact Hnl |]. split; [exact Hlen |].
  apply replace_crlf_unchanged.
Qed.

(** X18.  [stop] reads the queue only when it has killed a process outside
    of quitting.  When Porcupine quits, when the process is already gone,
    or when none was started, [stop] returns whatever the thread still has
    to put: it cannot wait for the thread, appends nothing to the output
    and cancels the pending poll.  It generates [<<FileSystemChanged>>]
    exactly when a process had been started and Porcupine is not
    quitting. *)
Theorem stop_returns_without_reading
    (win32 quitting : bool) (try_result : TryResult)
    (incoming : list (string * string)) (self : Executor) :
  quitting = true \/ try_result = process_gone \/ _shell_process self = None ->
  exists self',
    stop win32 quitting try_result incoming self = stop_returned self'
    /\ inserted (calls self') = inserted (calls self)
    /\ _timeout_id self' = None
    /\ (In (event_generate "<<FileSystemChanged>>") (calls self')
        <-> In (event_generate "<<FileSystemChanged>>") (calls self)
            \/ (quitting = false /\ _shell_process self <> None)).
Proof.
  intros Hcase. unfold stop.
  set (self0 := match _timeout_id self with
                | Some id => set_timeout_id None (call (after_cancel id) self)
                | None => self
                end).
  assert (_shell_process self0 = _shell_process self
          /\ inserted (calls self0) = inserted (calls self)
          /\ _timeout_id self0 = None
          /\ (forall c, In (event_generate c) (calls self0)
                        <-> In (event_generate c) (calls self)))
    as (Hp0 & Hi0 & Ht0 & He0).
  { subst self0. destruct (_timeout_id self) eqn:Hid; cbn; [| by repeat split].
    rewrite inserted_app. cbn. rewrite List.app_nil_r. repeat split; try done.
    - intros Hin. apply in_app_or in Hin as [Hin | [Hin | []]]; [done | discriminate].
    - intros Hin. apply in_or_app. by left. }
  rewrite Hp0.
  destruct (_shell_process self) as [pid|] eqn:Hproc.
  - assert (exists self', (if quitting then stop_returned self0
                           else stop_returned
                                  (call (event_generate "<<FileSystemChanged>>") self0))
                          = stop_returned self'
              /\ inserted (calls self') = inserted (calls self)
              /\ _timeout_id self' = None
              /\ (In (event_generate "<<FileSystemChanged>>") (calls self')
                  <-> In (event_generate "<<FileSystemChanged>>") (calls self)
                      \/ (quitting = false /\ Some pid <> None))) as Hfinish.
    { destruct quitting.
      - exists self0. split; [done |]. split; [done |]. split; [done |].
        rewrite He0. split; [by left | by intros [? | [? _]]].
      - eexists. split; [reflexivity |]. cbn. rewrite inserted_app. cbn.
        rewrite List.app_nil_r. split; [done |]. split; [done |].
        split; [intros _; by right | intros _; apply in_or_app; right; by left]. }
    destruct try_result; [exact Hfinish |].
    destruct quitting; [exact Hfinish |].
    destruct Hcase as [? | [? | ?]]; discriminate.
  - exists self0. split; [done |]. split; [done |]. split; [done |].
    rewrite He0. split; [by left | by intros [? | [_ ?]]].
Qed.

End OutputText.

(** * Further properties of the project root *)

Section ProjectRootFacts.
Import Py PosixPath.

Lemma upto_last_sep_prefix (p : string) : exists rest, p = upto_last_sep p +:+ rest.
Proof.
  induction p as [|c p [rest IH]]; [exists ""; reflexivity|].
  cbn [upto_last_sep]. destruct (upto_last_sep p) as [|c' head] eqn:E.
  - destruct (Ascii.eqb c sep).
    + exists p. reflexivity.
    + exists (String c p). reflexivity.
  - exists rest. rewrite app_cons. f_equal. exact IH.
Qed.

Lemma rstrip_sep_prefix (head : string) : exists rest, head = rstrip_sep head +:+ rest.
Proof.
  induction head as [|c head [rest IH]]; [exists ""; reflexivity|].
  cbn [rstrip_sep]. destruct (rstrip_sep head) as [|c' r] eqn:E.
  - destruct (Ascii.eqb c sep).
    + exists (String c head). reflexivity.
    + exists head. reflexivity.
  - exists rest. rewrite app_cons. f_equal. exact IH.
Qed.

Lemma dirname_prefix (p : string) : exists rest, p = dirname p +:+ rest.
Proof.
  unfold dirname. destruct (upto_last_sep_prefix p) as [rest1 H1].
  destruct (truthy (upto_last_sep p) && negb (all_sep (upto_last_sep p))).
  - destruct (rstrip_sep_prefix (upto_last_sep p)) as [rest2 H2].
    exists (rest2 +:+ rest1). rewrite <- app_assoc, <- H2. exact H1.
  - exists rest1. exact H1.
Qed.

Lemma dirname_shorter (p : string) :
  dirname p = p \/ (String.length (dirname p) < String.length p)%nat.
Proof.
  destruct (dirname_prefix p) as [[|c rest] H].
  - left. rewrite app_nil_r in H. symmetry. exact H.
  - right. rewrite H at 2. rewrite length_app. cbn. lia.
Qed.

Lemma ancestor_prefix (k : nat) (p : string) : exists rest, p = ancestor k p +:+ rest.
Proof.
  induction k as [|k [rest IH]]; [exists ""; rewrite app_nil_r; reflexivity|].
  change (ancestor (S k) p) with (dirname (ancestor k p)).
  destruct (dirname_prefix (ancestor k p)) as [rest' H].
  exists (rest' +:+ rest). rewrite <- app_assoc, <- H. exact IH.
Qed.

Lemma ancestor_fixed (k j : nat) (p : string) :
  ancestor (S k) p = ancestor k p -> (k <= j)%nat -> ancestor j p = ancestor k p.
Proof.
  intros Hfix Hle. induction Hle as [|j Hle IH]; [reflexivity|].
  change (ancestor (S j) p) with (dirname (ancestor j p)). rewrite IH. exact Hfix.
Qed.

Lemma ancestor_shift (k : nat) (p : string) :
  ancestor k (dirname p) = ancestor (S k) p.
Proof.
  induction k as [|k IH]; [reflexivity|].
  change (ancestor (S k) (dirname p)) with (dirname (ancestor k (dirname p))).
  rewrite IH. reflexivity.
Qed.

Variable path_exists : string -> bool.

(** The loop stops at the first directory above [path] that holds one of
    the things, or where [dirname] no longer changes the path. *)
Lemma find_loop_stops (fuel : nat) (project_file_path path : string) :
  (String.length path < fuel)%nat ->
  exists k,
    (forall j, (j < k)%nat -> has_root_thing path_exists (ancestor (S j) path) = false)
    /\ ((find_loop path_exists fuel project_file_path path = Some (ancestor (S k) path)
         /\ has_root_thing path_exists (ancestor (S k) path) = true)
        \/ (find_loop path_exists fuel project_file_path path
              = Some (dirname project_file_path)
            /\ ancestor (S k) path = ancestor k path)).
Proof.
  revert path. induction fuel as [|fuel IH]; intros path Hlen; [lia|].
  cbn [find_loop]. destruct (String.eqb_spec path (dirname path)) as [Heq|Hne].
  - exists O. split; [intros j Hj; lia|]. right. split; [reflexivity|].
    symmetry. exact Heq.
  - destruct (has_root_thing path_exists (dirname path)) eqn:Hthing.
    + exists O. split; [intros j Hj; lia|]. left. split; [reflexivity | exact Hthing].
    + destruct (dirname_shorter path) as [Hsame|Hshort]; [congruence|].
      destruct (IH (dirname path)) as (k & Hnone & Hend); [lia|].
      exists (S k). split.
      * intros [|j] Hj; [exact Hthing|].
        rewrite <- (ancestor_shift (S j) path). apply Hnone. lia.
      * rewrite <- (ancestor_shift (S k) path), <- (ancestor_shift k path).
        exact Hend.
Qed.

(** What the loop returns is [dirname] applied to the path some number
    of times. *)
Lemma find_loop_ancestor (fuel : nat) (project_file_path path root : string) :
  find_loop path_exists fuel project_file_path path = Some root ->
  (exists k, root = ancestor (S k) path)
  \/ root = dirname project_file_path.
Proof.
  revert path. induction fuel as [|fuel IH]; intros path; [discriminate|].
  cbn [find_loop]. destruct (String.eqb_spec path (dirname path)) as [Heq|Hne].
  - intros [= <-]. right. reflexivity.
  - destruct (has_root_thing path_exists (dirname path)).
    + intros [= <-]. left. exists O. reflexivity.
    + intros Hloop. destruct (IH _ Hloop) as [[k Hk]|Hd]; [left|right; exact Hd].
      subst root.
      exists (S k). apply ancestor_shift.
Qed.

End ProjectRootFacts.

Section ProjectRootProperties.
Import Py PosixPath.

(** X19.  For an absolute path and enough iterations [find_project_root]
    returns.  What it returns is the nearest directory above the path that
    holds one of the things of [_PROJECT_ROOT_THINGS]; when it returns a
    directory that holds none, that directory is [dirname] of the path,
    and either no directory above the path holds one or the path is its
    own [dirname] and nothing was looked up. *)
Theorem find_project_root_is_nearest_marked
    (path_exists : string -> bool) (fuel : nat) (p : string) :
  isabs p = true ->
  (String.length p < fuel)%nat ->
  exists k,
    find_project_root path_exists fuel p = Some (inr (ancestor (S k) p))
    /\ (forall j, (j < k)%nat -> has_root_thing path_exists (ancestor (S j) p) = false)
    /\ (has_root_thing path_exists (ancestor (S k) p) = true
        \/ (k = O
            /\ (dirname p = p
                \/ forall j, has_root_thing path_exists (ancestor (S j) p) = false))).
Proof.
  intros Habs Hlen. unfold find_project_root. rewrite Habs. cbn [negb].
  destruct (find_loop_stops path_exists fuel p p Hlen)
    as (k & Hnone & [[Hfound Hthing]|[Hdefault Hfix]]).
  - exists k. rewrite Hfound. auto.
  - exists O. rewrite Hdefault. split; [reflexivity|].
    split; [intros j Hj; lia|]. right. split; [reflexivity|].
    destruct k as [|k]; [left; exact Hfix|]. right. intros j.
    destruct (Nat.lt_ge_cases j (S k)) as [Hlt|Hge]; [apply Hnone; exact Hlt|].
    rewrite (ancestor_fixed (S k) (S j) p Hfix) by lia.
    apply Hnone. lia.
Qed.

(** X20.  A path that is not absolute fails the assertion; for any other
    path, what [find_project_root] returns is a part of the path from its
    start, and a proper part unless the path is its own [dirname]. *)
Theorem find_project_root_is_above_the_path
    (path_exists : string -> bool) (fuel : nat) (p : string) :
  (isabs p = false ->
   find_project_root path_exists fuel p = Some (inl AssertionError))
  /\ (forall root,
        find_project_root path_exists fuel p = Some (inr root) ->
        isabs p = true
        /\ (exists rest, p = root +:+ rest)
        /\ (dirname p = p \/ (String.length root < String.length p)%nat)).
Proof.
  unfold find_project_root. split.
  - intros ->. reflexivity.
  - intros root. destruct (isabs p) eqn:Habs; cbn [negb]; [|discriminate].
    destruct (find_loop path_exists fuel p p) as [r|] eqn:Hloop; [|discriminate].
    intros [= ->]. split; [reflexivity|].
    assert (exists k, root = ancestor (S k) p) as [k ->].
    { destruct (find_loop_ancestor path_exists fuel p p root Hloop) as [Hk|Hd];
        [exact Hk | exists O; exact Hd]. }
    split; [apply ancestor_prefix|].
    destruct (dirname_shorter p) as [Hsame|Hshort]; [left; exact Hsame|right].
    rewrite <- ancestor_shift.
    destruct (ancestor_prefix k (dirname p)) as [rest Hrest].
    rewrite Hrest in Hshort at 1. rewrite length_app in Hshort. lia.
Qed.

End ProjectRootProperties.

(** * Further properties of the registry *)

Section RegistryFacts.
Context {host : Host}.
Import Py Lsp Registry.

(** The first iteration of an object that is not registered leaves the
    registry as it is. *)
Lemma run_stuff_unregistered (received : option (list byte))
    (recv : PyExc + ClientState * list Event) (s : LangServer) (w : World) :
  langservers w !! _id s = None ->
  let r := run_stuff received recv (s, w) in
  langservers r.2.2 = langservers w
  /\ _id r.2.1 = _id s
  /\ self_ref r.2.1 = self_ref s.
Proof.
  intros Hfree. cbv zeta.
  destruct (registry_editor_call (on_run_stuff received recv) (s, w))
    as (Hid & Href & [Hsame | [Hown _]]); cbn in *.
  - done.
  - rewrite Hfree in Hown. discriminate.
Qed.

(** On closure a process that runs is killed, unless the client has
    sent [exit]. *)
Lemma closure_kills (recv : PyExc + ClientState * list Event)
    (s : LangServer) (w : World) :
  returncode (_process s) = None ->
  state (_lsp_client s) <> EXITED ->
  returncode (_process (run_stuff (Some []) recv (s, w)).2.1)
  = Some (kill_status (_process s)).
Proof.
  intros Hrc Hst.
  unfold run_stuff, _run_stuff_once, _ensure_langserver_process_quits_soon, log.
  run_body. cbn. rewrite Hrc. cbn.
  destruct (decide (state (_lsp_client s) = EXITED)) as [|_]; [done |]. cbn.
  destruct (_is_shutting_down_cleanly s); cbn;
    match goal with
    | |- context [_get_removed_from_langservers (?s1, w)] =>
        destruct (not_registered_after_removal s1 w)
          as (s' & w' & Hrun & _ & Hproc & _ & _ & _);
        rewrite Hrun; cbn
    end; rewrite Hproc; cbn; unfold kill; by rewrite Hrc.
Qed.

(** The first iteration of an object that is not registered, over any
    transport. *)
Lemma loop_run_stuff_unregistered (io : Loop.IO)
    (recv : PyExc + ClientState * list Event) (s : LangServer) (w : World) :
  langservers w !! _id s = None ->
  let r := Loop.run_stuff io recv (s, w) in
  langservers r.2.2 = langservers w
  /\ _id r.2.1 = _id s
  /\ self_ref r.2.1 = self_ref s.
Proof.
  intros Hfree. cbv zeta.
  destruct (loop_run_stuff_cases io recv s w)
    as [(received & _ & ->) | (e & _ & ->)].
  - exact (run_stuff_unregistered received recv s w Hfree).
  - done.
Qed.

Variable windows : bool.
Variable shlex_split : string -> PyExc + list string.
Variable popen : string + list string -> bool -> PopenOutcome.
Variable ref : nat.
Variable client : Client.
Variable io : Loop.IO.
Variable recv : PyExc + ClientState * list Event.

(** The registry after a call: the entries it had, and the new object
    under the call's key when the call returns one it made. *)
Lemma get_lang_server_registry (filetype : FileType.t) (project_root : string)
    (w : World) :
  let o := get_lang_server windows shlex_split popen ref client io recv
             filetype project_root w in
  let key := langserver_id_of filetype project_root in
  (langservers (world o) = langservers w
   /\ (forall r, result o = inr (Some r) ->
         configured filetype = true /\ langservers w !! key = Some r /\ world o = w))
  \/ (configured filetype = true
      /\ langservers w !! key = None
      /\ result o = inr (Some ref)
      /\ langservers (world o) = <[key := ref]> (langservers w)).
Proof.
  cbv zeta. unfold get_lang_server, configured, langserver_id_of.
  destruct (truthy_option (FileType.langserver_command filetype)
            && truthy_option (FileType.langserver_language_id filetype));
    cbn [negb]; [| left; split; [done | intros r [=]]].
  destruct (langservers w !! _) as [r0|] eqn:Hkey;
    [left; split; [done | by intros r [= <-]] |].
  destruct (if windows then _ else _) as [e|command];
    [left; split; [done | intros r [=]] |].
  destruct (popen command windows) as [process| |e];
    [| left; split; [done | intros r [=]] ..].
  match goal with
  | |- context [Loop.run_stuff io recv (?s0, w)] =>
      destruct (loop_run_stuff_unregistered io recv s0 w Hkey)
        as (Hreg & _ & _);
      destruct (Loop.run_stuff io recv (s0, w)) as [[e|[]] [s' w']]
  end; cbn in *.
  - left. split; [done | intros r [=]].
  - right. rewrite Hreg. done.
Qed.

End RegistryFacts.

Section RegistryProperties.
Context {host : Host}.
Import Py Lsp Registry.


(** X22.  A new session is registered after its first iteration and
    whatever that iteration read.  For a configured filetype whose key is
    free and whose process starts: when the two calls on the transport
    return in the first [run_stuff], the call returns the new object and
    registers it under the key, all other entries staying; when the first
    read brought no closure, the timer of [run_stuff] is set; when it
    brought closure, no timer of [run_stuff] is set and a process that
    still runs is killed (the client cannot be in state [EXITED] yet), but
    the object is registered all the same.  When the write or the read
    raises, [get_lang_server] raises the same exception: nothing is
    registered, no timer is set, and the object it made is left behind. *)
Theorem new_session_is_registered_whatever_it_read
    (windows : bool) (shlex_split : string -> PyExc + list string)
    (popen : string + list string -> bool -> PopenOutcome)
    (ref : nat) (client : Client) (io : Loop.IO)
    (recv : PyExc + ClientState * list Event)
    (filetype : FileType.t) (project_root : string) (w : World)
    (process : Popen) :
  configured filetype = true ->
  langservers w !! langserver_id_of filetype project_root = None ->
  starts windows shlex_split popen filetype process ->
  let o := get_lang_server windows shlex_split popen ref client io recv
             filetype project_root w in
  let key := langserver_id_of filetype project_root in
  (forall received_bytes, io = Loop.returns received_bytes ->
     result o = inr (Some ref)
     /\ langservers (world o) = <[key := ref]> (langservers w)
     /\ exists s,
          created o = Some s
          /\ self_ref s = ref /\ _id s = key
          /\ _is_in_langservers s (world o) = true
          /\ (received_bytes <> Some [] ->
              scheduled (world o) = (scheduled w ++ [(50, run_stuff_cb)])%list)
          /\ (received_bytes = Some [] ->
              (scheduled (world o) = scheduled w
               \/ scheduled (world o)
                  = (scheduled w ++ [(500, ensure_quits_cb)])%list)
              /\ (returncode process = None -> state client <> EXITED ->
                  returncode (_process s) = Some (kill_status process))))
  /\ (forall e, Loop.raises io e ->
        result o = inl e
        /\ world o = w
        /\ exists s, created o = Some s /\ _process s = process).
Proof.
  intros Hconf Hfree Hstarts. cbv zeta.
  unfold configured, langserver_id_of, starts in *. cbv zeta in Hstarts.
  unfold get_lang_server. rewrite Hconf. cbn [negb]. rewrite Hfree.
  assert ((if windows then inr (inl (default "" (FileType.langserver_command filetype)))
           else match shlex_split (default "" (FileType.langserver_command filetype)) with
                | inl e => inl e
                | inr words => inr (inr words)
                end)
          = inr (if windows
                 then inl (default "" (FileType.langserver_command filetype))
                 else inr (default []
                             (match shlex_split
                                      (default "" (FileType.langserver_command filetype))
                              with inr words => Some words | _ => None end)))
          /\ popen (if windows
                   then inl (default "" (FileType.langserver_command filetype))
                   else inr (default []
                               (match shlex_split
                                        (default "" (FileType.langserver_command filetype))
                                with inr words => Some words | _ => None end)))
               windows = popen_started process) as [-> ->].
  { destruct windows; [done |]. destruct Hstarts as (words & -> & Hp). done. }
  match goal with
  | |- context [Loop.run_stuff io recv (?s0, w)] => set (fresh := s0)
  end.
  destruct (loop_run_stuff_cases io recv fresh w)
    as [(received & Hio & Hrun) | (e & He & Hrun)]; rewrite Hrun; split.
  - (* both calls return *)
    intros received_bytes Hio'. rewrite Hio' in Hio. injection Hio as <-.
    destruct (run_stuff_unregistered received_bytes recv fresh w Hfree)
      as (Hreg & Hid & Href).
    destruct (run_stuff_timers received_bytes recv fresh w)
      as (Hret & Hdata & Hclosed).
    pose proof (closure_kills recv fresh w) as Hkill.
    destruct (run_stuff received_bytes recv (fresh, w)) as [[e|[]] [s' w']] eqn:Hrun';
      cbn in *; [discriminate Hret |].
    split; [done |]. rewrite Hreg. split; [done |].
    exists s'. split; [done |]. split; [done |]. split; [done |].
    split.
    { unfold _is_in_langservers. cbn. rewrite Hid, Href, lookup_insert_eq.
      by apply bool_decide_eq_true_2. }
    split; [exact Hdata |].
    intros Hrecv. split; [by apply Hclosed |].
    intros Hrc Hst. subst received_bytes. rewrite Hrun' in Hkill. by apply Hkill.
  - intros e [Hw | [_ Hr]]; subst io; [discriminate Hw | discriminate Hr].
  - intros received_bytes ->.
    destruct He as [Hw | [_ Hr]]; [discriminate Hw | discriminate Hr].
  - intros e' He'.
    assert (e' = e) as ->.
    { destruct He as [Hw | [Hw Hr]], He' as [Hw' | [Hw' Hr']]; congruence. }
    cbn. split; [done |]. split; [done |]. by eexists.
Qed.

(** X23.  [get_lang_server] never displaces a session: every key that was
    registered keeps its object.  An object the call returns is registered
    under the call's key afterwards.  When the call returns [None] it has
    made no object, has logged one record saying why (at level [INFO]
    when the filetype is not configured, at level [ERROR] when the process
    did not start), and has left everything outside as it was; when it
    raises, the registry is as it was. *)
Theorem get_lang_server_keeps_registered_sessions
    (windows : bool) (shlex_split : string -> PyExc + list string)
    (popen : string + list string -> bool -> PopenOutcome)
    (ref : nat) (client : Client) (io : Loop.IO)
    (recv : PyExc + ClientState * list Event)
    (filetype : FileType.t) (project_root : string) (w : World) :
  let o := get_lang_server windows shlex_split popen ref client io recv
             filetype project_root w in
  (forall k r, langservers w !! k = Some r -> langservers (world o) !! k = Some r)
  /\ (forall r, result o = inr (Some r) ->
        langservers (world o) !! langserver_id_of filetype project_root = Some r)
  /\ (result o = inr None ->
        created o = None /\ world o = w
        /\ exists record, logged o = [record]
             /\ (levelno record = INFO <-> configured filetype = false)
             /\ (configured filetype = true -> levelno record = ERROR))
  /\ (forall e, result o = inl e -> langservers (world o) = langservers w).
Proof.
  cbv zeta.
  pose proof (get_lang_server_registry windows shlex_split popen ref client
                io recv filetype project_root w) as Hreg.
  cbv zeta in Hreg. split; [| split; [| split]].
  - intros k r Hk. destruct Hreg as [[-> _] | (_ & Hfree & _ & ->)]; [done |].
    rewrite lookup_insert_ne; [done |]. intros <-. rewrite Hfree in Hk. discriminate.
  - intros r Hres. destruct Hreg as [[_ Hold] | (_ & _ & Hnew & ->)].
    + destruct (Hold r Hres) as (_ & Hkey & ->). done.
    + rewrite Hnew in Hres. injection Hres as <-. apply lookup_insert_eq.
  - clear Hreg. unfold get_lang_server, configured.
    destruct (truthy_option (FileType.langserver_command filetype)
              && truthy_option (FileType.langserver_language_id filetype));
      cbn [negb].
    2:{ intros _. split; [done |]. split; [done |]. eexists. split; [done |].
        split; [done | intros [=]]. }
    destruct (langservers w !! _) as [r0|]; [intros [=] |].
    destruct (if windows then _ else _) as [e|command]; [intros [=] |].
    destruct (popen command windows) as [process| |e]; [| | intros [=]].
    + destruct (Loop.run_stuff io recv _) as [[e|[]] [s' w']]; intros [=].
    + intros _. split; [done |]. split; [done |]. eexists. split; [done |].
      cbn. split; [split; intros [=] | done].
  - intros e Hres. destruct Hreg as [[Hsame _] | (_ & _ & Hnew & _)]; [done |].
    rewrite Hnew in Hres. discriminate.
Qed.

End RegistryProperties.

(** * Further properties of the plugin *)

Section Attachments.
Context {host : Host}.
Import Py Lsp Registry Plugin.

Lemma attachments_step_refl st : attachments_step st st.
Proof. by split. Qed.

Lemma attachments_step_trans st1 st2 st3 :
  attachments_step st1 st2 -> attachments_step st2 st3 -> attachments_step st1 st3.
Proof. intros [? ?] [? ?]. split; congruence. Qed.

Ltac attachments_atom := intros; split; reflexivity.
Ltac attachments_body :=
  steps_body attachments_step_refl attachments_step_trans attachments_atom.

Lemma attachments_handle_lsp_event ev :
  always_steps attachments_step (_handle_lsp_event ev).
Proof.
  unfold _handle_lsp_event, _send_tab_opened_message,
    _get_removed_from_langservers, call_client, log.
  destruct ev; attachments_body.
Qed.

Lemma attachments_run_stuff received recv :
  always_steps attachments_step (run_stuff received recv).
Proof.
  unfold run_stuff, _run_stuff_once, dispatch, log_exception,
    _ensure_langserver_process_quits_soon, _get_removed_from_langservers, log.
  pose proof attachments_handle_lsp_event as Hev.
  attachments_body.
Qed.

(** Attaching a tab that has a path. *)
Lemma open_tab_attaches (s : LangServer) (w : World) (t : nat) :
  has_path (tabs_heap w) t ->
  exists s',
    open_tab t (s, w) = (inr tt, (s', w))
    /\ tabs_opened s' = (tabs_opened s ++ [t])%list.
Proof.
  intros Hpath. unfold open_tab, log. run_body. cbn.
  destruct (decide (state (_lsp_client s) = NORMAL)).
  - rewrite send_tab_opened_message_queues by done. eexists. by split.
  - eexists. by split.
Qed.

(** A call that makes a new object, the calls on the transport
    returning: what it returns and leaves. *)
Lemma get_lang_server_makes
    (windows : bool) (shlex_split : string -> PyExc + list string)
    (popen : string + list string -> bool -> PopenOutcome)
    (ref : nat) (client : Client) (received_bytes : option (list byte))
    (recv : PyExc + ClientState * list Event)
    (filetype : FileType.t) (project_root : string) (w : World)
    (process : Popen) :
  configured filetype = true ->
  langservers w !! langserver_id_of filetype project_root = None ->
  starts windows shlex_split popen filetype process ->
  exists s w',
    get_lang_server windows shlex_split popen ref client
      (Loop.returns received_bytes) recv filetype project_root w
    = {| result := inr (Some ref); created := Some s; logged := [];
         world := set_langservers
                    (<[langserver_id_of filetype project_root := ref]> (langservers w))
                    w' |}
    /\ self_ref s = ref
    /\ tabs_opened s = []
    /\ tabs_heap w' = tabs_heap w.
Proof.
  intros Hconf Hfree Hstarts.
  unfold configured, langserver_id_of, starts in *. cbv zeta in Hstarts.
  unfold get_lang_server. rewrite Hconf. cbn [negb]. rewrite Hfree.
  assert ((if windows then inr (inl (default "" (FileType.langserver_command filetype)))
           else match shlex_split (default "" (FileType.langserver_command filetype)) with
                | inl e => inl e
                | inr words => inr (inr words)
                end)
          = inr (if windows
                 then inl (default "" (FileType.langserver_command filetype))
                 else inr (default []
                             (match shlex_split
                                      (default "" (FileType.langserver_command filetype))
                              with inr words => Some words | _ => None end)))
          /\ popen (if windows
                   then inl (default "" (FileType.langserver_command filetype))
                   else inr (default []
                               (match shlex_split
                                        (default "" (FileType.langserver_command filetype))
                                with inr words => Some words | _ => None end)))
               windows = popen_started process) as [-> ->].
  { destruct windows; [done |]. destruct Hstarts as (words & -> & Hp). done. }
  change (Loop.run_stuff (Loop.returns received_bytes) recv)
    with (run_stuff received_bytes recv).
  match goal with
  | |- context [run_stuff received_bytes recv (?s0, w)] =>
      destruct (run_stuff_unregistered received_bytes recv s0 w Hfree)
        as (Hreg & _ & Href);
      destruct (run_stuff_timers received_bytes recv s0 w) as (Hret & _ & _);
      destruct (attachments_run_stuff received_bytes recv (s0, w)) as (Htabs & Hheap);
      destruct (run_stuff received_bytes recv (s0, w)) as [[e|[]] [s' w']]
  end; cbn in *; [discriminate Hret |].
  exists s', w'. rewrite Hreg. done.
Qed.

End Attachments.

Section PluginProperties.
Context {host : Host}.
Import Py Lsp PosixPath Registry Plugin.

(** X24.  Two tabs of one project are served by one session, on a POSIX
    platform.  When two file tabs of a configured filetype come up whose
    paths have the same project root, no session being registered for
    it, the process starting and the calls on the transport returning in
    the session's first iteration, each [on_new_tab] returns; the
    first makes the session and registers it, the second makes no object
    and starts nothing, whatever it would have met; the one session has
    both tabs opened, in the order they came, and the callbacks of both
    tabs are bound to it. *)
Theorem tabs_of_one_project_share_a_session
    (path_exists : string -> bool)
    (shlex_split : string -> PyExc + list string)
    (popen : string + list string -> bool -> PopenOutcome)
    (fresh1 fresh2 : Fresh) (received_bytes : option (list byte))
    (t1 t2 : nat) (p1 p2 root : string)
    (filetype : FileType.t) (process : Popen) (ed : Editor) :
  path (tabs_heap (outside ed) t1) = Some p1 ->
  path (tabs_heap (outside ed) t2) = Some p2 ->
  find_project_root path_exists (S (String.length p1)) p1 = Some (inr root) ->
  find_project_root path_exists (S (String.length p2)) p2 = Some (inr root) ->
  configured filetype = true ->
  langservers (outside ed) !! langserver_id_of filetype root = None ->
  starts false shlex_split popen filetype process ->
  first_io fresh1 = Loop.returns received_bytes ->
  exists ed1 ed2 s,
    on_new_tab path_exists shlex_split popen fresh1
      (file_tab t1 (Some filetype)) ed = Some (inr tt, ed1)
    /\ on_new_tab path_exists shlex_split popen fresh2
         (file_tab t2 (Some filetype)) ed1 = Some (inr tt, ed2)
    /\ objects ed2 = <[fresh_ref fresh1 := s]> (objects ed)
    /\ langservers (outside ed2)
       = <[langserver_id_of filetype root := fresh_ref fresh1]>
           (langservers (outside ed))
    /\ tabs_opened s = [t1; t2]
    /\ bindings ed2
       = (bindings ed ++ [(t1, fresh_ref fresh1); (t2, fresh_ref fresh1)])%list
    /\ plugin_log ed2 = plugin_log ed.
Proof.
  intros Hp1 Hp2 Hroot1 Hroot2 Hconf Hfree Hstarts Hio.
  destruct (get_lang_server_makes false shlex_split popen
              (fresh_ref fresh1) (fresh_client fresh1) received_bytes
              (first_recv fresh1) filetype root (outside ed) process
              Hconf Hfree Hstarts)
    as (s0 & w' & Hget & Href & Htabs0 & Hheap).
  rewrite <- Hio in Hget.
  set (key := langserver_id_of filetype root) in *.
  set (w1 := set_langservers (<[key := fresh_ref fresh1]> (langservers (outside ed))) w')
    in *.
  assert (tabs_heap w1 = tabs_heap (outside ed)) as Hheap1 by exact Hheap.
  destruct (open_tab_attaches s0 w1 t1) as (s1 & Hopen1 & Htabs1).
  { unfold has_path. rewrite Hheap1, Hp1. by eexists. }
  destruct (open_tab_attaches s1 w1 t2) as (s2 & Hopen2 & Htabs2).
  { unfold has_path. rewrite Hheap1, Hp2. by eexists. }
  eexists. eexists. exists s2.
  split.
  { unfold on_new_tab. rewrite Hp1, Hroot1. cbv zeta. rewrite Hget.
    cbn [result created logged world objects bindings plugin_log outside].
    rewrite Href, lookup_insert_eq, Hopen1. reflexivity. }
  split.
  { unfold on_new_tab.
    cbn [objects bindings plugin_log outside]. rewrite Hheap1, Hp2, Hroot2.
    cbv zeta.
    assert (get_lang_server false shlex_split popen (fresh_ref fresh2)
              (fresh_client fresh2) (first_io fresh2) (first_recv fresh2)
              filetype root w1
            = {| result := inr (Some (fresh_ref fresh1)); created := None;
                 logged := []; world := w1 |}) as ->.
    { unfold get_lang_server. unfold configured in Hconf. rewrite Hconf.
      cbn [negb]. fold (langserver_id_of filetype root). fold key.
      subst w1. cbn [langservers set_langservers]. by rewrite lookup_insert_eq. }
    cbn [result created logged world objects bindings plugin_log outside].
    rewrite lookup_insert_eq, Hopen2. reflexivity. }
  cbn [objects bindings plugin_log outside].
  split; [by rewrite !insert_insert_eq |].
  split; [reflexivity |].
  split; [by rewrite Htabs2, Htabs1, Htabs0 |].
  split; [by rewrite <- List.app_assoc |].
  by rewrite !List.app_nil_r.
Qed.

End PluginProperties.

(** * The further properties at concrete inputs *)

Section SessionInstances.
Import Py Lsp.

Lemma session_only_deletes_own_entry_witness :
  let after := langservers
                 (editor_calls (host := ascii_host) [on_close_tab 1]
                    (stale_session, demo_world "")).2.2 in
  after !! demo_id = Some 7%nat
  /\ after !! ("clangd", None, "/proj") = None.
Proof.
  destruct (session_only_deletes_own_entry (host := ascii_host)
              [on_close_tab 1] stale_session (demo_world ""))
    as (Hother & Hkey & _ & _).
  split.
  - apply (Hkey 7%nat); [discriminate | vm_compute; reflexivity].
  - rewrite (Hother ("clangd", None, "/proj")); [vm_compute; reflexivity | discriminate].
Defined.

Lemma request_completions_refused_witness :
  let s := demo_session NOT_INITIALIZED in
  exists s',
    request_completions (host := ascii_host) 1 "1.7" (s, demo_world "x = pri")
    = (inr tt, (s', demo_world "x = pri"))
    /\ _lsp_client s' = _lsp_client s
    /\ sent s' = sent s
    /\ _completion_infos s' = _completion_infos s
    /\ exists record, _log s' = (_log s ++ [record])%list
                      /\ levelno record = WARNING.
Proof.
  apply (request_completions_refused (host := ascii_host)
           (demo_session NOT_INITIALIZED) (demo_world "x = pri") 1 "1.7").
  discriminate.
Defined.

Lemma completion_request_then_response_witness :
  let s := demo_session NORMAL in
  let w := demo_world "x = pri" in
  let info := {| tab := 1; cursor_pos := "1.7" |} in
  exists s1 s2 entries,
    request_completions (host := ascii_host) 1 "1.7" (s, w) = (inr tt, (s1, w))
    /\ queued (_lsp_client s1)
       = (queued (_lsp_client s)
          ++ [completions 0 "file:///proj/a.py" {| line := 0; character := 7 |}])%list
    /\ _completion_infos s1 = <[0 := info]> (_completion_infos s)
    /\ _handle_lsp_event (host := ascii_host) (Completion 0 [print_item]) (s1, w)
       = (inr tt,
          (s2, add_generated (1%nat, "<<AutoCompletionResponse>>", (info, entries)) w))
    /\ _completion_infos s2 = _completion_infos s
    /\ map Response.display_text entries ≡ₚ map label [print_item]
    /\ Forall (fun entry => Response.replace_end entry = "1.7") entries
    /\ protocol_violation s2 (Completion 0 [print_item]).
Proof.
  apply (completion_request_then_response (host := ascii_host)
           (demo_session NORMAL) (demo_world "x = pri") 1 "1.7" "/proj/a.py"
           {| line := 0; character := 7 |} [print_item]).
  - reflexivity.
  - reflexivity.
  - vm_compute. reflexivity.
  - vm_compute. reflexivity.
  - vm_compute. reflexivity.
Defined.

Lemma unparsable_change_uses_up_a_version_witness :
  let s := demo_session NORMAL in
  let first := send_change_events (host := ascii_host) 1 [bad_change]
                 (s, demo_world "") in
  let second := send_change_events (host := ascii_host) 1 [demo_change] first.2 in
  first.1 = inl ValueError
  /\ sent first.2.1 = sent s
  /\ second.1 = inr tt
  /\ sent second.2.1
     = (sent s
        ++ [did_change "file:///proj/a.py" (_version_counter s + 1)
              [{| range_start := {| line := 0; character := 0 |};
                  range_end := {| line := 0; character := 3 |};
                  change_text := "abc" |}]])%list.
Proof.
  apply (unparsable_change_uses_up_a_version (host := ascii_host)
           (demo_session NORMAL) (demo_world "") 1 "/proj/a.py"
           [bad_change] [demo_change] ValueError).
  - reflexivity.
  - reflexivity.
  - vm_compute. reflexivity.
  - vm_compute. reflexivity.
Defined.


Lemma close_tab_when_unregistered_witness :
  exists s',
    close_tab 1 (stale_session, demo_world "")
    = (inr tt, (s', demo_world ""))
    /\ tabs_opened s' = tabs_opened stale_session
    /\ sent s' = sent stale_session
    /\ _process s' = _process stale_session
    /\ _is_shutting_down_cleanly s' = _is_shutting_down_cleanly stale_session.
Proof.
  apply (close_tab_when_unregistered 
           stale_session (demo_world "") 1).
  vm_compute. reflexivity.
Defined.

Lemma close_last_tab_witness :
  let s := one_tab_session in
  let w := demo_world "" in
  exists s',
    close_tab 1 (s, w)
    = (inr tt, (s', set_langservers (delete (_id s) (langservers w)) w))
    /\ tabs_opened s' = []
    /\ _is_shutting_down_cleanly s' = true
    /\ queued (_lsp_client s') = (queued (_lsp_client s) ++ [shutdown])%list
    /\ _process s' = _process s.
Proof.
  destruct (close_last_tab one_tab_session (demo_world "") 1)
    as (s' & Hrun & Htabs & Hclean & Hnormal & _).
  - vm_compute. reflexivity.
  - reflexivity.
  - exists s'. split; [exact Hrun |]. split; [exact Htabs |].
    split; [exact Hclean |]. apply Hnormal. reflexivity.
Defined.

Lemma close_tab_with_others_open_witness :
  (exists s',
     close_tab 1 (two_tab_session, demo_world "")
     = (inr tt, (s', demo_world ""))
     /\ tabs_opened s' = [2%nat]
     /\ sent s' = sent two_tab_session
     /\ _process s' = _process two_tab_session
     /\ _is_shutting_down_cleanly s' = _is_shutting_down_cleanly two_tab_session)
  /\ (exists s',
        close_tab 5 (two_tab_session, demo_world "")
        = (inl ValueError, (s', demo_world ""))
        /\ tabs_opened s' = tabs_opened two_tab_session
        /\ sent s' = sent two_tab_session
        /\ _process s' = _process two_tab_session).
Proof.
  split.
  - destruct (close_tab_with_others_open 
                two_tab_session (demo_world "") 1) as (Hstays & _).
    + vm_compute. reflexivity.
    + apply (Hstays 2%nat []). reflexivity.
  - destruct (close_tab_with_others_open 
                two_tab_session (demo_world "") 5) as (_ & Hnever).
    + vm_compute. reflexivity.
    + apply Hnever. intros Hin. vm_compute in Hin.
      repeat (apply elem_of_cons in Hin as [Hin | Hin]; [discriminate Hin |]).
      by apply not_elem_of_nil in Hin.
Defined.

Lemma process_end_is_supervised_witness :
  let r := _ensure_langserver_process_quits_soon (host := ascii_host)
             (demo_session NORMAL, demo_world "") in
  let r' := _ensure_langserver_process_quits_soon (host := ascii_host)
              (stale_session, demo_world "") in
  (returncode (_process r.2.1) = Some (-9)
   /\ termination_record (host := ascii_host) false (-9) ∈ _log r.2.1
   /\ (exists record, record ∈ _log r.2.1 /\ levelno record = WARNING)
   /\ _is_in_langservers r.2.1 r.2.2 = false
   /\ scheduled r.2.2 = [])
  /\ (_process r'.2.1 = demo_process
      /\ r'.2.2 = add_scheduled (500, ensure_quits_cb) (demo_world "")
      /\ Forall (fun record => levelno record = DEBUG)
           (drop (length (_log stale_session)) (_log r'.2.1))).
Proof.
  split.
  - destruct (process_end_is_supervised (host := ascii_host)
                (demo_session NORMAL) (demo_world "")) as (_ & _ & _ & Hkilled).
    apply Hkilled; [reflexivity | discriminate].
  - destruct (process_end_is_supervised (host := ascii_host)
                stale_session (demo_world "")) as (_ & _ & Hwaits & _).
    apply Hwaits; reflexivity.
Defined.

Lemma run_stuff_sets_timer_unless_closed_witness :
  let run io := Loop.run_stuff (host := ascii_host) io (inl ValueError)
                  (demo_session NORMAL, demo_world "") in
  let broken := {| Loop.written := inl OSError; Loop.read := inr None |} in
  let reset := {| Loop.written := inr tt; Loop.read := inl OSError |} in
  scheduled (run (Loop.returns None)).2.2 = [(50, run_stuff_cb)]
  /\ (scheduled (run (Loop.returns (Some []))).2.2 = []
      \/ scheduled (run (Loop.returns (Some []))).2.2 = [(500, ensure_quits_cb)])
  /\ ((run broken).1 = inl OSError /\ scheduled (run broken).2.2 = [])
  /\ ((run reset).1 = inl OSError /\ scheduled (run reset).2.2 = []).
Proof.
  cbv zeta. split; [| split; [| split]].
  - destruct (run_stuff_sets_timer_unless_closed (host := ascii_host)
                (Loop.returns None) (inl ValueError) (demo_session NORMAL)
                (demo_world "")) as (Hreturns & _).
    destruct (Hreturns None eq_refl) as (_ & Hdata & _).
    apply Hdata. discriminate.
  - destruct (run_stuff_sets_timer_unless_closed (host := ascii_host)
                (Loop.returns (Some [])) (inl ValueError) (demo_session NORMAL)
                (demo_world "")) as (Hreturns & _).
    destruct (Hreturns (Some []) eq_refl) as (_ & _ & Hclosed).
    apply Hclosed. reflexivity.
  - destruct (run_stuff_sets_timer_unless_closed (host := ascii_host)
                {| Loop.written := inl OSError; Loop.read := inr None |}
                (inl ValueError) (demo_session NORMAL) (demo_world ""))
      as (_ & Hraises).
    destruct (Hraises OSError) as (Hres & Hw & _); [left; reflexivity |].
    split; [exact Hres |]. rewrite Hw. reflexivity.
  - destruct (run_stuff_sets_timer_unless_closed (host := ascii_host)
                {| Loop.written := inr tt; Loop.read := inl OSError |}
                (inl ValueError) (demo_session NORMAL) (demo_world ""))
      as (_ & Hraises).
    destruct (Hraises OSError) as (Hres & Hw & _);
      [right; split; reflexivity |].
    split; [exact Hres |]. rewrite Hw. reflexivity.
Defined.

Lemma completion_entries_are_sorted_witness :
  exists s' entries ordered,
    _handle_lsp_event (host := ascii_host) (Completion 3 tied_items)
      (pri_session, demo_world "x = pri")
    = (inr tt,
       (s', add_generated (tab pri_request, "<<AutoCompletionResponse>>",
                           (pri_request, entries)) (demo_world "x = pri")))
    /\ map Response.display_text entries = map label ordered
    /\ map Response.documentation entries
       = map (get_completion_item_doc (host := ascii_host)) ordered
    /\ ordered ≡ₚ tied_items
    /\ StronglySorted key_le ordered
    /\ (forall k, with_key k ordered = with_key k tied_items).
Proof.
  apply (completion_entries_are_sorted (host := ascii_host) pri_session
           (demo_world "x = pri") 3 tied_items pri_request).
  - vm_compute. reflexivity.
  - vm_compute. reflexivity.
Defined.

(** The order of the entries for [tied_items]: the two candidates with
    sort text [b] come behind the one sorted by its label, in the order the
    server sent them. *)
Example tied_items_entries :
  exists s' entries,
    _handle_lsp_event (host := ascii_host) (Completion 3 tied_items)
      (pri_session, demo_world "x = pri")
    = (inr tt,
       (s', add_generated (tab pri_request, "<<AutoCompletionResponse>>",
                           (pri_request, entries)) (demo_world "x = pri")))
    /\ map Response.display_text entries = ["apple"; "zebra"; "print(value)"; "mango"].
Proof. eexists. eexists. split; [vm_compute; reflexivity | reflexivity]. Qed.

End SessionInstances.

Section RunnerInstances.
Import Py Run RunMore.

Lemma polls_take_ten_at_a_time_witness :
  let rounds := [("after#13", 12%nat); ("after#14", 0%nat); ("after#15", 12%nat)] in
  exists self',
    polls rounds thirteen_items running_executor = ([50; 50; 50], None, self', [])
    /\ inserted (calls self')
       = (replicate 10 ("line" +:+ newline) ++ ["last"; "The process completed successfully."])%list
    /\ (handled (map snd rounds) (length thirteen_items) <= 10 * 3)%nat
    /\ handled [12; 12]%nat (length thirteen_items) = Nat.min (10 * 2) 13
    /\ handled [12]%nat (length thirteen_items) = Nat.min (10 * 1) 13
    /\ _timeout_id self' = Some "after#15".
Proof.
  destruct (polls_take_ten_at_a_time
              [("after#13", 12%nat); ("after#14", 0%nat); ("after#15", 12%nat)]
              thirteen_items running_executor)
    as (self' & Hrun & Htexts & Hmax & _ & Htimer).
  { unfold thirteen_items. apply Forall_app. split.
    - apply Forall_replicate. left. right. left. reflexivity.
    - constructor; [left; right; left; reflexivity |].
      constructor; [left; left; reflexivity |].
      constructor; [right; reflexivity | constructor]. }
  destruct (polls_take_ten_at_a_time [("after#13", 12%nat); ("after#15", 12%nat)]
              thirteen_items running_executor)
    as (_ & _ & _ & _ & Htwo & _).
  { unfold thirteen_items. apply Forall_app. split.
    - apply Forall_replicate. left. right. left. reflexivity.
    - constructor; [left; right; left; reflexivity |].
      constructor; [left; left; reflexivity |].
      constructor; [right; reflexivity | constructor]. }
  destruct (polls_take_ten_at_a_time [("after#13", 12%nat)]
              thirteen_items running_executor)
    as (_ & _ & _ & _ & Hone & _).
  { unfold thirteen_items. apply Forall_app. split.
    - apply Forall_replicate. left. right. left. reflexivity.
    - constructor; [left; right; left; reflexivity |].
      constructor; [left; left; reflexivity |].
      constructor; [right; reflexivity | constructor]. }
  exists self'. split; [exact Hrun |]. split; [exact Htexts |].
  split; [exact Hmax |].
  split; [apply Htwo; repeat constructor |].
  split; [apply Hone; repeat constructor |].
  apply Htimer. discriminate.
Defined.

Lemma output_chunk_keeps_its_lines_witness :
  let text := "a" +:+ newline +:+ "b" +:+ newline in
  In ("output", text) (_thread_target "prog" (ran ["banner"; crlf_chunk] 0))
  /\ (exists self',
        _handle_queued_item "output" text running_executor = inr self'
        /\ inserted (calls self') = [text]
        /\ In (add_links "end - 1 char linestart - 2 lines" "end - 1 char linestart")
              (calls self'))
  /\ count_newlines text = 2%nat
  /\ (String.length text + 2)%nat = 6%nat.
Proof.
  destruct (output_chunk_keeps_its_lines "prog" ["banner"; crlf_chunk] 0 crlf_chunk
              running_executor) as (Hput & Hshown & Hlines & Hlength & _).
  - right. left. reflexivity.
  - split; [exact Hput |]. split; [exact Hshown |].
    split; [exact Hlines | exact Hlength].
Defined.

Lemma stop_returns_without_reading_witness :
  exists self',
    stop false true no_exception [("output", "late")] running_executor
    = stop_returned self'
    /\ inserted (calls self') = inserted (calls running_executor)
    /\ _timeout_id self' = None
    /\ (In (event_generate "<<FileSystemChanged>>") (calls self')
        <-> In (event_generate "<<FileSystemChanged>>") (calls running_executor)
            \/ (true = false /\ _shell_process running_executor <> None)).
Proof.
  apply (stop_returns_without_reading false true no_exception
           [("output", "late")] running_executor).
  left. reflexivity.
Defined.

End RunnerInstances.

Section ProjectRootInstances.
Import Py PosixPath.

Lemma find_project_root_is_nearest_marked_witness :
  let p := "/home/me/proj/src/a.py" in
  exists k,
    find_project_root demo_fs 30 p = Some (inr (ancestor (S k) p))
    /\ (forall j, (j < k)%nat -> has_root_thing demo_fs (ancestor (S j) p) = false)
    /\ (has_root_thing demo_fs (ancestor (S k) p) = true
        \/ (k = O
            /\ (dirname p = p
                \/ forall j, has_root_thing demo_fs (ancestor (S j) p) = false))).
Proof.
  apply (find_project_root_is_nearest_marked demo_fs 30 "/home/me/proj/src/a.py").
  - reflexivity.
  - vm_compute. lia.
Defined.

Lemma find_project_root_is_above_the_path_witness :
  find_project_root demo_fs 30 "src/a.py" = Some (inl AssertionError)
  /\ (exists rest, "/home/me/proj/src/a.py" = "/home/me/proj" +:+ rest).
Proof.
  split.
  - destruct (find_project_root_is_above_the_path demo_fs 30 "src/a.py")
      as (Hrelative & _).
    apply Hrelative. reflexivity.
  - destruct (find_project_root_is_above_the_path demo_fs 30 "/home/me/proj/src/a.py")
      as (_ & Habove).
    destruct (Habove "/home/me/proj") as (_ & Hpart & _);
      [vm_compute; reflexivity | exact Hpart].
Defined.

End ProjectRootInstances.

Section RegistryInstances.
Import Py Lsp Registry.


Lemma new_session_is_registered_whatever_it_read_witness :
  let o := demo_get_lang_server python_filetype "/proj" fresh_world in
  let o' := get_lang_server (host := ascii_host) false (fun command => inr [command])
              (fun _ _ => popen_started demo_process) 7
              (demo_client NOT_INITIALIZED)
              {| Loop.written := inl OSError; Loop.read := inr None |}
              (inr (NOT_INITIALIZED, [])) python_filetype "/proj" fresh_world in
  let key : LangServerId := ("pyls", None, "/proj") in
  (result o = inr (Some 7%nat)
   /\ langservers (world o) = <[key := 7%nat]> (langservers fresh_world)
   /\ exists s,
        created o = Some s
        /\ _is_in_langservers s (world o) = true
        /\ (scheduled (world o) = []
            \/ scheduled (world o) = [(500, ensure_quits_cb)])
        /\ returncode (_process s) = Some (-9))
  /\ (result o' = inl OSError /\ world o' = fresh_world).
Proof.
  split.
  - destruct (new_session_is_registered_whatever_it_read (host := ascii_host)
                false (fun command => inr [command])
                (fun _ _ => popen_started demo_process) 7
                (demo_client NOT_INITIALIZED) (Loop.returns (Some []))
                (inr (NOT_INITIALIZED, []))
                python_filetype "/proj" fresh_world demo_process)
      as (Hreturns & _).
    + reflexivity.
    + vm_compute. reflexivity.
    + exists ["pyls"]. split; reflexivity.
    + destruct (Hreturns (Some []) eq_refl)
        as (Hres & Hreg & s & Hmade & _ & _ & Hin & _ & Hclosed).
      split; [exact Hres |]. split; [exact Hreg |].
      exists s. split; [exact Hmade |]. split; [exact Hin |].
      destruct (Hclosed eq_refl) as (Htimers & Hkilled).
      split; [exact Htimers |]. apply Hkilled; [reflexivity | discriminate].
  - destruct (new_session_is_registered_whatever_it_read (host := ascii_host)
                false (fun command => inr [command])
                (fun _ _ => popen_started demo_process) 7
                (demo_client NOT_INITIALIZED)
                {| Loop.written := inl OSError; Loop.read := inr None |}
                (inr (NOT_INITIALIZED, []))
                python_filetype "/proj" fresh_world demo_process)
      as (_ & Hraises).
    + reflexivity.
    + vm_compute. reflexivity.
    + exists ["pyls"]. split; reflexivity.
    + destruct (Hraises OSError) as (Hres & Hw & _); [left; reflexivity |].
      split; [exact Hres | exact Hw].
Defined.

Lemma get_lang_server_keeps_registered_sessions_witness :
  let o := demo_get_lang_server python_filetype "/proj" (demo_world "") in
  let o' := demo_get_lang_server python_filetype "/other" (demo_world "") in
  langservers (world o') !! demo_id = Some 7%nat
  /\ langservers (world o) !! langserver_id_of python_filetype "/proj" = Some 7%nat.
Proof.
  split.
  - destruct (get_lang_server_keeps_registered_sessions (host := ascii_host)
                false (fun command => inr [command])
                (fun _ _ => popen_started demo_process) 7
                (demo_client NOT_INITIALIZED) (Loop.returns (Some []))
                (inr (NOT_INITIALIZED, []))
                python_filetype "/other" (demo_world "")) as (Hkept & _).
    apply Hkept. vm_compute. reflexivity.
  - destruct (get_lang_server_keeps_registered_sessions (host := ascii_host)
                false (fun command => inr [command])
                (fun _ _ => popen_started demo_process) 7
                (demo_client NOT_INITIALIZED) (Loop.returns (Some []))
                (inr (NOT_INITIALIZED, []))
                python_filetype "/proj" (demo_world "")) as (_ & Hreturned & _).
    apply Hreturned. vm_compute. reflexivity.
Defined.

End RegistryInstances.

Section PluginInstances.
Import Py Lsp PosixPath Registry Plugin.

Lemma tabs_of_one_project_share_a_session_witness :
  let on_new_tab :=
    on_new_tab (host := ascii_host) demo_fs (fun command => inr [command])
      (fun _ _ => popen_started demo_process) in
  exists ed1 ed2 s,
    on_new_tab (demo_fresh 7) (file_tab 1 (Some python_filetype)) empty_editor
    = Some (inr tt, ed1)
    /\ on_new_tab (demo_fresh 8) (file_tab 2 (Some python_filetype)) ed1
       = Some (inr tt, ed2)
    /\ objects ed2 = <[fresh_ref (demo_fresh 7) := s]> (objects empty_editor)
    /\ langservers (outside ed2)
       = <[langserver_id_of python_filetype "/proj" := fresh_ref (demo_fresh 7)]>
           (langservers (outside empty_editor))
    /\ tabs_opened s = [1; 2]%nat
    /\ bindings ed2
       = (bindings empty_editor
          ++ [(1%nat, fresh_ref (demo_fresh 7)); (2%nat, fresh_ref (demo_fresh 7))])%list
    /\ plugin_log ed2 = plugin_log empty_editor.
Proof.
  apply (tabs_of_one_project_share_a_session (host := ascii_host) demo_fs
           (fun command => inr [command]) (fun _ _ => popen_started demo_process)
           (demo_fresh 7) (demo_fresh 8) None 1 2 "/proj/a.py" "/proj/a.py" "/proj"
           python_filetype demo_process empty_editor).
  - reflexivity.
  - reflexivity.
  - vm_compute. reflexivity.
  - vm_compute. reflexivity.
  - reflexivity.
  - vm_compute. reflexivity.
  - exists ["pyls"]. split; reflexivity.
  - reflexivity.
Defined.

End PluginInstances.
